(** * node-opcua: the server engine (sessions, subscriptions, server-bound methods)

    A shallow embedding of [ServerEngine] (server_engine.ts) and of the
    module-level helpers that live next to it: [_get_next_subscriptionId],
    [_getSubscription], [setSubscriptionDurable], [getMonitoredItemsId] and
    [resendData]; and of the relative path parser [makeRelativePath].

    JavaScript numbers are doubles. Those that hold counters, identifiers,
    dates and hour counts are given by their values, integers of [Z], and a
    duration in milliseconds by its value, a rational of [Q]; where the
    source computes with them and the result is rounded, the model computes
    on the doubles ([Number]).
    JavaScript objects that are shared between several owners (the sessions)
    live in an explicit store and are designated by a reference; a
    subscription is held by one publish engine at a time and lives in the
    table of that engine. Every method is a function from the state before
    to a result and the state after; an exception is the result [None]. *)

From Stdlib Require Import ZArith QArith Qround Ascii String SpecFloat.
From stdpp Require Import gmap strings list.

Local Open Scope Z_scope.

(** ** Status codes used by the engine *)

Inductive StatusCode :=
| Good
| BadInternalError
| BadInvalidState
| BadNotImplemented
| BadNothingToDo
| BadSubscriptionIdInvalid
| BadTooManySessions
| BadUserAccessDenied.

Global Instance StatusCode_eq_dec : EqDecision StatusCode.
Proof. solve_decision. Defined.

(** ** NodeId *)

Inductive NodeIdType := NUMERIC | STRING | GUID | BYTESTRING.

Global Instance NodeIdType_eq_dec : EqDecision NodeIdType.
Proof. solve_decision. Defined.

Module NodeId.
Record t := mk {
  identifierType : NodeIdType;
  value : string;
  namespace : Z
}.
End NodeId.

(** ** Subscriptions and publish engines *)

(** Object identity of a session in the store. *)
Abbreviation SessionRef := nat (only parsing).

(** Object identity of a publish engine: every session owns one, and the
    engine keeps one more for the orphans. *)
Inductive PublishEngineRef :=
| SessionPublishEngine (owner : SessionRef)
| OrphanPublishEngine.

Global Instance PublishEngineRef_eq_dec : EqDecision PublishEngineRef.
Proof. solve_decision. Defined.

Record NotificationMessage := { sequenceNumber : Z }.

Module Diag.
Record t := mk {
  transferRequestCount : Z;
  transferredToAltClientCount : Z;
  transferredToSameClientCount : Z
}.
End Diag.

Module Subscription.
Record t := mk {
  id : Z;
  lifeTimeCount : Z;
  maxKeepAliveCount : Z;
  maxNotificationsPerPublish : Z;
  priority : Z;
  publishingEnabled : bool;
  publishingInterval : Q;
  publishEngine : PublishEngineRef;
  session : option SessionRef;           (* the [$session] property *)
  monitoredItemCount : Z;
  sentNotificationMessages : list NotificationMessage;
  subscriptionDiagnostics : Diag.t
}.

Definition set_session (v : option SessionRef) (s : t) : t :=
  mk (id s) (lifeTimeCount s) (maxKeepAliveCount s) (maxNotificationsPerPublish s)
     (priority s) (publishingEnabled s) (publishingInterval s) (publishEngine s)
     v (monitoredItemCount s) (sentNotificationMessages s) (subscriptionDiagnostics s).

Definition set_publishEngine (v : PublishEngineRef) (s : t) : t :=
  mk (id s) (lifeTimeCount s) (maxKeepAliveCount s) (maxNotificationsPerPublish s)
     (priority s) (publishingEnabled s) (publishingInterval s) v
     (session s) (monitoredItemCount s) (sentNotificationMessages s)
     (subscriptionDiagnostics s).

Definition set_subscriptionDiagnostics (v : Diag.t) (s : t) : t :=
  mk (id s) (lifeTimeCount s) (maxKeepAliveCount s) (maxNotificationsPerPublish s)
     (priority s) (publishingEnabled s) (publishingInterval s) (publishEngine s)
     (session s) (monitoredItemCount s) (sentNotificationMessages s) v.
End Subscription.

Module PublishEngine.
(** [ServerSidePublishEngine]: the table [_subscriptions], keyed by
    subscription id. *)
Record t := mk { subscriptions : gmap Z Subscription.t }.

Definition empty : t := mk ∅.
End PublishEngine.

(** ** Sessions *)

Module ServerSession.
Record t := mk {
  authenticationToken : NodeId.t;
  status : string;
  creationDate : Z;                      (* [creationDate.getTime()] *)
  sessionTimeout : Z;
  userIdentityToken : option string;
  publishEngine : PublishEngine.t
}.

Definition set_status (v : string) (s : t) : t :=
  mk (authenticationToken s) v (creationDate s) (sessionTimeout s)
     (userIdentityToken s) (publishEngine s).

Definition set_publishEngine (v : PublishEngine.t) (s : t) : t :=
  mk (authenticationToken s) (status s) (creationDate s) (sessionTimeout s)
     (userIdentityToken s) v.
End ServerSession.

(** ** The engine and its surroundings *)

Module Summary.
(** [ServerDiagnosticsSummaryDataType], the counters the engine maintains. *)
Record t := mk {
  cumulatedSessionCount : Z;
  currentSessionCount : Z;
  cumulatedSubscriptionCount : Z;
  sessionTimeoutCount : Z
}.
End Summary.

Record ServerCapabilities := { maxSessions : Z }.

Record ApplicationDescription := { applicationUri : option string }.

(** The state the engine's methods read and write.

    - [next_subscriptionId] is the module-level [let] of server_engine.ts;
    - [heap] is the store of session objects, a [SessionRef] is an index in it;
    - the remaining fields are the fields of [ServerEngine]. [_sessions] and
      [_closedSessions] are JavaScript objects used as dictionaries from
      [authenticationToken.toString()] to a session: [Object.values] lists
      them in insertion order, hence association lists. *)
Record State := mkState {
  next_subscriptionId : Z;
  heap : list ServerSession.t;
  serverDiagnosticsSummary : Summary.t;
  serverCapabilities : ServerCapabilities;
  clientDescription : option ApplicationDescription;
  _sessions : list (string * SessionRef);
  _closedSessions : list (string * SessionRef);
  _orphanPublishEngine : option PublishEngine.t
}.

Definition set_next_subscriptionId (v : Z) (σ : State) : State :=
  mkState v (heap σ) (serverDiagnosticsSummary σ) (serverCapabilities σ)
          (clientDescription σ) (_sessions σ) (_closedSessions σ)
          (_orphanPublishEngine σ).

Definition set_heap (v : list ServerSession.t) (σ : State) : State :=
  mkState (next_subscriptionId σ) v (serverDiagnosticsSummary σ) (serverCapabilities σ)
          (clientDescription σ) (_sessions σ) (_closedSessions σ)
          (_orphanPublishEngine σ).

Definition set_serverDiagnosticsSummary (v : Summary.t) (σ : State) : State :=
  mkState (next_subscriptionId σ) (heap σ) v (serverCapabilities σ)
          (clientDescription σ) (_sessions σ) (_closedSessions σ)
          (_orphanPublishEngine σ).

Definition set_clientDescription (v : option ApplicationDescription) (σ : State)
    : State :=
  mkState (next_subscriptionId σ) (heap σ) (serverDiagnosticsSummary σ)
          (serverCapabilities σ) v (_sessions σ) (_closedSessions σ)
          (_orphanPublishEngine σ).

Definition set_sessions (v : list (string * SessionRef)) (σ : State) : State :=
  mkState (next_subscriptionId σ) (heap σ) (serverDiagnosticsSummary σ)
          (serverCapabilities σ) (clientDescription σ) v (_closedSessions σ)
          (_orphanPublishEngine σ).

Definition set_orphanPublishEngine (v : option PublishEngine.t) (σ : State) : State :=
  mkState (next_subscriptionId σ) (heap σ) (serverDiagnosticsSummary σ)
          (serverCapabilities σ) (clientDescription σ) (_sessions σ)
          (_closedSessions σ) v.

(** ** JavaScript objects used as dictionaries *)

Section Dict.
Context {A : Type}.

(** [d[key]] *)
Fixpoint dict_get (key : string) (d : list (string * A)) : option A :=
  match d with
  | [] => None
  | (k, v) :: d' => if String.eqb k key then Some v else dict_get key d'
  end.

(** [d[key] = v]: an existing property keeps its place, a new one goes last. *)
Fixpoint dict_set (key : string) (v : A) (d : list (string * A)) : list (string * A) :=
  match d with
  | [] => [(key, v)]
  | (k, w) :: d' =>
      if String.eqb k key then (k, v) :: d' else (k, w) :: dict_set key v d'
  end.

(** [delete d[key]] *)
Fixpoint dict_delete (key : string) (d : list (string * A)) : list (string * A) :=
  match d with
  | [] => []
  | (k, w) :: d' =>
      if String.eqb k key then dict_delete key d' else (k, w) :: dict_delete key d'
  end.

(** [Object.values(d)] *)
Definition dict_values (d : list (string * A)) : list A := map snd d.
End Dict.

(** [Object.values(this._sessions)], each session with its identity (a
    reference that designates no object of the store has no value). *)
Definition session_values (σ : State) : list (SessionRef * ServerSession.t) :=
  omap (fun r => (fun s => (r, s)) <$> heap σ !! r) (dict_values (_sessions σ)).

(** [heap[r] = f(heap[r])]: an update in place of a session object. *)
Definition update_session (r : SessionRef) (f : ServerSession.t -> ServerSession.t)
    (σ : State) : State :=
  match heap σ !! r with
  | Some s => set_heap (<[r := f s]> (heap σ)) σ
  | None => σ
  end.

(** ** Numbers

    A JavaScript number is a double: a binary64 floating point number of
    IEEE 754, here as the Standard Library specifies them ([SpecFloat]),
    with its infinities, its two zeros and NaN. *)

Module Number.

Definition t : Type := spec_float.

Definition prec : Z := 53.
Definition emax : Z := 1024.

(** The double nearest to the integer [z]; it is [z] when a double holds [z]. *)
Definition of_Z (z : Z) : t := SpecFloat.binary_normalize prec emax z 0 false.

(** The double nearest to the rational [q]: the quotient of the doubles of
    its numerator and its denominator. When [q] is the value of a double,
    both are held exactly and so is [q]; a decimal literal such as 76.8 is
    the double of 768 / 10. *)
Definition of_Q (q : Q) : t :=
  SpecFloat.SFdiv prec emax (of_Z (Qnum q)) (of_Z (Zpos (Qden q))).

(** [x + y], [x * y] and [x / y] *)
Definition add : t -> t -> t := SpecFloat.SFadd prec emax.
Definition mul : t -> t -> t := SpecFloat.SFmul prec emax.
Definition div : t -> t -> t := SpecFloat.SFdiv prec emax.

(** [x < y]: false when one of them is NaN. *)
Definition ltb : t -> t -> bool := SpecFloat.SFltb.

(** [Math.ceil(x)]. A finite double is [m * 2 ^ e]; it is an integer when
    [e] is not negative. The ceiling of a negative number above -1 is the
    negative zero. *)
Definition ceil (x : t) : t :=
  match x with
  | S754_finite s m e =>
      if 0 <=? e then x
      else
        let q := Z.shiftr (Zpos m) (- e) in
        if s then (if q =? 0 then S754_zero true else of_Z (- q))
        else if Z.shiftl q (- e) =? Zpos m then of_Z q else of_Z (q + 1)
  | _ => x
  end.

(** The value of a double that is an integer; [None] for the others. *)
Definition to_Z (x : t) : option Z :=
  match x with
  | S754_zero _ => Some 0
  | S754_finite s m e =>
      if 0 <=? e then Some (SpecFloat.cond_Zopp s (Z.shiftl (Zpos m) e))
      else
        let q := Z.shiftr (Zpos m) (- e) in
        if Z.shiftl q (- e) =? Zpos m then Some (SpecFloat.cond_Zopp s q) else None
  | _ => None
  end.

End Number.

(** The double nearest to the integer [z], as an integer: [z] itself up to
    2 ^ 53; above, a double keeps 53 bits of [z] and the rest is rounded to
    the nearest, to the even one of two nearest. (No overflow: the integers
    of the model are far below 2 ^ 1024.) *)
Definition binary64_of_Z (z : Z) : Z :=
  let a := Z.abs z in
  if a <? 2 ^ 53 then z
  else
    let e := Z.log2 a - 52 in            (* the bits of [a] that are lost *)
    let q := a / 2 ^ e in
    let r := a mod 2 ^ e in
    let half := 2 ^ (e - 1) in
    let q' :=
      if r <? half then q
      else if half <? r then q + 1
      else if Z.even q then q else q + 1 in
    Z.sgn z * (q' * 2 ^ e).

(** [x + 1] on the doubles, for an integer [x] that a double holds. *)
Definition binary64_succ (x : Z) : Z := binary64_of_Z (x + 1).

(** ** Arguments and results of the server-bound methods *)

(** An output argument: a scalar or an array of [UInt32]. *)
Inductive VariantValue :=
| Scalar (n : Z)
| Array (l : list Z).

(** An input argument. The Call service checks the arguments against the
    method's [InputArguments] before it invokes the method, so the two
    arguments of the methods below are [UInt32] scalars. *)
Record Variant := { value : Z }.

Record CallMethodResult := {
  statusCode : StatusCode;
  outputArguments : list VariantValue
}.

Record ISessionContext := { context_session : option SessionRef }.

Record TransferResult := {
  transfer_statusCode : StatusCode;
  availableSequenceNumbers : list Z
}.

Record ModifyOptions := {
  requestedMaxKeepAliveCount : Z;
  requestedPublishingInterval : Q;
  modify_maxNotificationsPerPublish : Z;
  modify_priority : Z;
  requestedLifetimeCount : Number.t
}.

Record GetMonitoredItemsResult := {
  monitored_statusCode : StatusCode;
  serverHandles : list Z;
  clientHandles : list Z
}.

Record CreateSessionOption := {
  option_clientDescription : option ApplicationDescription;
  option_sessionTimeout : option Z
}.

Inductive ClosingReason := Timeout | Terminated | CloseSession | Forcing.

Record CreateSubscriptionRequestLike := {
  requestedPublishingInterval_ : Q;
  requestedLifetimeCount_ : Z;
  requestedMaxKeepAliveCount_ : Z;
  maxNotificationsPerPublish_ : Z;
  publishingEnabled_ : bool;
  priority_ : Z
}.

(** [a || b] on numbers: [0] and [undefined] are falsy. *)
Definition number_or (a : option Z) (b : Z) : Z :=
  match a with
  | Some n => if n =? 0 then b else n
  | None => b
  end.

(** ** Module-level subscription id counter *)

(** [Math.ceil(Math.random() * 1000000)], for the value [r] drawn by
    [Math.random()], a double of [0, 1): the product is the one of the
    doubles, and its ceiling is an integer between 0 and 1000000. *)
Definition initial_next_subscriptionId (r : Q) : Z :=
  default 0
    (Number.to_Z (Number.ceil (Number.mul (Number.of_Q r) (Number.of_Z 1000000)))).

(** [setNextSubscriptionId], for a number [n] whose value is an integer. *)
Definition setNextSubscriptionId (n : Z) (σ : State) : State :=
  set_next_subscriptionId (Z.max n 1) σ.

(** [_get_next_subscriptionId]: [return next_subscriptionId++]. The counter
    is a double: from 2 ^ 53 on, adding 1 does not always change it. *)
Definition _get_next_subscriptionId (σ : State) : Z * State :=
  (next_subscriptionId σ,
   set_next_subscriptionId (binary64_succ (next_subscriptionId σ)) σ).

(** The values that the counter takes in [n] calls of
    [_get_next_subscriptionId], from the value [x] on. *)
Fixpoint counter_values (n : nat) (x : Z) : list Z :=
  match n with
  | O => []
  | S n' => x :: counter_values n' (binary64_succ x)
  end.

(** ** Collaborators whose source is not part of server_engine.ts *)

(** Modelled from the spec: [ServerSidePublishEngine.getSubscriptionById],
    a lookup in the engine's subscription table (server_publish_engine.ts
    is missing). *)
Definition getSubscriptionById (e : PublishEngine.t) (subscriptionId : Z)
    : option Subscription.t :=
  PublishEngine.subscriptions e !! subscriptionId.

(** Modelled from the spec: [ServerSession.getSubscription], the session's
    subscriptions are those of its publish engine (server_session.ts is
    missing). *)
Definition ServerSession_getSubscription (s : ServerSession.t) (subscriptionId : Z)
    : option Subscription.t :=
  getSubscriptionById (ServerSession.publishEngine s) subscriptionId.

(** Modelled from the spec: [ServerSidePublishEngine.add_subscription],
    the subscription enters the table of the engine [e], whose identity is
    [r], and belongs to it from then on (server_publish_engine.ts is
    missing). *)
Definition add_subscription (r : PublishEngineRef) (sub : Subscription.t)
    (e : PublishEngine.t) : PublishEngine.t :=
  PublishEngine.mk
    (<[Subscription.id sub := Subscription.set_publishEngine r sub]>
       (PublishEngine.subscriptions e)).

(** Modelled from the spec: [ServerSidePublishEngine.detach_subscription]
    (server_publish_engine.ts is missing). *)
Definition detach_subscription (sub : Subscription.t) (e : PublishEngine.t)
    : PublishEngine.t :=
  PublishEngine.mk (delete (Subscription.id sub) (PublishEngine.subscriptions e)).

(** Modelled from the spec: the [ServerSession] constructor. The session is
    born with status [new], a fresh opaque authentication token (its random
    bytes are [tokenBytes]), the clock's time as creation date, the timeout
    it is given and a publish engine of its own (server_session.ts is
    missing). *)
Definition new_ServerSession (tokenBytes : string) (now : Z) (sessionTimeout : Z)
    : ServerSession.t :=
  ServerSession.mk (NodeId.mk BYTESTRING tokenBytes 0) "new" now sessionTimeout
                   None PublishEngine.empty.

(** Modelled from the spec: [ServerSession.close], "delete each subscription,
    releasing monitored items and timers", "status → closed": what is still
    in the session's publish engine when the session closes is deleted
    (server_session.ts is missing). *)
Definition ServerSession_close (deleteSubscriptions : bool) (reason : ClosingReason)
    (s : ServerSession.t) : ServerSession.t :=
  ServerSession.set_status "closed"
    (ServerSession.set_publishEngine PublishEngine.empty s).

(** Modelled from the spec: [ServerSession.dispose], "status → closed → later
    disposed" (server_session.ts is missing). *)
Definition ServerSession_dispose (s : ServerSession.t) : ServerSession.t :=
  ServerSession.set_status "disposed" s.

(** A subscription as the orphanage holds it: it belongs to the orphans'
    publish engine and has no session. *)
Definition orphaned (sub : Subscription.t) : Subscription.t :=
  Subscription.set_publishEngine OrphanPublishEngine
    (Subscription.set_session None sub).

(** Modelled from the spec: [ServerSidePublishEngine.transferSubscriptionsToOrphan],
    "transfer all live subscriptions to the orphanage": every subscription
    of the source engine is detached from it and added to the orphanage,
    where it has no session any more (server_publish_engine.ts is missing). *)
Definition transferSubscriptionsToOrphan (src dest : PublishEngine.t)
    : PublishEngine.t * PublishEngine.t :=
  (PublishEngine.empty,
   PublishEngine.mk
     ((orphaned <$> PublishEngine.subscriptions src)
      ∪ PublishEngine.subscriptions dest)).

(** Modelled from the spec: [Subscription.getAvailableSequenceNumbers],
    "availableSequenceNumbers (the retransmission queue)"
    (server_subscription.ts is missing). *)
Definition getAvailableSequenceNumbers (sub : Subscription.t) : list Z :=
  map sequenceNumber (Subscription.sentNotificationMessages sub).

(** ** The engine *)

Section Engine.

(** [NodeId.toString] (node-opcua-nodeid). *)
Variable NodeId_toString : NodeId.t -> string.

(** The numeric value of each member of the enumeration [NodeIdType]
    (node-opcua-nodeid). *)
Variable NodeIdType_value : NodeIdType -> Z.

(** [sessionsCompatibleForTransfer] (sessions_compatible_for_transfer.ts):
    do the two sessions share the same user identity? The source session is
    absent for a subscription that has none. *)
Variable sessionsCompatibleForTransfer :
  option ServerSession.t -> ServerSession.t -> bool.

(** [Subscription.modify], [Subscription.getMonitoredItems] and
    [Subscription.resendInitialValues] (server_subscription.ts); the last
    one is a promise, [None] stands for its rejection. *)
Variable Subscription_modify : ModifyOptions -> Subscription.t -> Subscription.t.
Variable Subscription_getMonitoredItems : Subscription.t -> GetMonitoredItemsResult.
Variable Subscription_resendInitialValues : Subscription.t -> option Subscription.t.

(** *** Sessions *)

(** [getSession]. A missing token is [None]; [activeOnly] is [false] when
    the caller leaves it out. *)
Definition getSession (authenticationToken : option NodeId.t) (activeOnly : bool)
    (σ : State) : option SessionRef :=
  match authenticationToken with
  | None => None
  | Some token =>
      if negb (NodeIdType_value (NodeId.identifierType token) =? 0)
         && negb (bool_decide (NodeId.identifierType token = BYTESTRING))
      then None (* wrong type ! *)
      else
        let key := NodeId_toString token in
        match dict_get key (_sessions σ) with
        | Some session => Some session
        | None => if negb activeOnly then dict_get key (_closedSessions σ) else None
        end
  end.

Definition is_screwed_disposed_or_closed (s : ServerSession.t) : bool :=
  String.eqb (ServerSession.status s) "screwed"
  || String.eqb (ServerSession.status s) "disposed"
  || String.eqb (ServerSession.status s) "closed".

Definition is_new (s : ServerSession.t) : bool :=
  String.eqb (ServerSession.status s) "new".

(** The loop of [getOldestInactiveSession]: [session] is replaced by [c]
    whenever [session.creationDate.getTime() < c.creationDate.getTime()]. *)
Fixpoint oldest_loop (session : SessionRef * ServerSession.t)
    (tmp : list (SessionRef * ServerSession.t)) : SessionRef * ServerSession.t :=
  match tmp with
  | [] => session
  | c :: tmp' =>
      if ServerSession.creationDate (snd session) <? ServerSession.creationDate (snd c)
      then oldest_loop c tmp'
      else oldest_loop session tmp'
  end.

(** The two filters of [getOldestInactiveSession]. *)
Definition inactive_candidates (σ : State) : list (SessionRef * ServerSession.t) :=
  let tmp := List.filter (fun p => is_screwed_disposed_or_closed (snd p))
                         (session_values σ) in
  if (Z.of_nat (length tmp) =? 0)
  then List.filter (fun p => is_new (snd p)) (session_values σ)
  else tmp.

(** [getOldestInactiveSession] *)
Definition getOldestInactiveSession (σ : State) : option SessionRef :=
  match inactive_candidates σ with
  | [] => None
  | session :: tmp' => Some (fst (oldest_loop session tmp'))
  end.

(** [createSession]. The random bytes of the new token and the time of the
    clock are inputs. The result is the new session and the state after.
    The handlers that the source attaches to the session's events run later,
    when the events fire; they are not part of the call. *)
Definition createSession (options : option CreateSessionOption)
    (tokenBytes : string) (now : Z) (σ : State) : SessionRef * State :=
  let summary := serverDiagnosticsSummary σ in
  let summary :=
    Summary.mk (Summary.cumulatedSessionCount summary + 1)
               (Summary.currentSessionCount summary + 1)
               (Summary.cumulatedSubscriptionCount summary)
               (Summary.sessionTimeoutCount summary) in
  let σ := set_serverDiagnosticsSummary summary σ in
  let σ :=
    set_clientDescription
      (Some (default {| applicationUri := None |}
               (options ≫= option_clientDescription))) σ in
  let sessionTimeout :=
    number_or (options ≫= option_sessionTimeout) 1000 in
  let session := new_ServerSession tokenBytes now sessionTimeout in
  let r : SessionRef := length (heap σ) in
  let σ := set_heap (heap σ ++ [session]) σ in
  let key := NodeId_toString (ServerSession.authenticationToken session) in
  (r, set_sessions (dict_set key r (_sessions σ)) σ).

(** The first half of [closeSession], up to and including
    [session.close(deleteSubscriptions, reason)]: the session that answers to
    the token, and the state in which the source asserts
    [session.status === "closed"]. [None] is the exception thrown when no
    session answers to the token. *)
Definition closeSession_close (authenticationToken : NodeId.t)
    (deleteSubscriptions : bool) (reason : ClosingReason) (σ : State)
    : option (SessionRef * State) :=
  match getSession (Some authenticationToken) false σ with
  | None => None
  | Some r =>
      match heap σ !! r with
      | None => None
      | Some session =>
          let σ1 :=
            if negb deleteSubscriptions then
              let orphan := default PublishEngine.empty (_orphanPublishEngine σ) in
              let '(src, dest) :=
                transferSubscriptionsToOrphan (ServerSession.publishEngine session) orphan in
              set_orphanPublishEngine (Some dest)
                (update_session r (ServerSession.set_publishEngine src) σ)
            else σ in
          Some (r, update_session r (ServerSession_close deleteSubscriptions reason) σ1)
      end
  end.

(** [closeSession]. [None] is an exception: no session answers to the
    token, or the assertion on the status fails. *)
Definition closeSession (authenticationToken : NodeId.t) (deleteSubscriptions : bool)
    (reason : ClosingReason) (σ : State) : option State :=
  match closeSession_close authenticationToken deleteSubscriptions reason σ with
  | None => None
  | Some (r, σ2) =>
      match heap σ2 !! r with
      | None => None
      | Some closed =>
          if negb (String.eqb (ServerSession.status closed) "closed") then None
          else
            let summary := serverDiagnosticsSummary σ2 in
            let summary :=
              Summary.mk (Summary.cumulatedSessionCount summary)
                         (Summary.currentSessionCount summary - 1)
                         (Summary.cumulatedSubscriptionCount summary)
                         (Summary.sessionTimeoutCount summary) in
            let σ3 := set_serverDiagnosticsSummary summary σ2 in
            let σ4 :=
              set_sessions
                (dict_delete (NodeId_toString authenticationToken) (_sessions σ3)) σ3 in
            Some (update_session r ServerSession_dispose σ4)
      end
  end.

(** *** Subscriptions *)

(** The publish engine that has the identity [e]. *)
Definition publish_engine_at (e : PublishEngineRef) (σ : State)
    : option PublishEngine.t :=
  match e with
  | SessionPublishEngine r => ServerSession.publishEngine <$> heap σ !! r
  | OrphanPublishEngine => _orphanPublishEngine σ
  end.

(** An update in place of the publish engine that has the identity [e]. *)
Definition update_publish_engine (e : PublishEngineRef)
    (f : PublishEngine.t -> PublishEngine.t) (σ : State) : State :=
  match e with
  | SessionPublishEngine r =>
      update_session r
        (fun s => ServerSession.set_publishEngine (f (ServerSession.publishEngine s)) s) σ
  | OrphanPublishEngine =>
      set_orphanPublishEngine (f <$> _orphanPublishEngine σ) σ
  end.

(** A write to a property of the subscription object that the engine [e]
    holds under [key]. *)
Definition store_subscription (e : PublishEngineRef) (key : Z) (sub : Subscription.t)
    (σ : State) : State :=
  update_publish_engine e
    (fun pe => PublishEngine.mk (<[key := sub]> (PublishEngine.subscriptions pe))) σ.

(** The [map] over [Object.values(this._sessions)] of [findSubscription]:
    the first session whose publish engine knows the id wins. *)
Fixpoint find_in_sessions (subscriptionId : Z) (l : list (SessionRef * ServerSession.t))
    : option (PublishEngineRef * Subscription.t) :=
  match l with
  | [] => None
  | (r, session) :: l' =>
      match getSubscriptionById (ServerSession.publishEngine session) subscriptionId with
      | Some subscription => Some (SessionPublishEngine r, subscription)
      | None => find_in_sessions subscriptionId l'
      end
  end.

(** [findOrphanSubscription] *)
Definition findOrphanSubscription (subscriptionId : Z) (σ : State)
    : option (PublishEngineRef * Subscription.t) :=
  match _orphanPublishEngine σ with
  | None => None
  | Some orphan =>
      (fun sub => (OrphanPublishEngine, sub)) <$> getSubscriptionById orphan subscriptionId
  end.

(** [findSubscription]. The subscription object comes with the publish
    engine in which it was found. *)
Definition findSubscription (subscriptionId : Z) (σ : State)
    : option (PublishEngineRef * Subscription.t) :=
  match find_in_sessions subscriptionId (session_values σ) with
  | Some found => Some found
  | None => findOrphanSubscription subscriptionId σ
  end.

(** Modelled from the spec: the static [ServerSidePublishEngine.transferSubscription],
    "detach from source publish engine, attach to target"; the source is the
    engine the subscription names as its own. The spec does not say what the
    move does to the retransmission queue, and no property below relies on
    it. The re-queueing of initial values concerns the monitored items'
    queues, which are not part of this state (server_publish_engine.ts is
    missing). *)
Definition PublishEngine_transferSubscription (subscription : Subscription.t)
    (dest : PublishEngineRef) (sendInitialValues : bool) (σ : State) : State :=
  update_publish_engine dest (add_subscription dest subscription)
    (update_publish_engine (Subscription.publishEngine subscription)
       (detach_subscription subscription) σ).

Definition bump_transferRequestCount (sub : Subscription.t) : Subscription.t :=
  let d := Subscription.subscriptionDiagnostics sub in
  Subscription.set_subscriptionDiagnostics
    (Diag.mk (Diag.transferRequestCount d + 1)
             (Diag.transferredToAltClientCount d)
             (Diag.transferredToSameClientCount d)) sub.

Definition bump_transferredCounts (sub : Subscription.t) : Subscription.t :=
  let d := Subscription.subscriptionDiagnostics sub in
  Subscription.set_subscriptionDiagnostics
    (Diag.mk (Diag.transferRequestCount d)
             (Diag.transferredToAltClientCount d + 1)
             (Diag.transferredToSameClientCount d + 1)) sub.

(** The subscription object that has the id [subscriptionId], as it is in
    the engine [e] of the state [σ]. *)
Definition subscription_in (e : PublishEngineRef) (subscriptionId : Z) (σ : State)
    : option Subscription.t :=
  publish_engine_at e σ ≫= fun pe => getSubscriptionById pe subscriptionId.

(** [transferSubscription]. [session] is the session that will own the
    subscription. [None] is an exception: a reference that designates no
    session object, or the assertion after the move that fails. The
    available sequence numbers are read once the subscription is moved, on
    the subscription as it is then. The subscription's diagnostics node of
    the address space, which the source hides and exposes again, is not
    part of the state. *)
Definition transferSubscription (session : SessionRef) (subscriptionId : Z)
    (sendInitialValues : bool) (σ : State) : option (TransferResult * State) :=
  if subscriptionId <=? 0 then
    Some ({| transfer_statusCode := BadSubscriptionIdInvalid;
             availableSequenceNumbers := [] |}, σ)
  else
    match findSubscription subscriptionId σ with
    | None =>
        Some ({| transfer_statusCode := BadSubscriptionIdInvalid;
                 availableSequenceNumbers := [] |}, σ)
    | Some (e, subscription) =>
        match heap σ !! session with
        | None => None
        | Some target =>
            (* check that session have same userIdentity *)
            if negb (sessionsCompatibleForTransfer
                       (Subscription.session subscription ≫= (fun r => heap σ !! r))
                       target)
            then Some ({| transfer_statusCode := BadUserAccessDenied;
                          availableSequenceNumbers := [] |}, σ)
            else
              (* update diagnostics *)
              let subscription := bump_transferRequestCount subscription in
              let σ := store_subscription e subscriptionId subscription σ in
              if bool_decide (SessionPublishEngine session
                              = Subscription.publishEngine subscription)
              then Some ({| transfer_statusCode := BadNothingToDo;
                            availableSequenceNumbers := [] |}, σ)
              else if bool_decide (Some session = Subscription.session subscription)
              then Some ({| transfer_statusCode := BadNothingToDo;
                            availableSequenceNumbers := [] |}, σ)
              else
                let subscription := bump_transferredCounts subscription in
                let subscription := Subscription.set_session (Some session) subscription in
                let σ := store_subscription e subscriptionId subscription σ in
                let σ :=
                  PublishEngine_transferSubscription subscription
                    (SessionPublishEngine session) sendInitialValues σ in
                (* assert(subscription.publishEngine === session.publishEngine) *)
                match subscription_in (SessionPublishEngine session)
                        (Subscription.id subscription) σ with
                | None => None
                | Some subscription =>
                    Some ({| transfer_statusCode := Good;
                             availableSequenceNumbers :=
                               getAvailableSequenceNumbers subscription |}, σ)
                end
        end
    end.

(** Modelled from the spec: the [Subscription] constructor keeps the
    parameters it is given; a new subscription has no monitored item, an
    empty retransmission queue and diagnostics at zero
    (server_subscription.ts is missing). *)
Definition new_Subscription (id lifeTimeCount maxKeepAliveCount
    maxNotificationsPerPublish priority : Z) (publishEngine : PublishEngineRef)
    (publishingEnabled : bool) (publishingInterval : Q) : Subscription.t :=
  Subscription.mk id lifeTimeCount maxKeepAliveCount maxNotificationsPerPublish
    priority publishingEnabled publishingInterval publishEngine None 0 []
    (Diag.mk 0 0 0).

(** [_createSubscriptionOnSession]. The fields of the request are present
    (the source asserts it), so [x || 0] is [x]. [None] is an exception (a
    reference that designates no session object). The subscription's
    diagnostics node of the address space is not part of the state. *)
Definition _createSubscriptionOnSession (session : SessionRef)
    (request : CreateSubscriptionRequestLike) (σ : State)
    : option (Subscription.t * State) :=
  match heap σ !! session with
  | None => None
  | Some _ =>
      let publishingInterval := requestedPublishingInterval_ request in
      let maxKeepAliveCount := number_or (Some (requestedMaxKeepAliveCount_ request)) 0 in
      let lifeTimeCount := number_or (Some (requestedLifetimeCount_ request)) 0 in
      let '(id, σ) := _get_next_subscriptionId σ in
      let subscription :=
        new_Subscription id lifeTimeCount maxKeepAliveCount
          (maxNotificationsPerPublish_ request)
          (number_or (Some (priority_ request)) 0)
          (SessionPublishEngine session)
          (publishingEnabled_ request) publishingInterval in
      Some (subscription,
            update_publish_engine (SessionPublishEngine session)
              (add_subscription (SessionPublishEngine session) subscription) σ)
  end.

(** *** Server-bound methods *)

(** [_getSubscription]: a status code, or the subscription together with
    the session in whose publish engine it lives. [None] is an exception
    (a missing argument). *)
Definition _getSubscription (inputArguments : list Variant) (context : ISessionContext)
    (σ : State) : option (StatusCode + SessionRef * Subscription.t) :=
  match context_session context with
  | None => Some (inl BadInternalError)
  | Some r =>
      match heap σ !! r, inputArguments !! 0%nat with
      | Some session, Some argument =>
          let subscriptionId := value argument in
          match ServerSession_getSubscription session subscriptionId with
          | Some subscription => Some (inr (r, subscription))
          | None =>
              (* subscription may belongs to a different session  that ours *)
              match findSubscription subscriptionId σ with
              | Some _ => Some (inl BadUserAccessDenied)
              | None => Some (inl BadSubscriptionIdInvalid)
              end
          end
      | _, _ => None
      end
  end.

Definition highestLifetimeInHours : Z := 24 * 100.

(** The revised lifetime of [setSubscriptionDurable]. *)
Definition revisedLifetimeInHours (lifetimeInHours : Z) : Z :=
  if lifetimeInHours =? 0 then highestLifetimeInHours
  else Z.max 1 (Z.min lifetimeInHours highestLifetimeInHours).

(** [(subscription.lifeTimeCount * subscription.publishingInterval) / (1000 * 60 * 60)],
    a product and a quotient of doubles. *)
Definition currentLifeTimeInHours (subscription : Subscription.t) : Number.t :=
  Number.div
    (Number.mul (Number.of_Z (Subscription.lifeTimeCount subscription))
                (Number.of_Q (Subscription.publishingInterval subscription)))
    (Number.of_Z (1000 * 60 * 60)).

(** [Math.ceil((revisedLifetimeInHours * (1000 * 60 * 60)) / subscription.publishingInterval)]:
    the ceiling of a quotient of doubles; it is infinite for a publishing
    interval of 0. *)
Definition lifetimeCount_for (revised : Z) (subscription : Subscription.t) : Number.t :=
  Number.ceil
    (Number.div
       (Number.mul (Number.of_Z revised) (Number.of_Z (1000 * 60 * 60)))
       (Number.of_Q (Subscription.publishingInterval subscription))).

(** [setSubscriptionDurable]: what the callback receives, and the state
    after. [None] is an exception (a missing argument). *)
Definition setSubscriptionDurable (inputArguments : list Variant)
    (context : ISessionContext) (σ : State) : option (CallMethodResult * State) :=
  match _getSubscription inputArguments context σ with
  | None => None
  | Some (inl code) => Some ({| statusCode := code; outputArguments := [] |}, σ)
  | Some (inr (r, subscription)) =>
      match inputArguments !! 1%nat with
      | None => None
      | Some argument =>
          let lifetimeInHours := value argument in
          if Subscription.monitoredItemCount subscription >? 0 then
            (* This is returned when a Subscription already contains MonitoredItems. *)
            Some ({| statusCode := BadInvalidState; outputArguments := [] |}, σ)
          else
            let revised := revisedLifetimeInHours lifetimeInHours in
            (* also adjust subscription life time *)
            let σ :=
              if Number.ltb (currentLifeTimeInHours subscription) (Number.of_Z revised)
              then
                let requestedLifetimeCount := lifetimeCount_for revised subscription in
                store_subscription (SessionPublishEngine r) (Subscription.id subscription)
                  (Subscription_modify
                     {| requestedMaxKeepAliveCount :=
                          Subscription.maxKeepAliveCount subscription;
                        requestedPublishingInterval :=
                          Subscription.publishingInterval subscription;
                        modify_maxNotificationsPerPublish :=
                          Subscription.maxNotificationsPerPublish subscription;
                        modify_priority := Subscription.priority subscription;
                        requestedLifetimeCount := requestedLifetimeCount |}
                     subscription) σ
              else σ in
            Some ({| statusCode := Good; outputArguments := [Scalar revised] |}, σ)
      end
  end.

(** [getMonitoredItemsId] *)
Definition getMonitoredItemsId (inputArguments : list Variant)
    (context : ISessionContext) (σ : State) : option (CallMethodResult * State) :=
  match _getSubscription inputArguments context σ with
  | None => None
  | Some (inl code) => Some ({| statusCode := code; outputArguments := [] |}, σ)
  | Some (inr (r, subscription)) =>
      let result := Subscription_getMonitoredItems subscription in
      if bool_decide (length (serverHandles result) = length (clientHandles result)) then
        Some ({| statusCode := monitored_statusCode result;
                 outputArguments := [Array (serverHandles result);
                                     Array (clientHandles result)] |}, σ)
      else None
  end.

(** [resendData] *)
Definition resendData (inputArguments : list Variant)
    (context : ISessionContext) (σ : State) : option (CallMethodResult * State) :=
  match _getSubscription inputArguments context σ with
  | None => None
  | Some (inl code) => Some ({| statusCode := code; outputArguments := [] |}, σ)
  | Some (inr (r, subscription)) =>
      match Subscription_resendInitialValues subscription with
      | Some subscription' =>
          Some ({| statusCode := Good; outputArguments := [] |},
                store_subscription (SessionPublishEngine r) (Subscription.id subscription)
                  subscription' σ)
      | None => None
      end
  end.

(** The server-bound methods, by name. *)
Inductive ServerMethod := GetMonitoredItems | SetSubscriptionDurable | ResendData.

Definition call_method (m : ServerMethod) :
    list Variant -> ISessionContext -> State -> option (CallMethodResult * State) :=
  match m with
  | GetMonitoredItems => getMonitoredItemsId
  | SetSubscriptionDurable => setSubscriptionDurable
  | ResendData => resendData
  end.

(** A run of [_createSubscriptionOnSession], one creation per element of
    [requests], in order: the subscriptions created and the state after. *)
Fixpoint create_subscriptions
    (requests : list (SessionRef * CreateSubscriptionRequestLike)) (σ : State)
    : option (list Subscription.t * State) :=
  match requests with
  | [] => Some ([], σ)
  | (session, request) :: requests' =>
      match _createSubscriptionOnSession session request σ with
      | None => None
      | Some (subscription, σ') =>
          match create_subscriptions requests' σ' with
          | None => None
          | Some (subscriptions, σ'') => Some (subscription :: subscriptions, σ'')
          end
      end
  end.

End Engine.

(** ** Relative paths *)

Module RelativePath.

Record QualifiedName := {
  namespaceIndex : Z;
  name : option string                     (* [null] for [new QualifiedName({})] *)
}.

(** The reference type an element follows, before its name is resolved
    against an address space. *)
Inductive ReferenceType :=
| HierarchicalReferences
| Aggregates
| NamedReferenceType (browseName : QualifiedName).

Record RelativePathElement := {
  referenceTypeId : ReferenceType;
  isInverse : bool;
  includeSubtypes : bool;
  targetName : QualifiedName
}.

(** [Reserved := one of '/ . < > : # ! &'] *)
Definition reservedChars : list ascii :=
  ["/"; "."; "<"; ">"; ":"; "#"; "!"; "&"]%char.

Definition is_reserved (c : ascii) : bool :=
  existsb (Ascii.eqb c) reservedChars.

Definition is_digit (c : ascii) : bool :=
  let n := Z.of_N (N_of_ascii c) in (48 <=? n) && (n <=? 57).

(** [Chars := any character except reserved, or '&' reserved]: the
    characters read, the escapes removed, and what follows them. *)
Fixpoint parse_Chars (s : list ascii) : list ascii * list ascii :=
  match s with
  | [] => ([], [])
  | c :: rest =>
      if Ascii.eqb c "&" then
        match rest with
        | c' :: rest' =>
            if is_reserved c' then
              let '(chars, s') := parse_Chars rest' in (c' :: chars, s')
            else ([], s)
        | [] => ([], s)
        end
      else if is_reserved c then ([], s)
      else let '(chars, s') := parse_Chars rest in (c :: chars, s')
  end.

(** The longest prefix of digits and what follows it. *)
Fixpoint parse_digits (s : list ascii) : list ascii * list ascii :=
  match s with
  | c :: rest =>
      if is_digit c then let '(ds, s') := parse_digits rest in (c :: ds, s')
      else ([], s)
  | [] => ([], [])
  end.

Definition digits_value (ds : list ascii) : Z :=
  fold_left (fun acc c => 10 * acc + (Z.of_N (N_of_ascii c) - 48)) ds 0.

(** [QName := (digits ':')? Chars]: the namespace index when there is one,
    the characters of the name, and what follows. *)
Definition parse_QName (s : list ascii) : option Z * list ascii * list ascii :=
  match parse_digits s with
  | (d :: ds, c :: rest) =>
      if Ascii.eqb c ":" then
        let '(chars, s') := parse_Chars rest in (Some (digits_value (d :: ds)), chars, s')
      else let '(chars, s') := parse_Chars s in (None, chars, s')
  | _ => let '(chars, s') := parse_Chars s in (None, chars, s')
  end.

(** A name without characters is the null name; a name without namespace
    prefix is in namespace 0. *)
Definition make_QualifiedName (ns : option Z) (chars : list ascii) : QualifiedName :=
  {| namespaceIndex := default 0 ns;
     name := match chars with
             | [] => None
             | _ => Some (string_of_list_ascii chars)
             end |}.

(** ['#'?] and ['!'?] *)
Definition parse_flag (flag : ascii) (s : list ascii) : bool * list ascii :=
  match s with
  | c :: rest => if Ascii.eqb c flag then (true, rest) else (false, s)
  | [] => (false, s)
  end.

(** [RefSpec := '/' | '.' | '<' '#'? '!'? QName '>'] : the reference type,
    [isInverse], [includeSubtypes], and what follows. *)
Definition parse_RefSpec (s : list ascii)
    : option (ReferenceType * bool * bool * list ascii) :=
  match s with
  | [] => None
  | c :: rest =>
      if Ascii.eqb c "/" then Some (HierarchicalReferences, false, true, rest)
      else if Ascii.eqb c "." then Some (Aggregates, false, true, rest)
      else if Ascii.eqb c "<" then
        let '(sharp, rest) := parse_flag "#" rest in
        let '(bang, rest) := parse_flag "!" rest in
        let '(ns, chars, rest) := parse_QName rest in
        match rest with
        | c' :: rest' =>
            if Ascii.eqb c' ">" then
              Some (NamedReferenceType (make_QualifiedName ns chars),
                    bang, negb sharp, rest')
            else None
        | [] => None
        end
      else None
  end.

(** [Element := RefSpec TargetName?] *)
Definition parse_Element (s : list ascii)
    : option (RelativePathElement * list ascii) :=
  match parse_RefSpec s with
  | None => None
  | Some (referenceType, inverse, subtypes, rest) =>
      let '(ns, chars, rest') := parse_QName rest in
      Some ({| referenceTypeId := referenceType;
               isInverse := inverse;
               includeSubtypes := subtypes;
               targetName := make_QualifiedName ns chars |}, rest')
  end.

(** [Path := Element+], with one unit of fuel per element. *)
Fixpoint parse_Path (fuel : nat) (s : list ascii) : option (list RelativePathElement) :=
  match s, fuel with
  | [], _ => Some []
  | _, O => None
  | _, S fuel' =>
      match parse_Element s with
      | None => None
      | Some (element, rest) => cons element <$> parse_Path fuel' rest
      end
  end.

(** Modelled from the spec: [makeRelativePath], the parser of the
    RelativePath grammar of section 4.4; [None] for a string that is not in
    the grammar. Every element takes at least one character, so the length
    of the string is fuel enough (make_relative_path.ts is missing; its
    test-suite is part of the sources). *)
Definition makeRelativePath (str : string) : option (list RelativePathElement) :=
  let s := list_ascii_of_string str in
  match parse_Path (length s) s with
  | Some (element :: elements) => Some (element :: elements)
  | _ => None
  end.

End RelativePath.

(** ** Predicates used in the statements *)

(** The subscription id is known to the server: a session of [_sessions]
    or the orphanage holds it. *)
Definition known_to_server (subscriptionId : Z) (σ : State) : Prop :=
  (exists r session, (r, session) ∈ session_values σ
     /\ is_Some (getSubscriptionById (ServerSession.publishEngine session) subscriptionId))
  \/ (exists orphan, _orphanPublishEngine σ = Some orphan
        /\ is_Some (getSubscriptionById orphan subscriptionId)).

(** ** A sample server

    Two active sessions of the same user. The first one owns the
    subscriptions 7 (no monitored item, two notifications awaiting their
    acknowledgement) and 8 (two monitored items). *)

Module Sample.

(** A printing of node ids that does not tell their types apart. *)
Definition toString (n : NodeId.t) : string := NodeId.value n.

Definition NodeIdType_value (t : NodeIdType) : Z :=
  match t with
  | NUMERIC => 1
  | STRING => 2
  | GUID => 3
  | BYTESTRING => 4
  end.

(** The same user identity token on both sides, or no source session. *)
Definition sessionsCompatibleForTransfer (source : option ServerSession.t)
    (target : ServerSession.t) : bool :=
  match source with
  | None => true
  | Some s =>
      bool_decide (ServerSession.userIdentityToken s
                   = ServerSession.userIdentityToken target)
  end.

Definition modify (o : ModifyOptions) (s : Subscription.t) : Subscription.t :=
  Subscription.mk (Subscription.id s)
    (default (Subscription.lifeTimeCount s) (Number.to_Z (requestedLifetimeCount o)))
    (requestedMaxKeepAliveCount o) (modify_maxNotificationsPerPublish o)
    (modify_priority o) (Subscription.publishingEnabled s)
    (requestedPublishingInterval o) (Subscription.publishEngine s)
    (Subscription.session s) (Subscription.monitoredItemCount s)
    (Subscription.sentNotificationMessages s) (Subscription.subscriptionDiagnostics s).

Definition getMonitoredItems (s : Subscription.t) : GetMonitoredItemsResult :=
  {| monitored_statusCode := Good; serverHandles := []; clientHandles := [] |}.

Definition resendInitialValues (s : Subscription.t) : option Subscription.t := Some s.

Definition subscription7 : Subscription.t :=
  Subscription.mk 7 60 10 0 0 true 100 (SessionPublishEngine 0) (Some 0%nat) 0
    [{| sequenceNumber := 1 |}; {| sequenceNumber := 2 |}] (Diag.mk 0 0 0).

Definition subscription8 : Subscription.t :=
  Subscription.mk 8 60 10 0 0 true 100 (SessionPublishEngine 0) (Some 0%nat) 2
    [] (Diag.mk 0 0 0).

Definition tokenA : NodeId.t := NodeId.mk BYTESTRING "tokenA" 0.
Definition tokenB : NodeId.t := NodeId.mk BYTESTRING "tokenB" 0.

Definition sessionA : ServerSession.t :=
  ServerSession.mk tokenA "active" 1000 30000 (Some "alice")
    (PublishEngine.mk (<[7 := subscription7]> (<[8 := subscription8]> ∅))).

Definition sessionB : ServerSession.t :=
  ServerSession.mk tokenB "active" 2000 30000 (Some "alice") PublishEngine.empty.

Definition server : State :=
  {| next_subscriptionId := 9;
     heap := [sessionA; sessionB];
     serverDiagnosticsSummary := Summary.mk 2 2 2 0;
     serverCapabilities := {| maxSessions := 2 |};
     clientDescription := None;
     _sessions := [("tokenA", 0%nat); ("tokenB", 1%nat)];
     _closedSessions := [];
     _orphanPublishEngine := None |}.

(** The same server once both sessions are closed but still registered. *)
Definition server_of_closed_sessions : State :=
  set_heap [ServerSession.set_status "closed" sessionA;
            ServerSession.set_status "closed" sessionB] server.

Definition request : CreateSubscriptionRequestLike :=
  {| requestedPublishingInterval_ := 100;
     requestedLifetimeCount_ := 60;
     requestedMaxKeepAliveCount_ := 10;
     maxNotificationsPerPublish_ := 0;
     publishingEnabled_ := true;
     priority_ := 0 |}.

(** The arguments of a call of SetSubscriptionDurable on the subscription 7,
    for the highest lifetime, and of GetMonitoredItems on it. *)
Definition durable_arguments : list Variant := [ {| value := 7 |}; {| value := 0 |} ].
Definition monitored_arguments : list Variant := [ {| value := 7 |} ].

(** Three creations, on the first session, the second, and the first again. *)
Definition requests : list (SessionRef * CreateSubscriptionRequestLike) :=
  [(0%nat, request); (1%nat, request); (0%nat, request)].

(** A third session is created, without options, and with a requested
    timeout of 5 ms. *)
Definition created : SessionRef * State :=
  createSession toString None "tokenC" 3000 server.

Definition created_with_timeout_5 : SessionRef * State :=
  createSession toString
    (Some {| option_clientDescription := None; option_sessionTimeout := Some 5 |})
    "tokenC" 3000 server.

End Sample.

(** ** More of the engine *)

(** The counters of [serverDiagnosticsSummary] that count what the server
    refuses or aborts. *)
Module Rejections.
Record t := mk {
  rejectedSessionCount : Z;
  rejectedRequestsCount : Z;
  securityRejectedRequestsCount : Z;
  securityRejectedSessionCount : Z;
  sessionAbortCount : Z
}.
End Rejections.

(** [incrementSessionAbortCount]. In this method and the next ones
    [serverDiagnosticsEnabled] is the flag of the engine at the time of the
    call; [this.serverDiagnosticsSummary] is always there. *)
Definition incrementSessionAbortCount (serverDiagnosticsEnabled : bool)
    (c : Rejections.t) : Rejections.t :=
  if serverDiagnosticsEnabled then
    Rejections.mk (Rejections.rejectedSessionCount c)
      (Rejections.rejectedRequestsCount c)
      (Rejections.securityRejectedRequestsCount c)
      (Rejections.securityRejectedSessionCount c)
      (Rejections.sessionAbortCount c + 1)
  else c.

(** [incrementRejectedRequestsCount] *)
Definition incrementRejectedRequestsCount (serverDiagnosticsEnabled : bool)
    (c : Rejections.t) : Rejections.t :=
  if serverDiagnosticsEnabled then
    Rejections.mk (Rejections.rejectedSessionCount c)
      (Rejections.rejectedRequestsCount c + 1)
      (Rejections.securityRejectedRequestsCount c)
      (Rejections.securityRejectedSessionCount c)
      (Rejections.sessionAbortCount c)
  else c.

(** [incrementRejectedSessionCount] *)
Definition incrementRejectedSessionCount (serverDiagnosticsEnabled : bool)
    (c : Rejections.t) : Rejections.t :=
  let c :=
    if serverDiagnosticsEnabled then
      Rejections.mk (Rejections.rejectedSessionCount c + 1)
        (Rejections.rejectedRequestsCount c)
        (Rejections.securityRejectedRequestsCount c)
        (Rejections.securityRejectedSessionCount c)
        (Rejections.sessionAbortCount c)
    else c in
  incrementRejectedRequestsCount serverDiagnosticsEnabled c.

(** [incrementSecurityRejectedRequestsCount] *)
Definition incrementSecurityRejectedRequestsCount (serverDiagnosticsEnabled : bool)
    (c : Rejections.t) : Rejections.t :=
  let c :=
    if serverDiagnosticsEnabled then
      Rejections.mk (Rejections.rejectedSessionCount c)
        (Rejections.rejectedRequestsCount c)
        (Rejections.securityRejectedRequestsCount c + 1)
        (Rejections.securityRejectedSessionCount c)
        (Rejections.sessionAbortCount c)
    else c in
  incrementRejectedRequestsCount serverDiagnosticsEnabled c.

(** [incrementSecurityRejectedSessionCount] *)
Definition incrementSecurityRejectedSessionCount (serverDiagnosticsEnabled : bool)
    (c : Rejections.t) : Rejections.t :=
  let c :=
    if serverDiagnosticsEnabled then
      Rejections.mk (Rejections.rejectedSessionCount c)
        (Rejections.rejectedRequestsCount c)
        (Rejections.securityRejectedRequestsCount c)
        (Rejections.securityRejectedSessionCount c + 1)
        (Rejections.sessionAbortCount c)
    else c in
  incrementSecurityRejectedRequestsCount serverDiagnosticsEnabled c.

(** The five methods above, by name, and a history of calls: each call
    comes with the value of [serverDiagnosticsEnabled] at its time. *)
Inductive RejectionEvent :=
| SessionAborted
| RequestRejected
| SessionRejected
| RequestSecurityRejected
| SessionSecurityRejected.

Definition count_rejection (call : bool * RejectionEvent) (c : Rejections.t)
    : Rejections.t :=
  match call.2 with
  | SessionAborted => incrementSessionAbortCount call.1 c
  | RequestRejected => incrementRejectedRequestsCount call.1 c
  | SessionRejected => incrementRejectedSessionCount call.1 c
  | RequestSecurityRejected => incrementSecurityRejectedRequestsCount call.1 c
  | SessionSecurityRejected => incrementSecurityRejectedSessionCount call.1 c
  end.

Definition count_rejections (calls : list (bool * RejectionEvent)) (c : Rejections.t)
    : Rejections.t :=
  fold_left (fun c call => count_rejection call c) calls c.

(** What the counters say together: a session refused for security is a
    request refused for security, and a request refused for security or a
    session refused is a request refused. *)
Definition rejections_consistent (c : Rejections.t) : Prop :=
  Rejections.securityRejectedSessionCount c <= Rejections.securityRejectedRequestsCount c
  /\ Rejections.rejectedSessionCount c + Rejections.securityRejectedRequestsCount c
     <= Rejections.rejectedRequestsCount c.


(** [incrementSessionTimeoutCount] *)
Definition incrementSessionTimeoutCount (serverDiagnosticsEnabled : bool) (σ : State)
    : State :=
  if serverDiagnosticsEnabled then
    let summary := serverDiagnosticsSummary σ in
    set_serverDiagnosticsSummary
      (Summary.mk (Summary.cumulatedSessionCount summary)
                  (Summary.currentSessionCount summary)
                  (Summary.cumulatedSubscriptionCount summary)
                  (Summary.sessionTimeoutCount summary + 1)) σ
  else σ.

(** Modelled from the spec: [ServerSession.currentSubscriptionCount], the
    number of subscriptions of the session's publish engine
    (server_session.ts is missing). *)
Definition ServerSession_currentSubscriptionCount (s : ServerSession.t) : Z :=
  Z.of_nat (size (PublishEngine.subscriptions (ServerSession.publishEngine s))).

(** The getter [currentSubscriptionCount] that the constructor of the
    engine defines on [serverDiagnosticsSummary]: the subscriptions of all
    the sessions, and the orphans. *)
Definition currentSubscriptionCount (σ : State) : Z :=
  fold_left (fun counter p => counter + ServerSession_currentSubscriptionCount p.2)
            (session_values σ) 0
  + match _orphanPublishEngine σ with
    | Some orphan => Z.of_nat (size (PublishEngine.subscriptions orphan))
    | None => 0
    end.

Section MoreEngine.

Variable NodeId_toString : NodeId.t -> string.
Variable NodeIdType_value : NodeIdType -> Z.

(** The handler of the event [timeout] that [createSession] attaches to the
    session [r]: the session is closed, its subscriptions are kept. [None]
    is the exception of [closeSession]. *)
Definition on_session_timeout (serverDiagnosticsEnabled : bool) (r : SessionRef)
    (σ : State) : option State :=
  match heap σ !! r with
  | None => None
  | Some session =>
      let summary := serverDiagnosticsSummary σ in
      let σ :=
        set_serverDiagnosticsSummary
          (Summary.mk (Summary.cumulatedSessionCount summary)
                      (Summary.currentSessionCount summary)
                      (Summary.cumulatedSubscriptionCount summary)
                      (Summary.sessionTimeoutCount summary + 1)) σ in
      match closeSession NodeId_toString NodeIdType_value
              (ServerSession.authenticationToken session) false Timeout σ with
      | None => None
      | Some σ => Some (incrementSessionTimeoutCount serverDiagnosticsEnabled σ)
      end
  end.

(** The loop of [shutdown] over the tokens of the sessions:
    [closeSession(token, true, "Terminated")] for each. *)
Fixpoint close_sessions (tokens : list NodeId.t) (σ : State) : option State :=
  match tokens with
  | [] => Some σ
  | token :: tokens' =>
      match closeSession NodeId_toString NodeIdType_value token true Terminated σ with
      | None => None
      | Some σ' => close_sessions tokens' σ'
      end
  end.

(** The tokens that [shutdown] collects before it closes the sessions:
    [Object.keys(this._sessions).map(key => this._sessions[key].authenticationToken)]. *)
Definition session_tokens (σ : State) : list NodeId.t :=
  map (fun p => ServerSession.authenticationToken p.2) (session_values σ).

(** The session table as [createSession] builds it: every entry is a
    session of the store, registered under the printing of its own token,
    an opaque one, and no key occurs twice. *)
Definition sessions_registered (σ : State) : Prop :=
  NoDup (map fst (_sessions σ))
  /\ forall key r, (key, r) ∈ _sessions σ ->
       exists session,
         heap σ !! r = Some session
         /\ NodeId_toString (ServerSession.authenticationToken session) = key
         /\ NodeId.identifierType (ServerSession.authenticationToken session)
            = BYTESTRING.

End MoreEngine.

(** ** Data type dictionaries

    The loading of the data type dictionaries of a server by a client
    (populate_data_type_manager_103.ts): which dictionaries are read the old
    way, and in which order the dictionaries are processed. *)

Module TypeDictionary.

(** [TypeDictionaryInfo], without the reference description it was built
    from. [dependencies]: key is xmlShortName, value is namespaceUri. *)
Record TypeDictionaryInfo := {
  dataTypeDictionaryNodeId : NodeId.t;
  isDictionaryDeprecated : bool;
  rawSchema : string;
  dependencies : list (string * string);
  targetNamespace : string
}.

(** [_isOldDataTypeDictionary] *)
Definition _isOldDataTypeDictionary (d : TypeDictionaryInfo) : bool :=
  negb (isDictionaryDeprecated d)
  && (Z.of_nat (String.length (rawSchema d)) >=? 0).

(** The two quotes: the single one and the double one (character 34). *)
Definition is_quote (c : ascii) : bool :=
  Ascii.eqb c "'" || Ascii.eqb c "034".

(** Does [s] start with a quote, single or double ([s.startsWith])? *)
Definition starts_with_quote (s : string) : bool :=
  match s with
  | String c _ => is_quote c
  | EmptyString => false
  end.

(** Does [s] end with a quote, single or double ([s.endsWith])? *)
Fixpoint ends_with_quote (s : string) : bool :=
  match s with
  | EmptyString => false
  | String c EmptyString => is_quote c
  | String _ s' => ends_with_quote s'
  end.

(** [s.substring(0, s.length - 1)] *)
Fixpoint without_last (s : string) : string :=
  match s with
  | EmptyString => EmptyString
  | String _ EmptyString => EmptyString
  | String c s' => String c (without_last s')
  end.

(** [unquote]: remove the starting and the ending quote, single or double,
    if any; [s.substring(1)] is [s] without its first character. *)
Definition unquote (s : string) : string :=
  let s :=
    if starts_with_quote s
    then match s with String _ s' => s' | EmptyString => EmptyString end
    else s in
  if ends_with_quote s then without_last s else s.

(** [allDependenciesAlreadyProcessed] *)
Definition allDependenciesAlreadyProcessed (alreadyProcessed : gset string)
    (typeDictionaryInfo : TypeDictionaryInfo) : bool :=
  forallb
    (fun entry : string * string =>
       (* codesys may add quotes around the namespace *)
       let namespace := unquote entry.2 in
       String.eqb (targetNamespace typeDictionaryInfo) namespace
       || bool_decide (namespace ∈ alreadyProcessed))
    (dependencies typeDictionaryInfo).

(** [extractIndependantTypeInfo]: the dictionaries of the queue that can be
    processed, and the queue that is left, both in the order of the queue. *)
Fixpoint extractIndependantTypeInfo (alreadyProcessed : gset string)
    (toProcess : list TypeDictionaryInfo)
    : list TypeDictionaryInfo * list TypeDictionaryInfo :=
  match toProcess with
  | [] => ([], [])
  | typeDictionaryInfo :: toProcess' =>
      let '(result, queue) := extractIndependantTypeInfo alreadyProcessed toProcess' in
      if allDependenciesAlreadyProcessed alreadyProcessed typeDictionaryInfo
      then (typeDictionaryInfo :: result, queue)
      else (result, typeDictionaryInfo :: queue)
  end.

(** What [processFunc] leaves in [alreadyProcessed] for a batch. *)
Definition mark_processed (alreadyProcessed : gset string)
    (batch : list TypeDictionaryInfo) : gset string :=
  fold_left (fun processed info => {[ unquote (targetNamespace info) ]} ∪ processed)
            batch alreadyProcessed.

(** The namespaces that are processed from the start. *)
Definition standard_namespaces : gset string :=
  {[ "http://opcfoundation.org/UA/";
     "http://www.w3.org/2001/XMLSchema-instance";
     "http://opcfoundation.org/BinarySchema/" ]}.

(** The loop [while (queue.length > 0)] of [populateDataTypeManager103]:
    the batches that are processed, one per turn, the queue that is left
    when the loop ends, and the namespaces processed by then. A turn with
    nothing to process ends the loop (the source says: we are stuck). *)
Fixpoint process_queue (fuel : nat) (alreadyProcessed : gset string)
    (queue : list TypeDictionaryInfo)
    : list (list TypeDictionaryInfo) * list TypeDictionaryInfo * gset string :=
  match fuel, queue with
  | _, [] => ([], [], alreadyProcessed)
  | O, _ => ([], queue, alreadyProcessed)
  | S fuel', _ =>
      let '(readyToProcess, queue') :=
        extractIndependantTypeInfo alreadyProcessed queue in
      match readyToProcess with
      | [] => ([], queue', alreadyProcessed)
      | _ =>
          let '(batches, rest, processed) :=
            process_queue fuel' (mark_processed alreadyProcessed readyToProcess)
              queue' in
          (readyToProcess :: batches, rest, processed)
      end
  end.

(** The order in which the loop of [populateDataTypeManager103] processes
    its queue; [dictionaries] is the ordered list that [putInCorrectOrder]
    returned. Every turn but the last takes a dictionary off the queue, so
    the length of the queue is fuel enough. *)
Definition processing_order (dictionaries : list TypeDictionaryInfo)
    : list (list TypeDictionaryInfo) * list TypeDictionaryInfo * gset string :=
  process_queue (length dictionaries) standard_namespaces dictionaries.

End TypeDictionary.

(** ** Sorting the structure definitions of a data type dictionary *)

Module StructureSort.

Record StructureField := {
  name : string;
  dataType : NodeId.t
}.

(** [fields] may be null. *)
Record StructureDefinition := {
  baseDataType : NodeId.t;
  fields : option (list StructureField)
}.

Record IDataTypeDefInfo := {
  className : string;
  dataTypeNodeId : NodeId.t;
  dataTypeDefinition : StructureDefinition;
  isAbstract : bool
}.

(** The two variables that [_visit] updates. *)
Record VisitState := {
  _visited : gmap string IDataTypeDefInfo;
  dataTypeDefinitionsSorted : list IDataTypeDefInfo
}.

Section Sorting.

(** [NodeId.toString] is declared outside of these sources. It is taken
    never to print a node id as the name of a property that every
    JavaScript object inherits, so that the objects [_map] and [_visited]
    are finite maps. *)
Variable NodeId_toString : NodeId.t -> string.

(** [d.dataTypeNodeId.toString()] *)
Definition hash_of (d : IDataTypeDefInfo) : string :=
  NodeId_toString (dataTypeNodeId d).

(** The first loop of [sortStructure]: [_map[d.dataTypeNodeId.toString()] = d]. *)
Definition make_map (dataTypeDefinitions : list IDataTypeDefInfo)
    : gmap string IDataTypeDefInfo :=
  fold_left (fun _map d => <[hash_of d := d]> _map) dataTypeDefinitions ∅.

(** [const ddd = _map[nodeId.toString()]; if (ddd) _visit(ddd)] *)
Definition visit_known
    (visit : IDataTypeDefInfo -> VisitState -> option VisitState)
    (_map : gmap string IDataTypeDefInfo) (nodeId : NodeId.t)
    (st : VisitState) : option VisitState :=
  match _map !! NodeId_toString nodeId with
  | Some ddd => visit ddd st
  | None => Some st
  end.

(** [for (const f of d.dataTypeDefinition.fields || [])] *)
Fixpoint visit_fields
    (visit : IDataTypeDefInfo -> VisitState -> option VisitState)
    (_map : gmap string IDataTypeDefInfo) (fs : list StructureField)
    (st : VisitState) : option VisitState :=
  match fs with
  | [] => Some st
  | f :: fs' =>
      match visit_known visit _map (dataType f) st with
      | Some st' => visit_fields visit _map fs' st'
      | None => None
      end
  end.

(** [_visit]. The recursion of the source is bounded here by [fuel], the
    depth that is left; [None] says that the depth was not enough. *)
Fixpoint _visit (fuel : nat) (_map : gmap string IDataTypeDefInfo)
    (d : IDataTypeDefInfo) (st : VisitState) : option VisitState :=
  match fuel with
  | O => None
  | S fuel' =>
      let hash := hash_of d in
      match _visited st !! hash with
      | Some _ => Some st
      | None =>
          let st :=
            {| _visited := <[hash := d]> (_visited st);
               dataTypeDefinitionsSorted := dataTypeDefinitionsSorted st |} in
          match visit_known (_visit fuel' _map) _map
                  (baseDataType (dataTypeDefinition d)) st with
          | None => None
          | Some st =>
              match visit_fields (_visit fuel' _map) _map
                      (default [] (fields (dataTypeDefinition d))) st with
              | None => None
              | Some st =>
                  Some {| _visited := _visited st;
                          dataTypeDefinitionsSorted :=
                            dataTypeDefinitionsSorted st ++ [d] |}
              end
          end
      end
  end.

(** The second loop of [sortStructure]:
    [for (const d of dataTypeDefinitions) _visit(d)]. *)
Fixpoint visit_each (fuel : nat) (_map : gmap string IDataTypeDefInfo)
    (ds : list IDataTypeDefInfo) (st : VisitState) : option VisitState :=
  match ds with
  | [] => Some st
  | d :: ds' =>
      match _visit fuel _map d st with
      | Some st' => visit_each fuel _map ds' st'
      | None => None
      end
  end.

(** [sortStructure]. A visit that goes on marks a definition of [_map]
    that was not marked, so no visit is deeper than the number of
    definitions. *)
Definition sortStructure (dataTypeDefinitions : list IDataTypeDefInfo)
    : option (list IDataTypeDefInfo) :=
  let _map := make_map dataTypeDefinitions in
  dataTypeDefinitionsSorted <$>
    visit_each (S (length dataTypeDefinitions)) _map dataTypeDefinitions
      {| _visited := ∅; dataTypeDefinitionsSorted := [] |}.

(** What a definition is built on: its base data type and the data types
    of its fields, as [_visit] looks them up in [_map]. *)
Definition built_on (d : IDataTypeDefInfo) : list string :=
  NodeId_toString (baseDataType (dataTypeDefinition d))
  :: map (fun f => NodeId_toString (dataType f))
         (default [] (fields (dataTypeDefinition d))).

(** No definition is built, directly or not, on itself: [rank] goes
    down from each definition to the definitions to sort it is built on. *)
Definition ranked (rank : string -> nat)
    (dataTypeDefinitions : list IDataTypeDefInfo) : bool :=
  forallb
    (fun d =>
       forallb
         (fun k =>
            match make_map dataTypeDefinitions !! k with
            | Some _ => (rank k <? rank (hash_of d))%nat
            | None => true
            end)
         (built_on d))
    dataTypeDefinitions.

(** *** What the visits keep, and what they change *)

Section Visits.

Variable dataTypeDefinitions : list IDataTypeDefInfo.

(** What holds between two visits. *)
Definition consistent (st : VisitState) : Prop :=
  (forall k, k ∈ hash_of <$> dataTypeDefinitionsSorted st ->
     k ∈ dom (_visited st))
  /\ dom (_visited st) ⊆ dom (make_map dataTypeDefinitions)
  /\ NoDup (hash_of <$> dataTypeDefinitionsSorted st)
  /\ Forall (fun d => d ∈ dataTypeDefinitions) (dataTypeDefinitionsSorted st).

(** Visited, and not sorted yet: the visit is going on. *)
Definition active (st : VisitState) (k : string) : Prop :=
  k ∈ dom (_visited st) /\ k ∉ hash_of <$> dataTypeDefinitionsSorted st.

(** Every definition comes after the definitions to sort it is built on. *)
Definition ordered (l : list IDataTypeDefInfo) : Prop :=
  forall i d k,
    l !! i = Some d -> k ∈ built_on d ->
    k ∈ dom (make_map dataTypeDefinitions) ->
    k ∈ hash_of <$> take i l.

(** [ranked], as a proposition. *)
Definition acyclic (rank : string -> nat) : Prop :=
  forall d k,
    d ∈ dataTypeDefinitions -> k ∈ built_on d ->
    k ∈ dom (make_map dataTypeDefinitions) ->
    (rank k < rank (hash_of d))%nat.

(** What the visits of [targets] do to the state. *)
Definition visited_from (targets : list string) (st st' : VisitState) : Prop :=
  consistent st'
  /\ dom (_visited st) ⊆ dom (_visited st')
  /\ (forall k, active st' k <-> active st k)
  /\ (forall k, k ∈ targets -> k ∈ dom (make_map dataTypeDefinitions) ->
        k ∈ dom (_visited st'))
  /\ (forall rank, acyclic rank ->
        (forall a k, active st a -> k ∈ targets ->
           k ∈ dom (make_map dataTypeDefinitions) -> (rank k < rank a)%nat) ->
        ordered (dataTypeDefinitionsSorted st) ->
        ordered (dataTypeDefinitionsSorted st')).

(** A visit that has depth enough for whatever is not visited yet. *)
Definition visit_ok (visit : IDataTypeDefInfo -> VisitState -> option VisitState)
    (depth : nat) : Prop :=
  forall d st,
    consistent st -> d ∈ dataTypeDefinitions ->
    (size (dom (make_map dataTypeDefinitions) ∖ dom (_visited st)) < depth)%nat ->
    exists st', visit d st = Some st' /\ visited_from [hash_of d] st st'.

End Visits.

End Sorting.

End StructureSort.

(** ** More sample data *)

Module MoreSample.

(** The sample server once its first session is closed by the client, its
    subscriptions kept or deleted. *)
Definition server_after_close (deleteSubscriptions : bool) : State :=
  default Sample.server
    (closeSession Sample.toString Sample.NodeIdType_value Sample.tokenA
       deleteSubscriptions CloseSession Sample.server).

(** Three calls of the increment methods, the second one while the
    diagnostics are disabled. *)
Definition calls : list (bool * RejectionEvent) :=
  [(true, SessionSecurityRejected); (false, SessionRejected); (true, SessionAborted)].

Definition no_rejection : Rejections.t := Rejections.mk 0 0 0 0 0.

(** The sample server when [Math.random()] has drawn 0 for the seed of the
    counter, and a subscription created on its first session. *)
Definition server_seeded_with_0 : State :=
  set_next_subscriptionId (initial_next_subscriptionId 0) Sample.server.

Definition created_with_seed_0 : option (Subscription.t * State) :=
  _createSubscriptionOnSession 0%nat Sample.request server_seeded_with_0.


(** Three creations after [setNextSubscriptionId(2 ** 53)]. *)
Definition created_from_2_53 : option (list Subscription.t * State) :=
  create_subscriptions Sample.requests (setNextSubscriptionId (2 ^ 53) Sample.server).

(** A subscription that publishes every 76.8 ms. *)
Definition subscription_76_8 : Subscription.t :=
  Subscription.mk 7 60 10 0 0 true (768 # 10) (SessionPublishEngine 0) (Some 0%nat) 0
    [] (Diag.mk 0 0 0).

(** Two dictionaries, found in this order: the first one imports the
    namespace of the second one, written between quotes. A third one
    imports a namespace that no dictionary has. *)
Definition dictionaryB : TypeDictionary.TypeDictionaryInfo :=
  {| TypeDictionary.dataTypeDictionaryNodeId := NodeId.mk NUMERIC "6002" 2;
     TypeDictionary.isDictionaryDeprecated := false;
     TypeDictionary.rawSchema := EmptyString;
     TypeDictionary.dependencies :=
       [("opc", "http://opcfoundation.org/BinarySchema/"); ("a", "'urn:a'")];
     TypeDictionary.targetNamespace := "urn:b" |}.

Definition dictionaryA : TypeDictionary.TypeDictionaryInfo :=
  {| TypeDictionary.dataTypeDictionaryNodeId := NodeId.mk NUMERIC "6001" 1;
     TypeDictionary.isDictionaryDeprecated := false;
     TypeDictionary.rawSchema := EmptyString;
     TypeDictionary.dependencies :=
       [("ua", "http://opcfoundation.org/UA/"); ("tns", "urn:a")];
     TypeDictionary.targetNamespace := "urn:a" |}.

Definition dictionaryC : TypeDictionary.TypeDictionaryInfo :=
  {| TypeDictionary.dataTypeDictionaryNodeId := NodeId.mk NUMERIC "6003" 3;
     TypeDictionary.isDictionaryDeprecated := false;
     TypeDictionary.rawSchema := EmptyString;
     TypeDictionary.dependencies := [("m", "urn:missing")];
     TypeDictionary.targetNamespace := "urn:c" |}.

Definition dictionaries : list TypeDictionary.TypeDictionaryInfo :=
  [dictionaryB; dictionaryA; dictionaryC].

(** Two structures, found in this order: the first one has a field of the
    type of the second one, which is built on nothing to sort. *)
Definition nodeA : NodeId.t := NodeId.mk NUMERIC "A" 1.
Definition nodeB : NodeId.t := NodeId.mk NUMERIC "B" 1.
Definition structure : NodeId.t := NodeId.mk NUMERIC "22" 0.

Definition definitionB : StructureSort.IDataTypeDefInfo :=
  {| StructureSort.className := "B";
     StructureSort.dataTypeNodeId := nodeB;
     StructureSort.dataTypeDefinition :=
       {| StructureSort.baseDataType := structure;
          StructureSort.fields :=
            Some [ {| StructureSort.name := "a"; StructureSort.dataType := nodeA |} ] |};
     StructureSort.isAbstract := false |}.

Definition definitionA : StructureSort.IDataTypeDefInfo :=
  {| StructureSort.className := "A";
     StructureSort.dataTypeNodeId := nodeA;
     StructureSort.dataTypeDefinition :=
       {| StructureSort.baseDataType := structure; StructureSort.fields := None |};
     StructureSort.isAbstract := false |}.

Definition definitions : list StructureSort.IDataTypeDefInfo :=
  [definitionB; definitionA].

Definition rank (k : string) : nat := if String.eqb k "B" then 1%nat else 0%nat.

End MoreSample.

(** * Properties *)

(** ** The store *)

Lemma update_session_length r f σ :
  length (heap (update_session r f σ)) = length (heap σ).
Proof.
  unfold update_session. destruct (heap σ !! r); simpl; [|done].
  by rewrite length_insert.
Qed.

Lemma update_session_lookup r f σ s :
  heap σ !! r = Some s ->
  heap (update_session r f σ) !! r = Some (f s).
Proof.
  intros Hr. unfold update_session. rewrite Hr. simpl.
  apply list_lookup_insert_eq. by eapply lookup_lt_Some.
Qed.

Lemma update_session_lookup_ne r r' f σ :
  r <> r' ->
  heap (update_session r f σ) !! r' = heap σ !! r'.
Proof.
  intros Hne. unfold update_session. destruct (heap σ !! r); simpl; [|done].
  by apply list_lookup_insert_ne.
Qed.

Lemma update_session_frame r f σ :
  next_subscriptionId (update_session r f σ) = next_subscriptionId σ
  /\ serverDiagnosticsSummary (update_session r f σ) = serverDiagnosticsSummary σ
  /\ serverCapabilities (update_session r f σ) = serverCapabilities σ
  /\ _sessions (update_session r f σ) = _sessions σ
  /\ _closedSessions (update_session r f σ) = _closedSessions σ
  /\ _orphanPublishEngine (update_session r f σ) = _orphanPublishEngine σ.
Proof. unfold update_session. by destruct (heap σ !! r). Qed.

Lemma update_publish_engine_length e f σ :
  length (heap (update_publish_engine e f σ)) = length (heap σ).
Proof. destruct e; simpl; [apply update_session_length | done]. Qed.

Lemma update_publish_engine_next e f σ :
  next_subscriptionId (update_publish_engine e f σ) = next_subscriptionId σ.
Proof. destruct e; simpl; [apply update_session_frame | done]. Qed.

(** ** Publish engines in the store *)

Lemma publish_engine_at_update_eq e f σ pe :
  publish_engine_at e σ = Some pe ->
  publish_engine_at e (update_publish_engine e f σ) = Some (f pe).
Proof.
  destruct e as [r|]; simpl.
  - destruct (heap σ !! r) as [s|] eqn:Hs; [|done]. simpl. intros [= <-].
    by erewrite update_session_lookup.
  - by intros ->.
Qed.

Lemma publish_engine_at_update_ne e e' f σ :
  e <> e' ->
  publish_engine_at e' (update_publish_engine e f σ) = publish_engine_at e' σ.
Proof.
  intros Hne. destruct e as [r|], e' as [r'|]; simpl; try done.
  - rewrite update_session_lookup_ne; [done | congruence].
  - apply update_session_frame.
Qed.

Lemma update_publish_engine_heap_ne e f σ r :
  e <> SessionPublishEngine r ->
  heap (update_publish_engine e f σ) !! r = heap σ !! r.
Proof.
  intros Hne. destruct e as [r'|]; simpl; [|done].
  apply update_session_lookup_ne. congruence.
Qed.

Lemma update_publish_engine_is_Some e f σ r :
  is_Some (heap σ !! r) -> is_Some (heap (update_publish_engine e f σ) !! r).
Proof. by rewrite !lookup_lt_is_Some, update_publish_engine_length. Qed.

(** Once a subscription is moved to the publish engine of a session, the
    session holds it under its id. *)
Lemma PublishEngine_transferSubscription_held sub target sendInitialValues σ :
  is_Some (heap σ !! target) ->
  Subscription.publishEngine sub <> SessionPublishEngine target ->
  exists targetSession',
    heap (PublishEngine_transferSubscription sub (SessionPublishEngine target)
            sendInitialValues σ) !! target = Some targetSession'
    /\ ServerSession_getSubscription targetSession' (Subscription.id sub)
       = Some (Subscription.set_publishEngine (SessionPublishEngine target) sub).
Proof.
  intros [ts Hts] Hne. unfold PublishEngine_transferSubscription.
  assert (H1 : heap (update_publish_engine (Subscription.publishEngine sub)
                       (detach_subscription sub) σ) !! target = Some ts)
    by by rewrite update_publish_engine_heap_ne.
  eexists. split.
  - simpl. by erewrite update_session_lookup.
  - unfold ServerSession_getSubscription, getSubscriptionById, add_subscription.
    simpl. apply lookup_insert_eq.
Qed.

(** ** The counter of the subscription ids *)

Lemma binary64_succ_exact x :
  - 2 ^ 53 <= x < 2 ^ 53 -> binary64_succ x = x + 1.
Proof.
  change (2 ^ 53) with 9007199254740992. intros Hx.
  unfold binary64_succ, binary64_of_Z. change (2 ^ 53) with 9007199254740992.
  destruct (Z.ltb_spec (Z.abs (x + 1)) 9007199254740992) as [|Hge]; [done|].
  assert (x + 1 = 9007199254740992) as -> by lia. by vm_compute.
Qed.

Lemma binary64_succ_pos x : 0 < x -> 0 < binary64_succ x.
Proof.
  intros Hx. unfold binary64_succ, binary64_of_Z.
  rewrite (Z.abs_eq (x + 1)) by lia.
  destruct (Z.ltb_spec (x + 1) (2 ^ 53)) as [|Hge]; [lia|].
  rewrite Z.sgn_pos, Z.mul_1_l by lia.
  assert (Hlog : 53 <= Z.log2 (x + 1)).
  { rewrite <- (Z.log2_pow2 53) by lia. by apply Z.log2_le_mono. }
  destruct (Z.log2_spec (x + 1) ltac:(lia)) as [Hlow _].
  set (e := Z.log2 (x + 1) - 52) in *.
  assert (He : 0 < 2 ^ e) by (apply Z.pow_pos_nonneg; lia).
  assert (Hq : 1 <= (x + 1) / 2 ^ e).
  { apply Z.div_le_lower_bound; [done|]. rewrite Z.mul_1_r.
    etrans; [|exact Hlow]. apply Z.pow_le_mono_r; lia. }
  apply Z.mul_pos_pos; [|done].
  repeat match goal with |- context [if ?b then _ else _] => destruct b end; lia.
Qed.


(** Below 2 ^ 53 the counter goes up by one. *)
Lemma counter_values_exact n : forall x i a,
  0 <= x ->
  counter_values n x !! i = Some a ->
  x + Z.of_nat i <= 2 ^ 53 ->
  a = x + Z.of_nat i.
Proof.
  change (2 ^ 53) with 9007199254740992.
  induction n as [|n IH]; intros x i a Hx; simpl; [done|].
  destruct i as [|i]; simpl.
  - intros [= <-] _. lia.
  - intros Hi Hle.
    rewrite binary64_succ_exact in Hi
      by (change (2 ^ 53) with 9007199254740992; lia).
    rewrite (IH (x + 1) i a) by (done || lia). lia.
Qed.

(** The counter never leaves the positive numbers. *)
Lemma counter_values_pos n : forall x i a,
  0 < x -> counter_values n x !! i = Some a -> 0 < a.
Proof.
  induction n as [|n IH]; intros x i a Hx; simpl; [done|].
  destruct i as [|i]; simpl.
  - by intros [= <-].
  - apply IH. by apply binary64_succ_pos.
Qed.


(** ** Dictionaries *)

Lemma dict_get_set_eq {A} key (v : A) d : dict_get key (dict_set key v d) = Some v.
Proof.
  induction d as [|[k w] d IH]; simpl.
  - by rewrite String.eqb_refl.
  - destruct (String.eqb k key) eqn:E; simpl; by rewrite ?E.
Qed.

Lemma dict_get_set_ne {A} key key' (v : A) d :
  key <> key' -> dict_get key' (dict_set key v d) = dict_get key' d.
Proof.
  intros Hne. induction d as [|[k w] d IH]; simpl.
  - destruct (String.eqb key key') eqn:E; [|done].
    by apply String.eqb_eq in E.
  - destruct (String.eqb k key) eqn:E; simpl.
    + apply String.eqb_eq in E. subst k.
      destruct (String.eqb key key') eqn:E'; [|done].
      by apply String.eqb_eq in E'.
    + by rewrite IH.
Qed.

Lemma dict_get_delete_eq {A} key (d : list (string * A)) :
  dict_get key (dict_delete key d) = None.
Proof.
  induction d as [|[k w] d IH]; simpl; [done|].
  destruct (String.eqb k key) eqn:E; simpl; by rewrite ?E.
Qed.

Lemma dict_set_length {A} key (v : A) d :
  (length d <= length (dict_set key v d))%nat.
Proof.
  induction d as [|[k w] d IH]; simpl; [lia|].
  destruct (String.eqb k key); simpl; lia.
Qed.

(** ** Looking a subscription up *)

Lemma find_in_sessions_Some subscriptionId l :
  is_Some (find_in_sessions subscriptionId l) <->
  exists r session, (r, session) ∈ l
    /\ is_Some (getSubscriptionById (ServerSession.publishEngine session) subscriptionId).
Proof.
  induction l as [|[r s] l IH]; simpl.
  - split; [by intros [? ?] | intros (? & ? & H & _); by apply elem_of_nil in H].
  - destruct (getSubscriptionById (ServerSession.publishEngine s) subscriptionId) eqn:E.
    + split; [intros _ | by eauto].
      exists r, s. split; [by left | by rewrite E].
    + rewrite IH. split.
      * intros (r' & s' & Hin & Hs). exists r', s'. split; [by right | done].
      * intros (r' & s' & Hin & Hs). apply elem_of_cons in Hin as [Heq | Hin].
        -- inversion Heq; subst. rewrite E in Hs. by destruct Hs.
        -- by exists r', s'.
Qed.

Lemma findSubscription_known subscriptionId σ :
  is_Some (findSubscription subscriptionId σ) <-> known_to_server subscriptionId σ.
Proof.
  unfold findSubscription, known_to_server, findOrphanSubscription.
  rewrite <- find_in_sessions_Some.
  destruct (find_in_sessions subscriptionId (session_values σ)) eqn:E.
  - split; [intros _; left | ]; by eauto.
  - destruct (_orphanPublishEngine σ) as [orphan|].
    + destruct (getSubscriptionById orphan subscriptionId) eqn:E'; simpl.
      * split; [intros _; right; exists orphan; by rewrite E' | by eauto].
      * split; [by intros [? ?] |].
        intros [[? ?] | (o & Ho & Hs)]; [done|].
        inversion Ho; subst. rewrite E' in Hs. by destruct Hs.
    + split; [by intros [? ?] |].
      intros [[? ?] | (o & Ho & _)]; done.
Qed.

Section EngineProperties.

Variable NodeId_toString : NodeId.t -> string.
Variable NodeIdType_value : NodeIdType -> Z.
Variable sessionsCompatibleForTransfer :
  option ServerSession.t -> ServerSession.t -> bool.
Variable Subscription_modify : ModifyOptions -> Subscription.t -> Subscription.t.
Variable Subscription_getMonitoredItems : Subscription.t -> GetMonitoredItemsResult.
Variable Subscription_resendInitialValues : Subscription.t -> option Subscription.t.

(** ** SetSubscriptionDurable *)

Lemma revisedLifetimeInHours_range lifetimeInHours :
  1 <= revisedLifetimeInHours lifetimeInHours <= 2400.
Proof.
  unfold revisedLifetimeInHours, highestLifetimeInHours.
  destruct (lifetimeInHours =? 0); lia.
Qed.

Lemma _getSubscription_own inputArguments argument caller session subscription σ :
  inputArguments !! 0%nat = Some argument ->
  heap σ !! caller = Some session ->
  ServerSession_getSubscription session (value argument) = Some subscription ->
  _getSubscription inputArguments {| context_session := Some caller |} σ
  = Some (inr (caller, subscription)).
Proof.
  intros Harg Hcaller Hsub. unfold _getSubscription. simpl.
  by rewrite Hcaller, Harg, Hsub.
Qed.

(** C1. A call of SetSubscriptionDurable on a subscription that the calling
    session owns: when the subscription has a monitored item the status is
    BadInvalidState and nothing changes; otherwise the call is Good and the
    revised lifetime it returns is 2400 for a request of 0 and
    max(1, min(lifetimeInHours, 2400)) for any other request, a value
    between 1 and 2400 in both cases. *)
Theorem setSubscriptionDurable_revised_lifetime
    inputArguments subscriptionId lifetimeInHours caller session subscription σ :
  inputArguments !! 0%nat = Some {| value := subscriptionId |} ->
  inputArguments !! 1%nat = Some {| value := lifetimeInHours |} ->
  heap σ !! caller = Some session ->
  ServerSession_getSubscription session subscriptionId = Some subscription ->
  let outcome :=
    setSubscriptionDurable Subscription_modify inputArguments
      {| context_session := Some caller |} σ in
  (0 < Subscription.monitoredItemCount subscription ->
     outcome = Some ({| statusCode := BadInvalidState; outputArguments := [] |}, σ))
  /\ (Subscription.monitoredItemCount subscription <= 0 ->
        exists revised σ',
          outcome = Some ({| statusCode := Good;
                             outputArguments := [Scalar revised] |}, σ')
          /\ (lifetimeInHours = 0 -> revised = 2400)
          /\ (lifetimeInHours <> 0 -> revised = Z.max 1 (Z.min lifetimeInHours 2400))
          /\ 1 <= revised <= 2400).
Proof.
  intros H0 H1 Hcaller Hsub outcome. subst outcome.
  unfold setSubscriptionDurable.
  rewrite (_getSubscription_own _ _ _ _ _ _ H0 Hcaller Hsub), H1. simpl.
  split.
  - intros Hcount.
    destruct (Z.gtb_spec (Subscription.monitoredItemCount subscription) 0); [done | lia].
  - intros Hcount.
    destruct (Z.gtb_spec (Subscription.monitoredItemCount subscription) 0); [lia |].
    eexists _, _. split; [reflexivity |].
    split; [| split; [| apply revisedLifetimeInHours_range]].
    + intros ->. reflexivity.
    + intros Hne. unfold revisedLifetimeInHours, highestLifetimeInHours.
      destruct (Z.eqb_spec lifetimeInHours 0); [done | reflexivity].
Qed.

(** ** Subscriptions of other sessions and unknown subscriptions *)

Lemma server_method_status m inputArguments caller σ code :
  _getSubscription inputArguments {| context_session := Some caller |} σ
  = Some (inl code) ->
  call_method Subscription_modify Subscription_getMonitoredItems
    Subscription_resendInitialValues m inputArguments
    {| context_session := Some caller |} σ
  = Some ({| statusCode := code; outputArguments := [] |}, σ).
Proof.
  intros Hget.
  destruct m; simpl;
    unfold getMonitoredItemsId, setSubscriptionDurable, resendData;
    by rewrite Hget.
Qed.

(** C9. GetMonitoredItems, SetSubscriptionDurable and ResendData, called
    with the id of a subscription that is not one of the caller's: the
    status is BadUserAccessDenied when the id designates a subscription of
    another session of the server, and BadSubscriptionIdInvalid when no
    session and no orphan has it; the two statuses differ, and the first one
    is returned exactly when the server knows the id. *)
Theorem server_methods_foreign_and_unknown_subscription
    m inputArguments argument caller session σ :
  inputArguments !! 0%nat = Some argument ->
  heap σ !! caller = Some session ->
  ServerSession_getSubscription session (value argument) = None ->
  let outcome :=
    call_method Subscription_modify Subscription_getMonitoredItems
      Subscription_resendInitialValues m inputArguments
      {| context_session := Some caller |} σ in
  ((exists other session',
       other <> caller /\ (other, session') ∈ session_values σ
       /\ is_Some (getSubscriptionById (ServerSession.publishEngine session')
                     (value argument))) ->
     outcome = Some ({| statusCode := BadUserAccessDenied;
                        outputArguments := [] |}, σ))
  /\ (~ known_to_server (value argument) σ ->
        outcome = Some ({| statusCode := BadSubscriptionIdInvalid;
                           outputArguments := [] |}, σ))
  /\ (known_to_server (value argument) σ <->
        outcome = Some ({| statusCode := BadUserAccessDenied;
                           outputArguments := [] |}, σ))
  /\ BadUserAccessDenied <> BadSubscriptionIdInvalid.
Proof.
  intros Harg Hcaller Hown outcome.
  assert (Hknown : known_to_server (value argument) σ ->
            outcome = Some ({| statusCode := BadUserAccessDenied;
                               outputArguments := [] |}, σ)).
  { intros Hk. apply findSubscription_known in Hk as [found Hfound].
    subst outcome. eapply server_method_status.
    unfold _getSubscription. simpl. by rewrite Hcaller, Harg, Hown, Hfound. }
  assert (Hunknown : ~ known_to_server (value argument) σ ->
            outcome = Some ({| statusCode := BadSubscriptionIdInvalid;
                               outputArguments := [] |}, σ)).
  { intros Hk. rewrite <- findSubscription_known in Hk.
    subst outcome. eapply server_method_status.
    unfold _getSubscription. simpl. rewrite Hcaller, Harg, Hown.
    destruct (findSubscription (value argument) σ) eqn:E; [|done].
    exfalso. apply Hk. by eauto. }
  split; [| split; [done | split; [| done]]].
  - intros (other & session' & _ & Hin & Hsub). apply Hknown. left. eauto.
  - split; [done |].
    intros Hout. destruct (findSubscription (value argument) σ) eqn:E.
    + apply findSubscription_known. by rewrite E.
    + assert (Hk : ~ known_to_server (value argument) σ).
      { rewrite <- findSubscription_known, E. by intros [? ?]. }
      apply Hunknown in Hk. rewrite Hk in Hout. done.
Qed.

(** ** Looking a session up *)

(** C10. A token whose identifier type is not BYTESTRING designates no
    session, whatever its value, whatever [activeOnly] and whatever the
    sessions registered, as long as the members of the enumeration
    [NodeIdType] are non-zero numbers. *)
Theorem getSession_wrong_identifierType token activeOnly σ :
  (forall t, NodeIdType_value t <> 0) ->
  NodeId.identifierType token <> BYTESTRING ->
  getSession NodeId_toString NodeIdType_value (Some token) activeOnly σ = None.
Proof.
  intros Htruthy Htype. unfold getSession.
  destruct (Z.eqb_spec (NodeIdType_value (NodeId.identifierType token)) 0) as [E|_].
  - by apply Htruthy in E.
  - simpl. by rewrite bool_decide_eq_false_2.
Qed.

(** ** TransferSubscriptions *)

(** The answer and the state of a transfer that goes through: the sequence
    numbers are those of the subscription as the target holds it then. *)
Lemma transferSubscription_Good target subscriptionId sendInitialValues σ e sub
    targetSession :
  0 < subscriptionId ->
  findSubscription subscriptionId σ = Some (e, sub) ->
  heap σ !! target = Some targetSession ->
  sessionsCompatibleForTransfer
    (Subscription.session sub ≫= (fun r => heap σ !! r)) targetSession = true ->
  SessionPublishEngine target <> Subscription.publishEngine sub ->
  Some target <> Subscription.session sub ->
  let sub' :=
    Subscription.set_session (Some target)
      (bump_transferredCounts (bump_transferRequestCount sub)) in
  let moved := Subscription.set_publishEngine (SessionPublishEngine target) sub' in
  let σ' :=
    PublishEngine_transferSubscription sub' (SessionPublishEngine target)
      sendInitialValues
      (store_subscription e subscriptionId sub'
         (store_subscription e subscriptionId (bump_transferRequestCount sub) σ)) in
  exists targetSession',
    transferSubscription sessionsCompatibleForTransfer target subscriptionId
      sendInitialValues σ
    = Some ({| transfer_statusCode := Good;
               availableSequenceNumbers := getAvailableSequenceNumbers moved |}, σ')
    /\ heap σ' !! target = Some targetSession'
    /\ ServerSession_getSubscription targetSession' (Subscription.id sub)
       = Some moved.
Proof.
  intros Hpos Hfind Htarget Hcompat Hengine Hsession sub' moved σ'.
  destruct (PublishEngine_transferSubscription_held sub' target sendInitialValues
              (store_subscription e subscriptionId sub'
                 (store_subscription e subscriptionId
                    (bump_transferRequestCount sub) σ)))
    as (targetSession' & Ht & Hheld).
  { unfold store_subscription. do 2 apply update_publish_engine_is_Some.
    by rewrite Htarget. }
  { intros E. by apply Hengine. }
  fold σ' in Ht. change (Subscription.id sub') with (Subscription.id sub) in Hheld.
  fold moved in Hheld.
  exists targetSession'. split; [|done].
  unfold transferSubscription.
  destruct (Z.leb_spec subscriptionId 0) as [|_]; [lia|].
  rewrite Hfind, Htarget, Hcompat. cbn [negb].
  rewrite !bool_decide_eq_false_2 by done.
  cbv zeta. fold sub' σ'.
  unfold subscription_in. cbn [publish_engine_at]. rewrite Ht. cbn [fmap option_fmap option_map mbind option_bind].
  unfold ServerSession_getSubscription in Hheld.
  change (Subscription.id sub') with (Subscription.id sub).
  by rewrite Hheld.
Qed.

(** C2, as the engine has it. A transfer of an existing subscription to a
    target session. An id that is not positive is answered
    BadSubscriptionIdInvalid, although the subscription exists, and nothing
    changes. For a positive id the status is BadUserAccessDenied when the
    session of the subscription and the target do not share the same user
    identity; else BadNothingToDo when the subscription is already in the
    target session; else Good, and the availableSequenceNumbers are the
    sequence numbers of the retransmission queue of the subscription as
    the target session holds it once it is moved. *)
Theorem transferSubscription_status
    target subscriptionId sendInitialValues σ e subscription targetSession :
  findSubscription subscriptionId σ = Some (e, subscription) ->
  heap σ !! target = Some targetSession ->
  let compatible :=
    sessionsCompatibleForTransfer
      (Subscription.session subscription ≫= (fun r => heap σ !! r)) targetSession in
  let owned :=
    SessionPublishEngine target = Subscription.publishEngine subscription
    \/ Some target = Subscription.session subscription in
  exists result σ',
    transferSubscription sessionsCompatibleForTransfer target subscriptionId
      sendInitialValues σ = Some (result, σ')
    /\ (subscriptionId <= 0 ->
          transfer_statusCode result = BadSubscriptionIdInvalid /\ σ' = σ)
    /\ (0 < subscriptionId -> compatible = false ->
          transfer_statusCode result = BadUserAccessDenied)
    /\ (0 < subscriptionId -> compatible = true -> owned ->
          transfer_statusCode result = BadNothingToDo)
    /\ (0 < subscriptionId -> compatible = true -> ~ owned ->
          transfer_statusCode result = Good
          /\ exists targetSession' moved,
               heap σ' !! target = Some targetSession'
               /\ ServerSession_getSubscription targetSession'
                    (Subscription.id subscription) = Some moved
               /\ availableSequenceNumbers result
                  = getAvailableSequenceNumbers moved).
Proof.
  intros Hfind Htarget compatible owned.
  destruct (Z.leb_spec subscriptionId 0) as [Hle|Hpos].
  { unfold transferSubscription.
    destruct (Z.leb_spec subscriptionId 0) as [_|]; [|lia].
    eexists _, _. split; [reflexivity|]. split; [done|].
    repeat split; intros; lia. }
  destruct compatible eqn:Hcompat.
  - destruct (decide (SessionPublishEngine target
                      = Subscription.publishEngine subscription)) as [Hengine|Hengine];
      [| destruct (decide (Some target = Subscription.session subscription))
           as [Hsession|Hsession]].
    + unfold transferSubscription.
      destruct (Z.leb_spec subscriptionId 0) as [|_]; [lia|].
      rewrite Hfind, Htarget. fold compatible. rewrite Hcompat. simpl.
      rewrite bool_decide_eq_true_2 by done.
      eexists _, _. split; [reflexivity|]. split; [lia|].
      split; [done | split; [done |]]. intros _ _ Hno. destruct Hno. by left.
    + unfold transferSubscription.
      destruct (Z.leb_spec subscriptionId 0) as [|_]; [lia|].
      rewrite Hfind, Htarget. fold compatible. rewrite Hcompat. simpl.
      rewrite bool_decide_eq_false_2, bool_decide_eq_true_2 by done.
      eexists _, _. split; [reflexivity|]. split; [lia|].
      split; [done | split; [done |]]. intros _ _ Hno. destruct Hno. by right.
    + destruct (transferSubscription_Good target subscriptionId sendInitialValues σ
                  e subscription targetSession Hpos Hfind Htarget Hcompat
                  Hengine Hsession) as (targetSession' & Hout & Ht & Hheld).
      eexists _, _. split; [exact Hout|]. split; [lia|].
      split; [done|]. split; [by intros _ _ [? | ?] |].
      intros _ _ _. split; [done|]. by eexists _, _.
  - unfold transferSubscription.
    destruct (Z.leb_spec subscriptionId 0) as [|_]; [lia|].
    rewrite Hfind, Htarget. fold compatible. rewrite Hcompat. simpl.
    eexists _, _. split; [reflexivity|]. split; [lia|]. by repeat split.
Qed.

(** ** CreateSession *)

(** C3, as the engine has it. Every call of createSession adds one to
    cumulatedSessionCount and to currentSessionCount, stores the new session
    (status new) under its token and returns it; maxSessions is not looked
    at: the sessions that were registered under other tokens stay
    registered, no session object changes, and the call has no failure. *)
Theorem createSession_counts_and_registers options tokenBytes now σ :
  let r := (createSession NodeId_toString options tokenBytes now σ).1 in
  let σ' := (createSession NodeId_toString options tokenBytes now σ).2 in
  let key := NodeId_toString (NodeId.mk BYTESTRING tokenBytes 0) in
  Summary.cumulatedSessionCount (serverDiagnosticsSummary σ')
  = Summary.cumulatedSessionCount (serverDiagnosticsSummary σ) + 1
  /\ Summary.currentSessionCount (serverDiagnosticsSummary σ')
     = Summary.currentSessionCount (serverDiagnosticsSummary σ) + 1
  /\ (exists session, heap σ' !! r = Some session
        /\ ServerSession.status session = "new"
        /\ ServerSession.authenticationToken session = NodeId.mk BYTESTRING tokenBytes 0)
  /\ dict_get key (_sessions σ') = Some r
  /\ (forall k, k <> key -> dict_get k (_sessions σ') = dict_get k (_sessions σ))
  /\ (forall r0 s, heap σ !! r0 = Some s -> heap σ' !! r0 = Some s)
  /\ (length (_sessions σ) <= length (_sessions σ'))%nat
  /\ serverCapabilities σ' = serverCapabilities σ.
Proof.
  unfold createSession. simpl.
  split; [done | split; [done |]].
  split.
  { eexists. split.
    - rewrite lookup_app_r by lia. by rewrite Nat.sub_diag.
    - by split. }
  split; [apply dict_get_set_eq |].
  split; [intros k Hk; by apply dict_get_set_ne |].
  split; [intros r0 s Hs; by apply lookup_app_l_Some |].
  split; [apply dict_set_length | done].
Qed.

(** C5, as the engine has it. The timeout given to the new session is the
    requested sessionTimeout when one is requested and it is not 0, and
    1000 ms otherwise; createSession does not clamp it. *)
Theorem createSession_sessionTimeout options tokenBytes now σ :
  let r := (createSession NodeId_toString options tokenBytes now σ).1 in
  let σ' := (createSession NodeId_toString options tokenBytes now σ).2 in
  ServerSession.sessionTimeout <$> heap σ' !! r
  = Some (match options ≫= option_sessionTimeout with
          | Some requested => if requested =? 0 then 1000 else requested
          | None => 1000
          end).
Proof.
  unfold createSession. simpl.
  rewrite lookup_app_r by lia. by rewrite Nat.sub_diag.
Qed.

(** ** CloseSession *)

Lemma transferSubscriptionsToOrphan_moved src dest subscriptionId sub :
  getSubscriptionById src subscriptionId = Some sub ->
  getSubscriptionById (transferSubscriptionsToOrphan src dest).2 subscriptionId
  = Some (orphaned sub).
Proof.
  unfold getSubscriptionById. simpl. intros Hsub.
  apply lookup_union_Some_l. by rewrite lookup_fmap, Hsub.
Qed.

Lemma transferSubscriptionsToOrphan_kept src dest subscriptionId :
  getSubscriptionById src subscriptionId = None ->
  getSubscriptionById (transferSubscriptionsToOrphan src dest).2 subscriptionId
  = getSubscriptionById dest subscriptionId.
Proof.
  unfold getSubscriptionById. simpl. intros Hsub.
  apply lookup_union_r. by rewrite lookup_fmap, Hsub.
Qed.

Lemma closeSession_close_Some token deleteSubscriptions reason σ r session :
  getSession NodeId_toString NodeIdType_value (Some token) false σ = Some r ->
  heap σ !! r = Some session ->
  exists σ2 closed,
    closeSession_close NodeId_toString NodeIdType_value token deleteSubscriptions
      reason σ
    = Some (r, σ2)
    /\ heap σ2 !! r = Some closed
    /\ ServerSession.status closed = "closed"
    /\ serverDiagnosticsSummary σ2 = serverDiagnosticsSummary σ
    /\ _sessions σ2 = _sessions σ
    /\ _orphanPublishEngine σ2
       = if deleteSubscriptions then _orphanPublishEngine σ
         else Some (transferSubscriptionsToOrphan (ServerSession.publishEngine session)
                      (default PublishEngine.empty (_orphanPublishEngine σ))).2.
Proof.
  intros Hget Hr. unfold closeSession_close. rewrite Hget, Hr.
  destruct deleteSubscriptions; simpl.
  - eexists _, _. split; [reflexivity|].
    split; [by apply update_session_lookup |].
    split; [done|]. by repeat split; apply update_session_frame.
  - eexists _, _. split; [reflexivity|].
    split.
    { apply update_session_lookup. simpl. by apply update_session_lookup. }
    split; [done|].
    pose proof (update_session_frame r (ServerSession_close false reason)
      (set_orphanPublishEngine
         (Some (transferSubscriptionsToOrphan (ServerSession.publishEngine session)
                  (default PublishEngine.empty (_orphanPublishEngine σ))).2)
         (update_session r (ServerSession.set_publishEngine PublishEngine.empty) σ)))
      as (_ & Hs & _ & Hd & _ & Ho).
    pose proof (update_session_frame r
      (ServerSession.set_publishEngine PublishEngine.empty) σ)
      as (_ & Hs' & _ & Hd' & _ & _).
    simpl in *. by rewrite Hs, Hd, Ho, Hs', Hd'.
Qed.

(** C6, as the engine has it. A call of closeSession on an existing session
    takes one from currentSessionCount and unregisters the session. The
    status of the session is closed once it has been closed, where the
    source asserts it, and disposed when closeSession returns. With
    deleteSubscriptions = false every subscription of the session is in the
    orphanage afterwards and the orphans of before are still there; with
    deleteSubscriptions = true the orphanage is what it was. *)
Theorem closeSession_effects token deleteSubscriptions reason σ r session :
  getSession NodeId_toString NodeIdType_value (Some token) false σ = Some r ->
  heap σ !! r = Some session ->
  exists σ2 σ',
    closeSession_close NodeId_toString NodeIdType_value token deleteSubscriptions
      reason σ
    = Some (r, σ2)
    /\ ServerSession.status <$> heap σ2 !! r = Some "closed"
    /\ closeSession NodeId_toString NodeIdType_value token deleteSubscriptions
         reason σ = Some σ'
    /\ ServerSession.status <$> heap σ' !! r = Some "disposed"
    /\ Summary.currentSessionCount (serverDiagnosticsSummary σ')
       = Summary.currentSessionCount (serverDiagnosticsSummary σ) - 1
    /\ dict_get (NodeId_toString token) (_sessions σ') = None
    /\ (deleteSubscriptions = false ->
          exists orphanage,
            _orphanPublishEngine σ' = Some orphanage
            /\ (forall subscriptionId sub,
                  ServerSession_getSubscription session subscriptionId = Some sub ->
                  getSubscriptionById orphanage subscriptionId = Some (orphaned sub))
            /\ (forall subscriptionId,
                  ServerSession_getSubscription session subscriptionId = None ->
                  getSubscriptionById orphanage subscriptionId
                  = _orphanPublishEngine σ ≫= (fun o => getSubscriptionById o subscriptionId)))
    /\ (deleteSubscriptions = true ->
          _orphanPublishEngine σ' = _orphanPublishEngine σ).
Proof.
  intros Hget Hr.
  destruct (closeSession_close_Some token deleteSubscriptions reason σ r session
              Hget Hr)
    as (σ2 & closed & Hclose & Hclosed & Hstatus & Hsummary & Hsessions & Horphan).
  exists σ2. unfold closeSession. rewrite Hclose, Hclosed, Hstatus. simpl.
  eexists. split; [done|].
  split; [by rewrite <- Hstatus |].
  split; [reflexivity|].
  set (σ4 := set_sessions _ _).
  pose proof (update_session_frame r ServerSession_dispose σ4)
    as (_ & Hs & _ & Hd & _ & Ho).
  split.
  { erewrite update_session_lookup; [done|]. by subst σ4. }
  rewrite Hs, Hd, Ho. subst σ4. simpl.
  split; [by rewrite Hsummary|].
  split; [apply dict_get_delete_eq|].
  rewrite Horphan. split.
  - intros ->. eexists. split; [reflexivity|]. split.
    + intros subscriptionId sub Hsub.
      by apply transferSubscriptionsToOrphan_moved.
    + intros subscriptionId Hsub.
      rewrite transferSubscriptionsToOrphan_kept by done.
      by destruct (_orphanPublishEngine σ).
  - by intros ->.
Qed.

(** ** Subscription ids *)

Lemma _createSubscriptionOnSession_Some session request σ :
  (session < length (heap σ))%nat ->
  exists subscription σ',
    _createSubscriptionOnSession session request σ = Some (subscription, σ')
    /\ Subscription.id subscription = next_subscriptionId σ
    /\ next_subscriptionId σ' = binary64_succ (next_subscriptionId σ)
    /\ length (heap σ') = length (heap σ).
Proof.
  intros Hlt. unfold _createSubscriptionOnSession.
  destruct (lookup_lt_is_Some_2 _ _ Hlt) as [s Hs]. rewrite Hs. simpl.
  eexists _, _. split; [reflexivity|]. split; [done|].
  split.
  - by rewrite (proj1 (update_session_frame _ _ _)).
  - by rewrite update_session_length.
Qed.

(** The ids of a run of creations are the values that the counter takes. *)
Lemma create_subscriptions_ids requests : forall σ,
  Forall (fun p => (p.1 < length (heap σ))%nat) requests ->
  exists subscriptions σ',
    create_subscriptions requests σ = Some (subscriptions, σ')
    /\ map Subscription.id subscriptions
       = counter_values (length requests) (next_subscriptionId σ)
    /\ next_subscriptionId σ'
       = Nat.iter (length requests) binary64_succ (next_subscriptionId σ).
Proof.
  induction requests as [|[session request] requests IH]; intros σ Hall.
  - by exists [], σ.
  - apply Forall_cons in Hall as [Hsession Hall]. simpl in Hsession.
    destruct (_createSubscriptionOnSession_Some session request σ Hsession)
      as (subscription & σ1 & Hcreate & Hid & Hnext & Hlen).
    destruct (IH σ1) as (subscriptions & σ' & Hrun & Hids & Hnext').
    { by rewrite Hlen. }
    exists (subscription :: subscriptions), σ'.
    cbn [create_subscriptions]. rewrite Hcreate, Hrun.
    split; [done|]. split.
    + cbn [map length counter_values]. by rewrite Hid, Hids, Hnext.
    + rewrite Hnext', Hnext. cbn [length]. by rewrite Nat.iter_succ_r.
Qed.


(** What the doubles do to the counter and to its seed: at 2 ^ 53 the
    counter stays where it is, and above it goes from one double to the
    next; the sums are those of [Number.add]. The seed of a random number
    is the ceiling of a product of doubles: it can be one less than the
    ceiling of the exact product, and it is 0 for the random number 0. *)
Example binary64_succ_values :
  binary64_succ (2 ^ 53 - 1) = 2 ^ 53
  /\ binary64_succ (2 ^ 53) = 2 ^ 53
  /\ binary64_succ (2 ^ 53 + 2) = 2 ^ 53 + 4
  /\ Forall (fun x => Number.to_Z (Number.add (Number.of_Z x) (Number.of_Z 1))
                      = Some (binary64_succ x))
       [0; 9; 2 ^ 53 - 1; 2 ^ 53; 2 ^ 53 + 2; 2 ^ 53 + 4; 2 ^ 60; 2 ^ 62 + 2 ^ 10].
Proof. split; [|split; [|split]]; [by vm_compute ..|]. repeat constructor. Qed.

Example initial_next_subscriptionId_values :
  initial_next_subscriptionId 0 = 0
  /\ initial_next_subscriptionId (1 # 2) = 500000
  /\ initial_next_subscriptionId ((2 ^ 53 - 1) # (2 ^ 53)) = 1000000
  /\ initial_next_subscriptionId (59744752656697 # (2 ^ 53)) = 6633
  /\ Qceiling ((59744752656697 # (2 ^ 53)) * 1000000) = 6634.
Proof. by vm_compute. Qed.

(** ** The oldest inactive session *)

Lemma oldest_loop_greatest tmp : forall session,
  let found := oldest_loop session tmp in
  found ∈ session :: tmp
  /\ forall c, c ∈ session :: tmp ->
       ServerSession.creationDate c.2 <= ServerSession.creationDate found.2.
Proof.
  induction tmp as [|c tmp IH]; intros session; simpl.
  - split; [by left|]. intros c Hc. apply list_elem_of_singleton in Hc. by subst.
  - destruct (Z.ltb_spec (ServerSession.creationDate session.2)
                         (ServerSession.creationDate c.2)) as [Hlt|Hge].
    + destruct (IH c) as [Hin Hmax]. split; [by right|].
      intros c' Hc'. apply elem_of_cons in Hc' as [-> | Hc'].
      * etrans; [| apply Hmax; by left]. lia.
      * by apply Hmax.
    + destruct (IH session) as [Hin Hmax]. split.
      * apply elem_of_cons in Hin as [-> | Hin]; [by left | by do 2 right].
      * intros c' Hc'. apply elem_of_cons in Hc' as [-> | Hc']; [apply Hmax; by left|].
        apply elem_of_cons in Hc' as [-> | Hc'].
        -- etrans; [apply Hge | apply Hmax; by left].
        -- apply Hmax. by right.
Qed.

(** What the loop of getOldestInactiveSession computes: a candidate whose
    creation date is the greatest of all, and no session exactly when there
    is no candidate. *)
Lemma getOldestInactiveSession_greatest_creationDate σ :
  match getOldestInactiveSession σ with
  | None => inactive_candidates σ = []
  | Some r =>
      exists session, (r, session) ∈ inactive_candidates σ
        /\ forall c, c ∈ inactive_candidates σ ->
             ServerSession.creationDate c.2 <= ServerSession.creationDate session
  end.
Proof.
  unfold getOldestInactiveSession.
  destruct (inactive_candidates σ) as [|first tmp]; [done|].
  destruct (oldest_loop_greatest tmp first) as [Hin Hmax].
  exists (oldest_loop first tmp).2. split; [| done].
  by destruct (oldest_loop first tmp).
Qed.

End EngineProperties.

(** ** Relative paths: escaped reserved characters *)

(** C8. For every reserved character c, the relative path "/1:x&cy" parses,
    and the target name of its first element is the qualified name of
    namespace 1 whose name is "xcy": the escaped character is in the name,
    the escape is not. *)
Theorem makeRelativePath_escaped_reserved (c : ascii) :
  c ∈ RelativePath.reservedChars ->
  exists element elements,
    RelativePath.makeRelativePath ("/1:x&" ++ String c "y")
    = Some (element :: elements)
    /\ RelativePath.targetName element
       = {| RelativePath.namespaceIndex := 1;
            RelativePath.name := Some ("x" ++ String c "y")%string |}.
Proof.
  intros Hc. unfold RelativePath.reservedChars in Hc.
  repeat (apply elem_of_cons in Hc as [-> | Hc]);
    [eexists _, _; split; vm_compute; reflexivity .. |].
  by apply elem_of_nil in Hc.
Qed.

Lemma makeRelativePath_escaped_reserved_witness :
  "#"%char ∈ RelativePath.reservedChars
  /\ exists element elements,
       RelativePath.makeRelativePath "/1:x&#y" = Some (element :: elements)
       /\ RelativePath.targetName element
          = {| RelativePath.namespaceIndex := 1;
               RelativePath.name := Some "x#y"%string |}.
Proof.
  assert (H : "#"%char ∈ RelativePath.reservedChars).
  { unfold RelativePath.reservedChars. do 5 right. left. }
  split; [exact H | exact (makeRelativePath_escaped_reserved "#" H)].
Defined.

(** The examples MRP-09, MRP-12 and MRP-24 of the test-suite. *)
Example makeRelativePath_MRP_09 :
  RelativePath.makeRelativePath "/3:Truck.0:NodeVersion"
  = Some [ {| RelativePath.referenceTypeId := RelativePath.HierarchicalReferences;
              RelativePath.isInverse := false;
              RelativePath.includeSubtypes := true;
              RelativePath.targetName :=
                {| RelativePath.namespaceIndex := 3;
                   RelativePath.name := Some "Truck"%string |} |};
           {| RelativePath.referenceTypeId := RelativePath.Aggregates;
              RelativePath.isInverse := false;
              RelativePath.includeSubtypes := true;
              RelativePath.targetName :=
                {| RelativePath.namespaceIndex := 0;
                   RelativePath.name := Some "NodeVersion"%string |} |} ].
Proof. reflexivity. Qed.

Example makeRelativePath_MRP_12 :
  RelativePath.makeRelativePath "<1:ConnectedTo>1:Boiler/"
  = Some [ {| RelativePath.referenceTypeId :=
                RelativePath.NamedReferenceType
                  {| RelativePath.namespaceIndex := 1;
                     RelativePath.name := Some "ConnectedTo"%string |};
              RelativePath.isInverse := false;
              RelativePath.includeSubtypes := true;
              RelativePath.targetName :=
                {| RelativePath.namespaceIndex := 1;
                   RelativePath.name := Some "Boiler"%string |} |};
           {| RelativePath.referenceTypeId := RelativePath.HierarchicalReferences;
              RelativePath.isInverse := false;
              RelativePath.includeSubtypes := true;
              RelativePath.targetName :=
                {| RelativePath.namespaceIndex := 0;
                   RelativePath.name := None |} |} ].
Proof. reflexivity. Qed.

Example makeRelativePath_MRP_24 :
  map RelativePath.targetName
    <$> RelativePath.makeRelativePath "/1:Browse&:Name.2:Hello&:&/World"
  = Some [ {| RelativePath.namespaceIndex := 1;
              RelativePath.name := Some "Browse:Name"%string |};
           {| RelativePath.namespaceIndex := 2;
              RelativePath.name := Some "Hello:/World"%string |} ].
Proof. reflexivity. Qed.

(** ** The properties on the sample server *)

Lemma setSubscriptionDurable_revised_lifetime_witness :
  Sample.durable_arguments !! 0%nat = Some {| value := 7 |}
  /\ Sample.durable_arguments !! 1%nat = Some {| value := 0 |}
  /\ heap Sample.server !! 0%nat = Some Sample.sessionA
  /\ ServerSession_getSubscription Sample.sessionA 7 = Some Sample.subscription7
  /\ exists σ',
       setSubscriptionDurable Sample.modify Sample.durable_arguments
         {| context_session := Some 0%nat |} Sample.server
       = Some ({| statusCode := Good; outputArguments := [Scalar 2400] |}, σ').
Proof.
  assert (H0 : Sample.durable_arguments !! 0%nat = Some {| value := 7 |})
    by reflexivity.
  assert (H1 : Sample.durable_arguments !! 1%nat = Some {| value := 0 |})
    by reflexivity.
  assert (H2 : heap Sample.server !! 0%nat = Some Sample.sessionA) by reflexivity.
  assert (H3 : ServerSession_getSubscription Sample.sessionA 7
               = Some Sample.subscription7) by (vm_compute; reflexivity).
  repeat (split; [assumption|]).
  destruct (setSubscriptionDurable_revised_lifetime Sample.modify
              Sample.durable_arguments 7 0 0%nat Sample.sessionA Sample.subscription7
              Sample.server H0 H1 H2 H3) as [_ Hgood].
  destruct Hgood as (revised & σ' & Hout & Hzero & _); [simpl; lia|].
  exists σ'. rewrite Hout, (Hzero eq_refl). reflexivity.
Defined.

Lemma server_methods_foreign_and_unknown_subscription_witness :
  Sample.monitored_arguments !! 0%nat = Some {| value := 7 |}
  /\ heap Sample.server !! 1%nat = Some Sample.sessionB
  /\ ServerSession_getSubscription Sample.sessionB 7 = None
  /\ call_method Sample.modify Sample.getMonitoredItems Sample.resendInitialValues
       GetMonitoredItems Sample.monitored_arguments {| context_session := Some 1%nat |}
       Sample.server
     = Some ({| statusCode := BadUserAccessDenied; outputArguments := [] |},
             Sample.server).
Proof.
  assert (H0 : Sample.monitored_arguments !! 0%nat = Some {| value := 7 |})
    by reflexivity.
  assert (H1 : heap Sample.server !! 1%nat = Some Sample.sessionB) by reflexivity.
  assert (H2 : ServerSession_getSubscription Sample.sessionB 7 = None)
    by (vm_compute; reflexivity).
  repeat (split; [assumption|]).
  destruct (server_methods_foreign_and_unknown_subscription Sample.modify
              Sample.getMonitoredItems Sample.resendInitialValues
              GetMonitoredItems Sample.monitored_arguments {| value := 7 |} 1%nat
              Sample.sessionB Sample.server H0 H1 H2) as [Hforeign _].
  apply Hforeign. exists 0%nat, Sample.sessionA.
  split; [discriminate|]. split.
  - left.
  - vm_compute. eexists. reflexivity.
Defined.

Lemma getSession_wrong_identifierType_witness :
  (forall t, Sample.NodeIdType_value t <> 0)
  /\ NodeId.identifierType (NodeId.mk STRING "tokenA" 0) <> BYTESTRING
  /\ getSession Sample.toString Sample.NodeIdType_value
       (Some (NodeId.mk STRING "tokenA" 0)) false Sample.server = None
  /\ getSession Sample.toString Sample.NodeIdType_value
       (Some Sample.tokenA) false Sample.server = Some 0%nat.
Proof.
  assert (H0 : forall t, Sample.NodeIdType_value t <> 0) by (intros []; discriminate).
  assert (H1 : NodeId.identifierType (NodeId.mk STRING "tokenA" 0) <> BYTESTRING)
    by discriminate.
  split; [exact H0|]. split; [exact H1|]. split.
  - exact (getSession_wrong_identifierType Sample.toString Sample.NodeIdType_value
             (NodeId.mk STRING "tokenA" 0) false Sample.server H0 H1).
  - reflexivity.
Defined.

Lemma transferSubscription_status_witness :
  findSubscription 7 Sample.server
  = Some (SessionPublishEngine 0, Sample.subscription7)
  /\ heap Sample.server !! 1%nat = Some Sample.sessionB
  /\ exists result σ' targetSession' moved,
       transferSubscription Sample.sessionsCompatibleForTransfer 1%nat 7 false
         Sample.server = Some (result, σ')
       /\ transfer_statusCode result = Good
       /\ heap σ' !! 1%nat = Some targetSession'
       /\ ServerSession_getSubscription targetSession' 7 = Some moved
       /\ availableSequenceNumbers result = getAvailableSequenceNumbers moved.
Proof.
  assert (H1 : findSubscription 7 Sample.server
               = Some (SessionPublishEngine 0, Sample.subscription7))
    by (vm_compute; reflexivity).
  assert (H2 : heap Sample.server !! 1%nat = Some Sample.sessionB) by reflexivity.
  split; [exact H1|]. split; [exact H2|].
  destruct (transferSubscription_status Sample.sessionsCompatibleForTransfer
              1%nat 7 false Sample.server (SessionPublishEngine 0)
              Sample.subscription7 Sample.sessionB H1 H2)
    as (result & σ' & Hout & _ & _ & _ & Hgood).
  destruct Hgood as (Hstatus & targetSession' & moved & Ht & Hmoved & Havailable).
  - lia.
  - vm_compute. reflexivity.
  - intros [H | H]; discriminate H.
  - exists result, σ', targetSession', moved.
    split; [exact Hout|]. split; [exact Hstatus|]. split; [exact Ht|].
    split; [exact Hmoved | exact Havailable].
Defined.

Lemma closeSession_effects_witness :
  getSession Sample.toString Sample.NodeIdType_value (Some Sample.tokenA) false
    Sample.server = Some 0%nat
  /\ heap Sample.server !! 0%nat = Some Sample.sessionA
  /\ exists σ',
       closeSession Sample.toString Sample.NodeIdType_value Sample.tokenA
         false Timeout Sample.server = Some σ'
       /\ Summary.currentSessionCount (serverDiagnosticsSummary σ') = 1
       /\ exists orphanage,
            _orphanPublishEngine σ' = Some orphanage
            /\ getSubscriptionById orphanage 7 = Some (orphaned Sample.subscription7)
            /\ getSubscriptionById orphanage 8 = Some (orphaned Sample.subscription8).
Proof.
  assert (H0 : getSession Sample.toString Sample.NodeIdType_value
                 (Some Sample.tokenA) false Sample.server = Some 0%nat)
    by reflexivity.
  assert (H1 : heap Sample.server !! 0%nat = Some Sample.sessionA) by reflexivity.
  repeat (split; [assumption|]).
  destruct (closeSession_effects Sample.toString Sample.NodeIdType_value
              Sample.tokenA false Timeout Sample.server 0%nat Sample.sessionA H0 H1)
    as (σ2 & σ' & _ & _ & Hout & _ & Hcount & _ & Horphans & _).
  exists σ'. split; [exact Hout|]. split; [exact Hcount|].
  destruct (Horphans eq_refl) as (orphanage & Ho & Hmoved & _).
  exists orphanage. split; [exact Ho|].
  split; apply Hmoved; vm_compute; reflexivity.
Defined.


(** ** Where the engine departs from the specification *)

(** The limit of two sessions is reached and no session is inactive;
    createSession returns a third session all the same. *)
Lemma createSession_exceeds_maxSessions :
  Z.of_nat (length (session_values Sample.server))
  = maxSessions (serverCapabilities Sample.server)
  /\ getOldestInactiveSession Sample.server = None
  /\ map (fun p => ServerSession.status p.2) (session_values Sample.created.2)
     = ["active"; "active"; "new"]
  /\ ~ (Z.of_nat (length (session_values Sample.created.2))
        <= maxSessions (serverCapabilities Sample.created.2)).
Proof. vm_compute. repeat split; try reflexivity. intros H. apply H. reflexivity. Qed.

(** Without a requested timeout the session gets 1000 ms, with a request of
    5 ms it gets 5 ms: both are below 10 s. *)
Lemma createSession_timeout_below_10_seconds :
  ServerSession.sessionTimeout <$> heap Sample.created.2 !! Sample.created.1
  = Some 1000
  /\ ServerSession.sessionTimeout
       <$> heap Sample.created_with_timeout_5.2 !! Sample.created_with_timeout_5.1
     = Some 5
  /\ ~ (10000 <= 1000) /\ ~ (10000 <= 5).
Proof. vm_compute. repeat split; try reflexivity; intros H; apply H; reflexivity. Qed.

(** When closeSession returns, the status of the session is disposed. *)
Lemma closeSession_leaves_session_disposed :
  exists σ',
    closeSession Sample.toString Sample.NodeIdType_value Sample.tokenA false
      CloseSession Sample.server = Some σ'
    /\ ServerSession.status <$> heap σ' !! 0%nat = Some "disposed"
    /\ ServerSession.status <$> heap σ' !! 0%nat <> Some "closed".
Proof. eexists. split; [vm_compute; reflexivity|]. split; [reflexivity | discriminate]. Qed.

(** The counter is seeded with 0 when the random number is 0; the
    subscription that is created then has the id 0, and its transfer to a
    session that may have it, and has it not, is refused: the id is said to
    be invalid. *)
Lemma transferSubscription_refuses_the_id_0 :
  exists subscription σ,
    MoreSample.created_with_seed_0 = Some (subscription, σ)
    /\ Subscription.id subscription = 0
    /\ findSubscription 0 σ = Some (SessionPublishEngine 0, subscription)
    /\ heap σ !! 1%nat = Some Sample.sessionB
    /\ Sample.sessionsCompatibleForTransfer
         (Subscription.session subscription ≫= fun r : nat => heap σ !! r)
         Sample.sessionB = true
    /\ SessionPublishEngine 1 <> Subscription.publishEngine subscription
    /\ Some 1%nat <> Subscription.session subscription
    /\ transferSubscription Sample.sessionsCompatibleForTransfer 1%nat 0 false σ
       = Some ({| transfer_statusCode := BadSubscriptionIdInvalid;
                  availableSequenceNumbers := [] |}, σ)
    /\ BadSubscriptionIdInvalid <> Good.
Proof.
  eexists _, _. split; [vm_compute; reflexivity|].
  split; [reflexivity|]. split; [vm_compute; reflexivity|].
  split; [reflexivity|]. split; [reflexivity|].
  split; [discriminate|]. split; [discriminate|]. split; [reflexivity | discriminate].
Qed.


(** From 2 ^ 53 on the counter does not move: the three subscriptions that
    are created after setNextSubscriptionId(2 ** 53) have the same id. *)
Example subscription_ids_repeat_from_2_53 :
  (fun created => map Subscription.id created.1) <$> MoreSample.created_from_2_53
  = Some [2 ^ 53; 2 ^ 53; 2 ^ 53].
Proof. by vm_compute. Qed.

(** C4. Of two closed sessions created at 1000 and at 2000, the call
    returns the one created at 2000: the youngest, where the oldest was
    meant. *)
Theorem getOldestInactiveSession_returns_youngest :
  ServerSession.creationDate <$> heap Sample.server_of_closed_sessions !! 0%nat
  = Some 1000
  /\ ServerSession.creationDate <$> heap Sample.server_of_closed_sessions !! 1%nat
     = Some 2000
  /\ inactive_candidates Sample.server_of_closed_sessions
     = [(0%nat, ServerSession.set_status "closed" Sample.sessionA);
        (1%nat, ServerSession.set_status "closed" Sample.sessionB)]
  /\ getOldestInactiveSession Sample.server_of_closed_sessions = Some 1%nat.
Proof. repeat split; vm_compute; reflexivity. Qed.

(** * More properties of the engine *)

Lemma dict_get_delete_ne {A} key key' (d : list (string * A)) :
  key <> key' -> dict_get key' (dict_delete key d) = dict_get key' d.
Proof.
  intros Hne. induction d as [|[k w] d IH]; simpl; [done|].
  destruct (String.eqb k key) eqn:E; simpl.
  - apply String.eqb_eq in E. subst k.
    destruct (String.eqb key key') eqn:E'; [|done].
    by apply String.eqb_eq in E'.
  - by rewrite IH.
Qed.

Lemma elem_of_dict_delete {A} key k (v : A) d :
  (k, v) ∈ dict_delete key d -> (k, v) ∈ d /\ k <> key.
Proof.
  induction d as [|[k' w] d IH]; simpl; [by intros ?%elem_of_nil|].
  destruct (String.eqb k' key) eqn:E.
  - intros [? ?]%IH. split; [by right | done].
  - intros [Heq | Hin]%elem_of_cons.
    + inversion Heq; subst. split; [by left|].
      intros ->. by rewrite String.eqb_refl in E.
    + destruct (IH Hin). split; [by right | done].
Qed.

Lemma elem_of_session_values r s σ :
  (r, s) ∈ session_values σ <->
  (exists k, (k, r) ∈ _sessions σ) /\ heap σ !! r = Some s.
Proof.
  unfold session_values, dict_values. rewrite list_elem_of_omap. split.
  - intros (r' & Hin & Hr').
    destruct (heap σ !! r') as [s'|] eqn:E; [|done]. simpl in Hr'.
    inversion Hr'; subst. split; [|done].
    apply list_elem_of_In, in_map_iff in Hin as ([k r''] & <- & Hin).
    exists k. by apply list_elem_of_In.
  - intros [[k Hk] Hs]. exists r. split.
    + apply list_elem_of_In, in_map_iff. exists (k, r).
      split; [done | by apply list_elem_of_In].
    + by rewrite Hs.
Qed.

Section MoreEngineProperties.

Variable NodeId_toString : NodeId.t -> string.
Variable NodeIdType_value : NodeIdType -> Z.
Variable sessionsCompatibleForTransfer :
  option ServerSession.t -> ServerSession.t -> bool.
Variable Subscription_modify : ModifyOptions -> Subscription.t -> Subscription.t.
Variable Subscription_getMonitoredItems : Subscription.t -> GetMonitoredItemsResult.
Variable Subscription_resendInitialValues : Subscription.t -> option Subscription.t.

(** ** Sessions: creation, lookup and closing together *)

(** What a successful [closeSession] leaves behind, field by field. *)
Lemma closeSession_Some token deleteSubscriptions reason σ r session :
  getSession NodeId_toString NodeIdType_value (Some token) false σ = Some r ->
  heap σ !! r = Some session ->
  exists σ',
    closeSession NodeId_toString NodeIdType_value token deleteSubscriptions reason σ
    = Some σ'
    /\ heap σ' !! r
       = Some (ServerSession_dispose
                 (ServerSession_close deleteSubscriptions reason
                    (if deleteSubscriptions then session
                     else ServerSession.set_publishEngine PublishEngine.empty session)))
    /\ (forall r', r' <> r -> heap σ' !! r' = heap σ !! r')
    /\ length (heap σ') = length (heap σ)
    /\ serverDiagnosticsSummary σ'
       = Summary.mk
           (Summary.cumulatedSessionCount (serverDiagnosticsSummary σ))
           (Summary.currentSessionCount (serverDiagnosticsSummary σ) - 1)
           (Summary.cumulatedSubscriptionCount (serverDiagnosticsSummary σ))
           (Summary.sessionTimeoutCount (serverDiagnosticsSummary σ))
    /\ _sessions σ' = dict_delete (NodeId_toString token) (_sessions σ)
    /\ _closedSessions σ' = _closedSessions σ
    /\ next_subscriptionId σ' = next_subscriptionId σ
    /\ serverCapabilities σ' = serverCapabilities σ
    /\ _orphanPublishEngine σ'
       = if deleteSubscriptions then _orphanPublishEngine σ
         else Some (transferSubscriptionsToOrphan (ServerSession.publishEngine session)
                      (default PublishEngine.empty (_orphanPublishEngine σ))).2.
Proof.
  intros Hget Hr. unfold closeSession, closeSession_close. rewrite Hget, Hr.
  set (σ1 := if negb deleteSubscriptions then _ else σ).
  assert (H1 : heap σ1 !! r
               = Some (if deleteSubscriptions then session
                       else ServerSession.set_publishEngine PublishEngine.empty session)).
  { subst σ1. destruct deleteSubscriptions; simpl; [done|].
    by apply update_session_lookup. }
  assert (H1' : forall r', r' <> r -> heap σ1 !! r' = heap σ !! r').
  { intros r' Hne. subst σ1. destruct deleteSubscriptions; simpl; [done|].
    by apply update_session_lookup_ne. }
  assert (H1len : length (heap σ1) = length (heap σ)).
  { subst σ1. destruct deleteSubscriptions; simpl; [done|].
    apply update_session_length. }
  assert (H1f : next_subscriptionId σ1 = next_subscriptionId σ
                /\ serverDiagnosticsSummary σ1 = serverDiagnosticsSummary σ
                /\ serverCapabilities σ1 = serverCapabilities σ
                /\ _sessions σ1 = _sessions σ
                /\ _closedSessions σ1 = _closedSessions σ).
  { subst σ1. destruct deleteSubscriptions; simpl; [done|].
    pose proof (update_session_frame r
      (ServerSession.set_publishEngine PublishEngine.empty) σ)
      as (? & ? & ? & ? & ? & _). done. }
  assert (H1o : _orphanPublishEngine σ1
                = if deleteSubscriptions then _orphanPublishEngine σ
                  else Some (transferSubscriptionsToOrphan
                               (ServerSession.publishEngine session)
                               (default PublishEngine.empty (_orphanPublishEngine σ))).2).
  { subst σ1. by destruct deleteSubscriptions. }
  clearbody σ1.
  set (σ2 := update_session r (ServerSession_close deleteSubscriptions reason) σ1).
  pose proof (update_session_lookup r (ServerSession_close deleteSubscriptions reason)
                σ1 _ H1) as H2. fold σ2 in H2.
  pose proof (update_session_frame r (ServerSession_close deleteSubscriptions reason) σ1)
    as (F1 & F2 & F3 & F4 & F5 & F6). fold σ2 in F1, F2, F3, F4, F5, F6.
  assert (H2' : forall r', r' <> r -> heap σ2 !! r' = heap σ1 !! r').
  { intros r' Hne. by apply update_session_lookup_ne. }
  assert (H2len : length (heap σ2) = length (heap σ1)) by apply update_session_length.
  clearbody σ2. rewrite H2. simpl.
  set (σ4 := set_sessions _ _).
  assert (H4 : heap σ4 = heap σ2) by done.
  pose proof (update_session_frame r ServerSession_dispose σ4)
    as (G1 & G2 & G3 & G4 & G5 & G6).
  destruct H1f as (K1 & K2 & K3 & K4 & K5).
  eexists. split; [reflexivity|].
  split; [apply update_session_lookup; by rewrite H4|].
  split.
  { intros r' Hne. rewrite update_session_lookup_ne by done.
    rewrite H4, H2' by done. by apply H1'. }
  split; [by rewrite update_session_length, H4, H2len|].
  rewrite G1, G2, G3, G4, G5, G6. subst σ4. simpl.
  rewrite F1, F2, F3, F4, F5, F6, K1, K2, K3, K4, K5, H1o. done.
Qed.

(** An inversion: [closeSession] succeeds only on a session that the token
    designates. *)
Lemma closeSession_inv token deleteSubscriptions reason σ σ' :
  closeSession NodeId_toString NodeIdType_value token deleteSubscriptions reason σ
  = Some σ' ->
  exists r session,
    getSession NodeId_toString NodeIdType_value (Some token) false σ = Some r
    /\ heap σ !! r = Some session.
Proof.
  unfold closeSession, closeSession_close.
  destruct (getSession _ _ _ _ σ) as [r|] eqn:Hget; [|done].
  destruct (heap σ !! r) as [session|] eqn:Hr; [|done]. intros _. eauto.
Qed.

Lemma createSession_registered options tokenBytes now activeOnly σ :
  ServerSession.authenticationToken
    <$> heap (createSession NodeId_toString options tokenBytes now σ).2
          !! (createSession NodeId_toString options tokenBytes now σ).1
  = Some (NodeId.mk BYTESTRING tokenBytes 0)
  /\ getSession NodeId_toString NodeIdType_value
       (Some (NodeId.mk BYTESTRING tokenBytes 0)) activeOnly
       (createSession NodeId_toString options tokenBytes now σ).2
     = Some (createSession NodeId_toString options tokenBytes now σ).1.
Proof.
  unfold createSession, getSession. simpl. split.
  - rewrite lookup_app_r by lia. by rewrite Nat.sub_diag.
  - rewrite andb_false_r. by rewrite dict_get_set_eq.
Qed.

(** X1. The session that createSession returns is the one that getSession
    finds under the session's token, whatever [activeOnly]; the lookup of a
    token that prints differently is what it was before. *)
Theorem createSession_then_getSession options tokenBytes now activeOnly σ :
  let created := createSession NodeId_toString options tokenBytes now σ in
  let token := NodeId.mk BYTESTRING tokenBytes 0 in
  ServerSession.authenticationToken <$> heap created.2 !! created.1 = Some token
  /\ getSession NodeId_toString NodeIdType_value (Some token) activeOnly created.2
     = Some created.1
  /\ forall other,
       NodeId_toString other <> NodeId_toString token ->
       getSession NodeId_toString NodeIdType_value (Some other) activeOnly created.2
       = getSession NodeId_toString NodeIdType_value (Some other) activeOnly σ.
Proof.
  intros created token.
  destruct (createSession_registered options tokenBytes now activeOnly σ)
    as [Htoken Hget].
  split; [exact Htoken|]. split; [exact Hget|].
  intros other Hne. unfold created, createSession, getSession. simpl.
  by rewrite dict_get_set_ne.
Qed.

(** X2. A session that is created and then closed: the call of closeSession
    succeeds, currentSessionCount is what it was before the creation,
    cumulatedSessionCount is one more, the token designates no active
    session any more and the sessions registered under other keys are still
    registered. *)
Theorem createSession_then_closeSession
    options tokenBytes now deleteSubscriptions reason σ :
  let created := createSession NodeId_toString options tokenBytes now σ in
  let token := NodeId.mk BYTESTRING tokenBytes 0 in
  exists σ',
    closeSession NodeId_toString NodeIdType_value token deleteSubscriptions reason
      created.2 = Some σ'
    /\ Summary.currentSessionCount (serverDiagnosticsSummary σ')
       = Summary.currentSessionCount (serverDiagnosticsSummary σ)
    /\ Summary.cumulatedSessionCount (serverDiagnosticsSummary σ')
       = Summary.cumulatedSessionCount (serverDiagnosticsSummary σ) + 1
    /\ getSession NodeId_toString NodeIdType_value (Some token) true σ' = None
    /\ forall key, key <> NodeId_toString token ->
         dict_get key (_sessions σ') = dict_get key (_sessions σ).
Proof.
  intros created token.
  destruct (createSession_registered options tokenBytes now false σ)
    as (Htoken & Hget). fold created token in Htoken, Hget.
  destruct (heap created.2 !! created.1) as [session|] eqn:Hs; [|done].
  destruct (closeSession_Some token deleteSubscriptions reason created.2
              created.1 session Hget Hs)
    as (σ' & Hclose & _ & _ & _ & Hsum & Hsessions & _).
  exists σ'. split; [done|]. unfold getSession. rewrite Hsum, Hsessions. simpl.
  split; [lia|]. split; [done|]. split.
  - by rewrite andb_false_r, dict_get_delete_eq.
  - intros key Hkey. rewrite dict_get_delete_ne by done.
    by apply dict_get_set_ne.
Qed.

(** X3. Closing twice: once closeSession has succeeded for a token that is
    not in the table of the closed sessions, a second call with the same
    token throws. *)
Theorem closeSession_twice_throws
    token deleteSubscriptions reason deleteSubscriptions' reason' σ σ' :
  closeSession NodeId_toString NodeIdType_value token deleteSubscriptions reason σ
  = Some σ' ->
  dict_get (NodeId_toString token) (_closedSessions σ) = None ->
  closeSession NodeId_toString NodeIdType_value token deleteSubscriptions' reason' σ'
  = None.
Proof.
  intros Hclose Hclosed.
  destruct (closeSession_inv _ _ _ _ _ Hclose) as (r & session & Hget & Hr).
  destruct (closeSession_Some token deleteSubscriptions reason σ r session Hget Hr)
    as (σ'' & Hclose' & _ & _ & _ & _ & Hsessions & Hclosed' & _).
  rewrite Hclose in Hclose'. inversion Hclose'; subst σ''.
  unfold closeSession, closeSession_close, getSession.
  rewrite Hsessions, Hclosed', dict_get_delete_eq, Hclosed. simpl.
  by destruct (_ && _).
Qed.

Lemma find_in_sessions_located subscriptionId l e sub :
  find_in_sessions subscriptionId l = Some (e, sub) ->
  exists r session,
    e = SessionPublishEngine r /\ (r, session) ∈ l
    /\ getSubscriptionById (ServerSession.publishEngine session) subscriptionId = Some sub.
Proof.
  induction l as [|[r s] l IH]; simpl; [done|].
  destruct (getSubscriptionById (ServerSession.publishEngine s) subscriptionId) eqn:E.
  - intros [= <- <-]. exists r, s. split; [done|]. split; [by left | done].
  - intros (r' & s' & ? & ? & ?)%IH. exists r', s'. split; [done|].
    split; [by right | done].
Qed.

(** The place where [findSubscription] finds a subscription holds it. *)
Lemma findSubscription_located subscriptionId σ e sub :
  findSubscription subscriptionId σ = Some (e, sub) ->
  exists pe, publish_engine_at e σ = Some pe
    /\ getSubscriptionById pe subscriptionId = Some sub.
Proof.
  unfold findSubscription.
  destruct (find_in_sessions subscriptionId (session_values σ)) as [[e' sub']|] eqn:E.
  - intros [= <- <-].
    apply find_in_sessions_located in E as (r & session & -> & Hin & Hsub).
    apply elem_of_session_values in Hin as [_ Hr].
    exists (ServerSession.publishEngine session). simpl. by rewrite Hr.
  - unfold findOrphanSubscription.
    destruct (_orphanPublishEngine σ) as [orphan|] eqn:Ho; [|done].
    destruct (getSubscriptionById orphan subscriptionId) eqn:Hs; [|done].
    simpl. intros [= <- <-]. by exists orphan.
Qed.

Lemma findSubscription_None subscriptionId σ :
  findSubscription subscriptionId σ = None <-> ~ known_to_server subscriptionId σ.
Proof.
  rewrite <- findSubscription_known.
  destruct (findSubscription subscriptionId σ) as [found|].
  - split; [done|]. intros H. destruct H. by eexists.
  - split; [|done]. by intros _ [? ?].
Qed.

(** ** Closing a session and its subscriptions *)

(** After a session is closed, the sessions that are still registered hold
    what they held, and the closed one, should it still be registered under
    another key, holds nothing. *)
Lemma closeSession_session_values token deleteSubscriptions reason σ σ' r session :
  getSession NodeId_toString NodeIdType_value (Some token) false σ = Some r ->
  heap σ !! r = Some session ->
  closeSession NodeId_toString NodeIdType_value token deleteSubscriptions reason σ
  = Some σ' ->
  forall r' s', (r', s') ∈ session_values σ' ->
    (r' = r /\ ServerSession.publishEngine s' = PublishEngine.empty)
    \/ (r' <> r /\ (r', s') ∈ session_values σ).
Proof.
  intros Hget Hr Hclose r' s' Hin.
  destruct (closeSession_Some token deleteSubscriptions reason σ r session Hget Hr)
    as (σ'' & Hclose' & Hheap & Hother & _ & _ & Hsessions & _).
  rewrite Hclose in Hclose'. inversion Hclose'; subst σ''.
  apply elem_of_session_values in Hin as [[k Hk] Hs'].
  rewrite Hsessions in Hk. apply elem_of_dict_delete in Hk as [Hk _].
  destruct (decide (r' = r)) as [-> | Hne].
  - left. split; [done|]. rewrite Hheap in Hs'. by inversion Hs'.
  - right. split; [done|]. apply elem_of_session_values.
    split; [by exists k|]. by rewrite <- Hother.
Qed.

(** X4. A session is closed and its subscriptions are kept: each of them is
    found among the orphans, and a call of GetMonitoredItems,
    SetSubscriptionDurable or ResendData for it by another session is
    answered BadUserAccessDenied, with no change of the server. *)
Theorem orphans_are_denied_to_other_sessions
    m token reason σ σ' r session inputArguments argument sub caller callerSession :
  getSession NodeId_toString NodeIdType_value (Some token) false σ = Some r ->
  heap σ !! r = Some session ->
  closeSession NodeId_toString NodeIdType_value token false reason σ = Some σ' ->
  ServerSession_getSubscription session (value argument) = Some sub ->
  inputArguments !! 0%nat = Some argument ->
  caller <> r ->
  heap σ !! caller = Some callerSession ->
  ServerSession_getSubscription callerSession (value argument) = None ->
  findOrphanSubscription (value argument) σ'
  = Some (OrphanPublishEngine, orphaned sub)
  /\ call_method Subscription_modify Subscription_getMonitoredItems
       Subscription_resendInitialValues m inputArguments
       {| context_session := Some caller |} σ'
     = Some ({| statusCode := BadUserAccessDenied; outputArguments := [] |}, σ').
Proof.
  intros Hget Hr Hclose Hsub Harg Hne Hcaller Hown.
  destruct (closeSession_Some token false reason σ r session Hget Hr)
    as (σ'' & Hclose' & _ & Hother & _ & _ & _ & _ & _ & _ & Horphan).
  rewrite Hclose in Hclose'. inversion Hclose'; subst σ''.
  assert (Hfound : findOrphanSubscription (value argument) σ'
                   = Some (OrphanPublishEngine, orphaned sub)).
  { unfold findOrphanSubscription. rewrite Horphan.
    by rewrite (transferSubscriptionsToOrphan_moved _ _ _ _ Hsub). }
  split; [done|].
  apply server_method_status. unfold _getSubscription. simpl.
  rewrite (Hother caller Hne), Hcaller, Harg, Hown.
  destruct (findSubscription (value argument) σ') eqn:E; [done|].
  apply findSubscription_None in E. destruct E. right.
  unfold findOrphanSubscription in Hfound.
  destruct (_orphanPublishEngine σ') as [orphan|]; [|done].
  exists orphan. split; [done|].
  destruct (getSubscriptionById orphan (value argument)); [by eexists | done].
Qed.

(** X5. A session is closed and its subscriptions are deleted: an id that
    only this session held is unknown to the whole server afterwards, and a
    transfer of it is answered BadSubscriptionIdInvalid. *)
Theorem deleted_subscriptions_are_unknown
    token reason σ σ' r session subscriptionId target sendInitialValues :
  getSession NodeId_toString NodeIdType_value (Some token) false σ = Some r ->
  heap σ !! r = Some session ->
  closeSession NodeId_toString NodeIdType_value token true reason σ = Some σ' ->
  (forall r' s', r' <> r -> (r', s') ∈ session_values σ ->
     getSubscriptionById (ServerSession.publishEngine s') subscriptionId = None) ->
  findOrphanSubscription subscriptionId σ = None ->
  findSubscription subscriptionId σ' = None
  /\ transferSubscription sessionsCompatibleForTransfer target subscriptionId
       sendInitialValues σ'
     = Some ({| transfer_statusCode := BadSubscriptionIdInvalid;
                availableSequenceNumbers := [] |}, σ').
Proof.
  intros Hget Hr Hclose Hothers Horphan.
  assert (Hnone : findSubscription subscriptionId σ' = None).
  { apply findSubscription_None. intros [(r' & s' & Hin & Hsome) | (o & Ho & Hsome)].
    - destruct (closeSession_session_values _ _ _ _ _ _ _ Hget Hr Hclose r' s' Hin)
        as [[-> Hempty] | [Hne Hin']].
      + rewrite Hempty in Hsome. unfold getSubscriptionById in Hsome. simpl in Hsome.
        rewrite lookup_empty in Hsome. by destruct Hsome.
      + rewrite (Hothers r' s' Hne Hin') in Hsome. by destruct Hsome.
    - destruct (closeSession_Some token true reason σ r session Hget Hr)
        as (σ'' & Hclose' & _ & _ & _ & _ & _ & _ & _ & _ & Ho').
      rewrite Hclose in Hclose'. inversion Hclose'; subst σ''.
      rewrite Ho' in Ho. unfold findOrphanSubscription in Horphan.
      rewrite Ho in Horphan.
      destruct (getSubscriptionById o subscriptionId); [done | by destruct Hsome]. }
  split; [done|]. unfold transferSubscription. rewrite Hnone.
  by destruct (subscriptionId <=? 0).
Qed.

(** ** Transfers *)

(** X6. An id that is not positive is always answered
    BadSubscriptionIdInvalid, before any lookup, and nothing changes; and
    whatever the id, a transfer that is refused changes nothing: when the
    answer is BadSubscriptionIdInvalid or BadUserAccessDenied the server is
    what it was and no sequence number is returned. *)
Theorem refused_transfer_changes_nothing target subscriptionId sendInitialValues σ :
  (subscriptionId <= 0 ->
     transferSubscription sessionsCompatibleForTransfer target subscriptionId
       sendInitialValues σ
     = Some ({| transfer_statusCode := BadSubscriptionIdInvalid;
                availableSequenceNumbers := [] |}, σ))
  /\ (forall result σ',
        transferSubscription sessionsCompatibleForTransfer target subscriptionId
          sendInitialValues σ = Some (result, σ') ->
        transfer_statusCode result = BadSubscriptionIdInvalid
        \/ transfer_statusCode result = BadUserAccessDenied ->
        σ' = σ /\ availableSequenceNumbers result = []).
Proof.
  unfold transferSubscription. split.
  { intros Hle. by destruct (Z.leb_spec subscriptionId 0) as [_|]; [|lia]. }
  intros result σ'.
  destruct (subscriptionId <=? 0).
  { by intros [= <- <-] _. }
  destruct (findSubscription subscriptionId σ) as [[e subscription]|].
  2: { by intros [= <- <-] _. }
  destruct (heap σ !! target) as [targetSession|]; [|done].
  destruct (sessionsCompatibleForTransfer _ _); simpl.
  - repeat case_bool_decide; try (intros [= <- <-]; simpl; intros [? | ?]; done).
    destruct (subscription_in _ _ _); [|done].
    intros [= <- <-]; simpl; intros [? | ?]; done.
  - by intros [= <- <-] _.
Qed.

(** Where the subscription is once the transfer has gone through. *)
Lemma transferSubscription_moves target subscriptionId sendInitialValues σ e sub
    targetSession :
  0 < subscriptionId ->
  findSubscription subscriptionId σ = Some (e, sub) ->
  heap σ !! target = Some targetSession ->
  sessionsCompatibleForTransfer
    (Subscription.session sub ≫= (fun r => heap σ !! r)) targetSession = true ->
  Subscription.id sub = subscriptionId ->
  Subscription.publishEngine sub = e ->
  e <> SessionPublishEngine target ->
  Some target <> Subscription.session sub ->
  exists σ' moved targetSession' source,
    transferSubscription sessionsCompatibleForTransfer target subscriptionId
      sendInitialValues σ
    = Some ({| transfer_statusCode := Good;
               availableSequenceNumbers := getAvailableSequenceNumbers moved |}, σ')
    /\ heap σ' !! target = Some targetSession'
    /\ ServerSession_getSubscription targetSession' subscriptionId = Some moved
    /\ moved
       = Subscription.set_publishEngine (SessionPublishEngine target)
           (Subscription.set_session (Some target)
              (bump_transferredCounts (bump_transferRequestCount sub)))
    /\ publish_engine_at e σ' = Some source
    /\ getSubscriptionById source subscriptionId = None.
Proof.
  intros Hpos Hfind Htarget Hcompat Hid Hengine Hne Hsession.
  assert (Hne' : SessionPublishEngine target <> Subscription.publishEngine sub)
    by (rewrite Hengine; congruence).
  destruct (transferSubscription_Good sessionsCompatibleForTransfer target
              subscriptionId sendInitialValues σ e sub targetSession
              Hpos Hfind Htarget Hcompat Hne' Hsession)
    as (targetSession' & Hout & Ht & Hheld).
  rewrite Hid in Hheld.
  destruct (findSubscription_located _ _ _ _ Hfind) as (pe & Hpe & _).
  eexists _, _, targetSession', _.
  split; [exact Hout|]. split; [exact Ht|]. split; [exact Hheld|].
  split; [reflexivity|].
  set (sub1 := bump_transferRequestCount sub).
  set (sub2 := Subscription.set_session (Some target) (bump_transferredCounts sub1)).
  unfold PublishEngine_transferSubscription, store_subscription.
  change (Subscription.publishEngine sub2) with (Subscription.publishEngine sub).
  rewrite Hengine.
  rewrite publish_engine_at_update_ne by congruence.
  split.
  - apply publish_engine_at_update_eq. apply publish_engine_at_update_eq.
    apply publish_engine_at_update_eq. exact Hpe.
  - unfold getSubscriptionById, detach_subscription. simpl.
    change (Subscription.id sub2) with (Subscription.id sub).
    rewrite Hid. apply lookup_delete_eq.
Qed.

(** X7. A transfer that goes through (the id is positive, the sessions are
    compatible and the target does not have the subscription) moves the
    subscription: afterwards the target session holds it under its id, with
    the target as session and the target's publish engine as engine and
    with the three transfer counters one higher, and the publish engine
    that held it before holds it no more. *)
Theorem transferred_subscription_changes_hands
    target subscriptionId sendInitialValues σ e sub targetSession :
  0 < subscriptionId ->
  findSubscription subscriptionId σ = Some (e, sub) ->
  heap σ !! target = Some targetSession ->
  sessionsCompatibleForTransfer
    (Subscription.session sub ≫= (fun r => heap σ !! r)) targetSession = true ->
  Subscription.id sub = subscriptionId ->
  Subscription.publishEngine sub = e ->
  e <> SessionPublishEngine target ->
  Some target <> Subscription.session sub ->
  exists result σ' moved targetSession' source,
    transferSubscription sessionsCompatibleForTransfer target subscriptionId
      sendInitialValues σ = Some (result, σ')
    /\ transfer_statusCode result = Good
    /\ heap σ' !! target = Some targetSession'
    /\ ServerSession_getSubscription targetSession' subscriptionId = Some moved
    /\ Subscription.session moved = Some target
    /\ Subscription.publishEngine moved = SessionPublishEngine target
    /\ Subscription.subscriptionDiagnostics moved
       = Diag.mk
           (Diag.transferRequestCount (Subscription.subscriptionDiagnostics sub) + 1)
           (Diag.transferredToAltClientCount (Subscription.subscriptionDiagnostics sub) + 1)
           (Diag.transferredToSameClientCount (Subscription.subscriptionDiagnostics sub) + 1)
    /\ publish_engine_at e σ' = Some source
    /\ getSubscriptionById source subscriptionId = None.
Proof.
  intros Hpos Hfind Htarget Hcompat Hid Hengine Hne Hsession.
  destruct (transferSubscription_moves target subscriptionId sendInitialValues σ e
              sub targetSession Hpos Hfind Htarget Hcompat Hid Hengine Hne Hsession)
    as (σ' & moved & targetSession' & source & Hout & Ht & Hmoved & -> & Hs & Hgone).
  eexists _, σ', _, targetSession', source.
  split; [exact Hout|]. split; [reflexivity|]. split; [exact Ht|].
  split; [exact Hmoved|]. split; [reflexivity|]. split; [reflexivity|].
  split; [reflexivity|]. by split.
Qed.

(** X8. A transfer onto the session that already has the subscription is
    answered BadNothingToDo, and yet it is counted: the subscription's
    transferRequestCount is one higher afterwards, the other counters and
    the owner are what they were. *)
Theorem transfer_to_owner_is_counted
    target subscriptionId sendInitialValues σ e sub targetSession :
  0 < subscriptionId ->
  findSubscription subscriptionId σ = Some (e, sub) ->
  heap σ !! target = Some targetSession ->
  sessionsCompatibleForTransfer
    (Subscription.session sub ≫= (fun r => heap σ !! r)) targetSession = true ->
  SessionPublishEngine target = Subscription.publishEngine sub
  \/ Some target = Subscription.session sub ->
  exists σ' pe,
    transferSubscription sessionsCompatibleForTransfer target subscriptionId
      sendInitialValues σ
    = Some ({| transfer_statusCode := BadNothingToDo;
               availableSequenceNumbers := [] |}, σ')
    /\ publish_engine_at e σ' = Some pe
    /\ getSubscriptionById pe subscriptionId
       = Some (Subscription.set_subscriptionDiagnostics
                 (Diag.mk
                    (Diag.transferRequestCount (Subscription.subscriptionDiagnostics sub) + 1)
                    (Diag.transferredToAltClientCount (Subscription.subscriptionDiagnostics sub))
                    (Diag.transferredToSameClientCount (Subscription.subscriptionDiagnostics sub)))
                 sub).
Proof.
  intros Hpos Hfind Htarget Hcompat Howned.
  destruct (findSubscription_located _ _ _ _ Hfind) as (pe & Hpe & _).
  unfold transferSubscription.
  destruct (Z.leb_spec subscriptionId 0) as [|_]; [lia|].
  rewrite Hfind, Htarget, Hcompat. simpl.
  assert (Hstore : publish_engine_at e
            (store_subscription e subscriptionId (bump_transferRequestCount sub) σ)
          = Some (PublishEngine.mk
                    (<[subscriptionId := bump_transferRequestCount sub]>
                       (PublishEngine.subscriptions pe)))).
  { unfold store_subscription. by erewrite publish_engine_at_update_eq. }
  case_bool_decide as H1; [| case_bool_decide as H2].
  - eexists _, _. split; [reflexivity|]. split; [exact Hstore|].
    unfold getSubscriptionById. simpl. apply lookup_insert_eq.
  - eexists _, _. split; [reflexivity|]. split; [exact Hstore|].
    unfold getSubscriptionById. simpl. apply lookup_insert_eq.
  - by destruct Howned.
Qed.

(** The orphans of a session that was closed with its subscriptions kept. *)
Lemma closeSession_keeps_as_orphans token reason σ σ' r session subscriptionId sub :
  getSession NodeId_toString NodeIdType_value (Some token) false σ = Some r ->
  heap σ !! r = Some session ->
  closeSession NodeId_toString NodeIdType_value token false reason σ = Some σ' ->
  ServerSession_getSubscription session subscriptionId = Some sub ->
  findOrphanSubscription subscriptionId σ' = Some (OrphanPublishEngine, orphaned sub).
Proof.
  intros Hget Hr Hclose Hsub.
  destruct (closeSession_Some token false reason σ r session Hget Hr)
    as (σ'' & Hclose' & _ & _ & _ & _ & _ & _ & _ & _ & Horphan).
  rewrite Hclose in Hclose'. inversion Hclose'; subst σ''.
  unfold findOrphanSubscription. rewrite Horphan.
  by rewrite (transferSubscriptionsToOrphan_moved _ _ _ _ Hsub).
Qed.

(** X9. An orphan is taken over: a session is closed and its subscriptions
    are kept, then another session, compatible with a subscription that has
    no session, asks for the transfer of one of them, whose id is positive.
    The answer is Good with the sequence numbers of the retransmission
    queue of the subscription as the target holds it afterwards; the target
    is its session then, and the orphanage holds it no more. *)
Theorem orphan_is_transferred_to_another_session
    token reason σ σ' r session subscriptionId sub target targetSession
    sendInitialValues :
  getSession NodeId_toString NodeIdType_value (Some token) false σ = Some r ->
  heap σ !! r = Some session ->
  closeSession NodeId_toString NodeIdType_value token false reason σ = Some σ' ->
  0 < subscriptionId ->
  ServerSession_getSubscription session subscriptionId = Some sub ->
  Subscription.id sub = subscriptionId ->
  (forall r' s', r' <> r -> (r', s') ∈ session_values σ ->
     getSubscriptionById (ServerSession.publishEngine s') subscriptionId = None) ->
  target <> r ->
  heap σ !! target = Some targetSession ->
  sessionsCompatibleForTransfer None targetSession = true ->
  exists σ'' targetSession' moved orphanage,
    transferSubscription sessionsCompatibleForTransfer target subscriptionId
      sendInitialValues σ'
    = Some ({| transfer_statusCode := Good;
               availableSequenceNumbers := getAvailableSequenceNumbers moved |}, σ'')
    /\ heap σ'' !! target = Some targetSession'
    /\ ServerSession_getSubscription targetSession' subscriptionId = Some moved
    /\ Subscription.session moved = Some target
    /\ _orphanPublishEngine σ'' = Some orphanage
    /\ getSubscriptionById orphanage subscriptionId = None.
Proof.
  intros Hget Hr Hclose Hpos Hsub Hid Hothers Hne Htarget Hcompat.
  pose proof (closeSession_keeps_as_orphans _ _ _ _ _ _ _ _ Hget Hr Hclose Hsub)
    as Horphan.
  assert (Hfind : findSubscription subscriptionId σ'
                  = Some (OrphanPublishEngine, orphaned sub)).
  { unfold findSubscription.
    destruct (find_in_sessions subscriptionId (session_values σ')) as [found|] eqn:E;
      [|done].
    exfalso.
    assert (Hsome : is_Some (find_in_sessions subscriptionId (session_values σ')))
      by by rewrite E.
    apply find_in_sessions_Some in Hsome as (r' & s' & Hin & Hheld).
    destruct (closeSession_session_values _ _ _ _ _ _ _ Hget Hr Hclose r' s' Hin)
      as [[-> Hempty] | [Hne' Hin']].
    - rewrite Hempty in Hheld. unfold getSubscriptionById in Hheld. simpl in Hheld.
      rewrite lookup_empty in Hheld. by destruct Hheld.
    - rewrite (Hothers r' s' Hne' Hin') in Hheld. by destruct Hheld. }
  assert (Htarget' : heap σ' !! target = Some targetSession).
  { destruct (closeSession_Some token false reason σ r session Hget Hr)
      as (σ'' & Hclose' & _ & Hother & _).
    rewrite Hclose in Hclose'. inversion Hclose'; subst σ''.
    by rewrite Hother. }
  destruct (transferSubscription_moves target subscriptionId sendInitialValues σ'
              OrphanPublishEngine (orphaned sub) targetSession Hpos Hfind Htarget')
    as (σ'' & moved & targetSession' & source & Hout & Ht & Hmoved & Heq & Hs & Hgone);
    try done.
  eexists σ'', targetSession', moved, source.
  split; [exact Hout|]. split; [exact Ht|]. split; [exact Hmoved|].
  split; [by rewrite Heq|]. by split.
Qed.

(** ** The oldest inactive session, once more *)

Lemma is_screwed_disposed_or_closed_spec s :
  is_screwed_disposed_or_closed s = true <->
  ServerSession.status s ∈ ["screwed"; "disposed"; "closed"].
Proof.
  unfold is_screwed_disposed_or_closed.
  rewrite !orb_true_iff, !String.eqb_eq, !elem_of_cons, elem_of_nil. tauto.
Qed.

Lemma is_new_spec s : is_new s = true <-> ServerSession.status s = "new".
Proof. unfold is_new. by rewrite String.eqb_eq. Qed.

Lemma elem_of_inactive_candidates p σ :
  p ∈ inactive_candidates σ ->
  p ∈ session_values σ
  /\ (ServerSession.status p.2 ∈ ["screwed"; "disposed"; "closed"]
      \/ (ServerSession.status p.2 = "new"
          /\ forall q, q ∈ session_values σ ->
               ServerSession.status q.2 ∉ ["screwed"; "disposed"; "closed"])).
Proof.
  unfold inactive_candidates.
  destruct (List.filter (fun p => is_screwed_disposed_or_closed p.2) (session_values σ))
    as [|c tmp] eqn:E; simpl.
  - intros [Hin Hnew]%list_elem_of_In%filter_In. split; [by apply list_elem_of_In|].
    right. split; [by apply is_new_spec|].
    intros q Hq Hstatus. apply is_screwed_disposed_or_closed_spec in Hstatus.
    assert (Hq' : In q (List.filter (fun p => is_screwed_disposed_or_closed p.2)
                          (session_values σ))).
    { apply filter_In. split; [by apply list_elem_of_In | done]. }
    by rewrite E in Hq'.
  - rewrite <- E. intros [Hin Hst]%list_elem_of_In%filter_In.
    split; [by apply list_elem_of_In|]. left.
    by apply is_screwed_disposed_or_closed_spec.
Qed.

(** X10. The session that getOldestInactiveSession returns is registered
    and is never an active one: its status is screwed, disposed or closed,
    or it is new and then no registered session is screwed, disposed or
    closed. The call returns null exactly when no registered session has
    one of these four statuses. *)
Theorem getOldestInactiveSession_is_never_active σ :
  match getOldestInactiveSession σ with
  | Some r =>
      exists session,
        (r, session) ∈ session_values σ
        /\ ServerSession.status session <> "active"
        /\ (ServerSession.status session ∈ ["screwed"; "disposed"; "closed"]
            \/ (ServerSession.status session = "new"
                /\ forall q, q ∈ session_values σ ->
                     ServerSession.status q.2 ∉ ["screwed"; "disposed"; "closed"]))
  | None =>
      forall q, q ∈ session_values σ ->
        ServerSession.status q.2 ∉ ["screwed"; "disposed"; "closed"; "new"]
  end.
Proof.
  pose proof (getOldestInactiveSession_greatest_creationDate σ) as H.
  destruct (getOldestInactiveSession σ) as [r|].
  - destruct H as (session & Hin & _).
    apply elem_of_inactive_candidates in Hin as [Hin Hstatus]. simpl in Hstatus.
    exists session. split; [done|]. split; [|done].
    intros Hactive. rewrite Hactive in Hstatus.
    destruct Hstatus as [Hin' | [? _]]; [|done].
    rewrite !elem_of_cons, elem_of_nil in Hin'.
    destruct Hin' as [? | [? | [? | []]]]; discriminate.
  - intros q Hq Hstatus. unfold inactive_candidates in H.
    assert (Hno : forall f, List.filter f (session_values σ) = [] -> f q = false).
    { intros f Hf. destruct (f q) eqn:E; [|done].
      assert (Hq' : In q (List.filter f (session_values σ))).
      { apply filter_In. split; [by apply list_elem_of_In | done]. }
      by rewrite Hf in Hq'. }
    destruct (List.filter (fun p => is_screwed_disposed_or_closed p.2) (session_values σ))
      as [|c tmp] eqn:E; simpl in H; [|done].
    pose proof (Hno _ E) as H1. pose proof (Hno _ H) as H2. simpl in H1, H2.
    rewrite !elem_of_cons, elem_of_nil in Hstatus.
    destruct Hstatus as [Hs | [Hs | [Hs | [Hs | []]]]].
    + assert (is_screwed_disposed_or_closed q.2 = true);
        [apply is_screwed_disposed_or_closed_spec; rewrite Hs; set_solver | congruence].
    + assert (is_screwed_disposed_or_closed q.2 = true);
        [apply is_screwed_disposed_or_closed_spec; rewrite Hs; set_solver | congruence].
    + assert (is_screwed_disposed_or_closed q.2 = true);
        [apply is_screwed_disposed_or_closed_spec; rewrite Hs; set_solver | congruence].
    + assert (is_new q.2 = true); [by apply is_new_spec | congruence].
Qed.

(** ** A session that times out *)

(** X11. When a session that is registered under its token times out, the
    handler closes it and keeps its subscriptions, which are orphans
    afterwards; currentSessionCount is one lower, and sessionTimeoutCount is
    two higher when the diagnostics are enabled (the handler counts the
    timeout, and so does incrementSessionTimeoutCount) and one higher when
    they are not. *)
Theorem session_timeout_closes_and_counts serverDiagnosticsEnabled r session σ :
  heap σ !! r = Some session ->
  getSession NodeId_toString NodeIdType_value
    (Some (ServerSession.authenticationToken session)) false σ = Some r ->
  exists σ',
    on_session_timeout NodeId_toString NodeIdType_value serverDiagnosticsEnabled r σ
    = Some σ'
    /\ Summary.sessionTimeoutCount (serverDiagnosticsSummary σ')
       = Summary.sessionTimeoutCount (serverDiagnosticsSummary σ)
         + (if serverDiagnosticsEnabled then 2 else 1)
    /\ Summary.currentSessionCount (serverDiagnosticsSummary σ')
       = Summary.currentSessionCount (serverDiagnosticsSummary σ) - 1
    /\ ServerSession.status <$> heap σ' !! r = Some "disposed"
    /\ forall subscriptionId sub,
         ServerSession_getSubscription session subscriptionId = Some sub ->
         findOrphanSubscription subscriptionId σ'
         = Some (OrphanPublishEngine, orphaned sub).
Proof.
  intros Hr Hget. unfold on_session_timeout. rewrite Hr.
  set (σ0 := set_serverDiagnosticsSummary _ σ).
  assert (Hget0 : getSession NodeId_toString NodeIdType_value
                    (Some (ServerSession.authenticationToken session)) false σ0
                  = Some r) by exact Hget.
  assert (Hr0 : heap σ0 !! r = Some session) by exact Hr.
  destruct (closeSession_Some (ServerSession.authenticationToken session) false
              Timeout σ0 r session Hget0 Hr0)
    as (σ1 & Hclose & Hheap & _ & _ & Hsum & _).
  rewrite Hclose.
  pose proof (fun subscriptionId sub =>
    closeSession_keeps_as_orphans _ _ _ _ _ _ subscriptionId sub Hget0 Hr0 Hclose)
    as Horphans.
  eexists. split; [reflexivity|].
  unfold incrementSessionTimeoutCount.
  destruct serverDiagnosticsEnabled; simpl; rewrite ?Hsum, ?Hheap; simpl.
  - split; [by rewrite <- Z.add_assoc|]. split; [done|]. split; [done|].
    exact Horphans.
  - split; [done|]. split; [done|]. split; [done|]. exact Horphans.
Qed.

(** ** The counters of what the server refuses *)

Lemma count_rejection_consistent call c :
  rejections_consistent c -> rejections_consistent (count_rejection call c).
Proof.
  unfold rejections_consistent. intros [H1 H2].
  destruct call as [[] []];
    cbv [count_rejection incrementSessionAbortCount incrementRejectedRequestsCount
         incrementRejectedSessionCount incrementSecurityRejectedRequestsCount
         incrementSecurityRejectedSessionCount snd fst];
    simpl; lia.
Qed.

Lemma count_rejection_monotone call c :
  let c' := count_rejection call c in
  Rejections.rejectedSessionCount c <= Rejections.rejectedSessionCount c'
  /\ Rejections.rejectedRequestsCount c <= Rejections.rejectedRequestsCount c'
  /\ Rejections.securityRejectedRequestsCount c
     <= Rejections.securityRejectedRequestsCount c'
  /\ Rejections.securityRejectedSessionCount c
     <= Rejections.securityRejectedSessionCount c'
  /\ Rejections.sessionAbortCount c <= Rejections.sessionAbortCount c'.
Proof.
  destruct call as [[] []];
    cbv [count_rejection incrementSessionAbortCount incrementRejectedRequestsCount
         incrementRejectedSessionCount incrementSecurityRejectedRequestsCount
         incrementSecurityRejectedSessionCount snd fst];
    simpl; lia.
Qed.

(** X12. Whatever the calls of the five increment methods and whatever the
    value of serverDiagnosticsEnabled at each call, the counters stay
    consistent (securityRejectedSessionCount is at most
    securityRejectedRequestsCount, and rejectedSessionCount plus
    securityRejectedRequestsCount is at most rejectedRequestsCount) and no
    counter ever goes down. *)
Theorem rejection_counters_stay_consistent calls c :
  rejections_consistent c ->
  let c' := count_rejections calls c in
  rejections_consistent c'
  /\ Rejections.rejectedSessionCount c <= Rejections.rejectedSessionCount c'
  /\ Rejections.rejectedRequestsCount c <= Rejections.rejectedRequestsCount c'
  /\ Rejections.securityRejectedRequestsCount c
     <= Rejections.securityRejectedRequestsCount c'
  /\ Rejections.securityRejectedSessionCount c
     <= Rejections.securityRejectedSessionCount c'
  /\ Rejections.sessionAbortCount c <= Rejections.sessionAbortCount c'.
Proof.
  revert c. induction calls as [|call calls IH]; intros c Hc; simpl.
  - split; [done|]. lia.
  - destruct (IH (count_rejection call c) (count_rejection_consistent call c Hc))
      as (Hc' & ?).
    pose proof (count_rejection_monotone call c). simpl in *.
    split; [exact Hc'|]. lia.
Qed.

(** ** The time left before the shutdown *)



(** ** Subscription ids, once more *)

(** X14. After setNextSubscriptionId(n) the ids handed out start at
    max(n, 1) and go up by one as long as they are within 2 ^ 53, where the
    counter, a double, stops; and whatever n, every subscription created
    from then on has a positive id, which the guard of transferSubscription
    on ids that are not positive never refuses. *)
Theorem ids_after_setNextSubscriptionId n requests σ :
  Forall (fun p => (p.1 < length (heap σ))%nat) requests ->
  exists subscriptions σ',
    create_subscriptions requests (setNextSubscriptionId n σ)
    = Some (subscriptions, σ')
    /\ forall i a, subscriptions !! i = Some a ->
         0 < Subscription.id a
         /\ (Z.max n 1 + Z.of_nat i <= 2 ^ 53 ->
               Subscription.id a = Z.max n 1 + Z.of_nat i).
Proof.
  intros Hall.
  destruct (create_subscriptions_ids requests (setNextSubscriptionId n σ) Hall)
    as (subscriptions & σ' & Hrun & Hids & _).
  exists subscriptions, σ'. split; [done|].
  intros i a Ha.
  assert (Hi : map Subscription.id subscriptions !! i = Some (Subscription.id a)).
  { change (map Subscription.id subscriptions) with (Subscription.id <$> subscriptions).
    by rewrite list_lookup_fmap, Ha. }
  rewrite Hids in Hi. simpl in Hi. split.
  - eapply counter_values_pos; [|exact Hi]. lia.
  - eapply counter_values_exact; [|exact Hi]. lia.
Qed.

(** X15. The subscription that _createSubscriptionOnSession creates is the
    one the session finds under the new id; it has no monitored item, no
    session yet and an empty retransmission queue; the other ids of the
    session and the other sessions are what they were. *)
Theorem created_subscription_is_found session request σ sessionObject :
  heap σ !! session = Some sessionObject ->
  exists subscription σ' sessionObject',
    _createSubscriptionOnSession session request σ = Some (subscription, σ')
    /\ Subscription.id subscription = next_subscriptionId σ
    /\ heap σ' !! session = Some sessionObject'
    /\ ServerSession_getSubscription sessionObject' (Subscription.id subscription)
       = Some subscription
    /\ Subscription.monitoredItemCount subscription = 0
    /\ Subscription.session subscription = None
    /\ Subscription.publishEngine subscription = SessionPublishEngine session
    /\ getAvailableSequenceNumbers subscription = []
    /\ (forall other, other <> Subscription.id subscription ->
          ServerSession_getSubscription sessionObject' other
          = ServerSession_getSubscription sessionObject other)
    /\ (forall r, r <> session -> heap σ' !! r = heap σ !! r).
Proof.
  intros Hs. unfold _createSubscriptionOnSession. rewrite Hs. simpl.
  eexists _, _, _. split; [reflexivity|]. split; [reflexivity|].
  split.
  { apply update_session_lookup. exact Hs. }
  split.
  { unfold ServerSession_getSubscription, getSubscriptionById. simpl.
    apply lookup_insert_eq. }
  do 4 (split; [reflexivity|]). split.
  - intros other Hne. unfold ServerSession_getSubscription, getSubscriptionById.
    simpl. by apply lookup_insert_ne.
  - intros r Hne. by rewrite update_session_lookup_ne.
Qed.

(** ** Shutdown *)

Lemma dict_delete_absent {A} key (d : list (string * A)) :
  key ∉ map fst d -> dict_delete key d = d.
Proof.
  induction d as [|[k w] d IH]; simpl; [done|].
  intros Hnot. apply not_elem_of_cons in Hnot as [Hne Hnot].
  destruct (String.eqb k key) eqn:E.
  - apply String.eqb_eq in E. by subst.
  - by rewrite IH.
Qed.

Lemma omap_lookup_agree (h h' : list ServerSession.t) (rs : list nat) :
  (forall r, r ∈ rs -> h' !! r = h !! r) ->
  omap (fun r => (fun s => (r, s)) <$> h' !! r) rs
  = omap (fun r => (fun s => (r, s)) <$> h !! r) rs.
Proof.
  induction rs as [|r rs IH]; intros Hagree; simpl; [done|].
  rewrite (Hagree r) by by left.
  destruct (h !! r); simpl; [f_equal|];
    apply IH; intros r' Hr'; apply Hagree; by right.
Qed.

Lemma close_sessions_all l : forall σ,
  _sessions σ = l ->
  sessions_registered NodeId_toString σ ->
  exists σ',
    close_sessions NodeId_toString NodeIdType_value (session_tokens σ) σ = Some σ'
    /\ _sessions σ' = []
    /\ Summary.currentSessionCount (serverDiagnosticsSummary σ')
       = Summary.currentSessionCount (serverDiagnosticsSummary σ) - Z.of_nat (length l)
    /\ _orphanPublishEngine σ' = _orphanPublishEngine σ
    /\ (forall key r, (key, r) ∈ l ->
          ServerSession.status <$> heap σ' !! r = Some "disposed")
    /\ (forall r, (forall key, (key, r) ∉ l) -> heap σ' !! r = heap σ !! r).
Proof.
  induction l as [|[k r] l IH]; intros σ Hl [Hnodup Hreg].
  - exists σ. unfold session_tokens, session_values. rewrite Hl. simpl.
    split; [done|]. split; [done|]. split; [lia|]. split; [done|].
    split; [by intros ? ? ?%elem_of_nil | done].
  - rewrite Hl in Hnodup, Hreg. simpl in Hnodup.
    apply NoDup_cons in Hnodup as [Hk Hnodup].
    destruct (Hreg k r ltac:(by left)) as (s & Hs & Hkey & Htype).
    assert (Hget : getSession NodeId_toString NodeIdType_value
                     (Some (ServerSession.authenticationToken s)) false σ = Some r).
    { unfold getSession. rewrite Htype, bool_decide_eq_true_2 by done.
      rewrite andb_false_r, Hkey, Hl. simpl. by rewrite String.eqb_refl. }
    destruct (closeSession_Some (ServerSession.authenticationToken s) true Terminated
                σ r s Hget Hs)
      as (σ1 & Hclose & Hheap & Hother & _ & Hsum & Hsessions & _ & _ & _ & Horphan).
    assert (Hl1 : _sessions σ1 = l).
    { rewrite Hsessions, Hkey, Hl. simpl. rewrite String.eqb_refl.
      by apply dict_delete_absent. }
    assert (Hfresh : forall key r', (key, r') ∈ l -> r' <> r).
    { intros key r' Hin ->.
      destruct (Hreg key r ltac:(by right)) as (s' & Hs' & Hkey' & _).
      rewrite Hs in Hs'. inversion Hs'; subst s'.
      apply Hk. rewrite <- Hkey, Hkey'.
      apply list_elem_of_fmap. by exists (key, r). }
    assert (Hreg1 : sessions_registered NodeId_toString σ1).
    { split; [by rewrite Hl1|]. rewrite Hl1. intros key r' Hin.
      destruct (Hreg key r' ltac:(by right)) as (s' & Hs' & ?).
      exists s'. split; [|done]. rewrite Hother; [done|]. by eapply Hfresh. }
    destruct (IH σ1 Hl1 Hreg1)
      as (σ' & Hrun & Hempty & Hcount & Horphan' & Hdisposed & Hframe).
    assert (Htokens : session_tokens σ
                      = ServerSession.authenticationToken s :: session_tokens σ1).
    { unfold session_tokens, session_values, dict_values.
      rewrite Hl, Hl1. simpl. rewrite Hs. simpl. f_equal. f_equal.
      symmetry. apply omap_lookup_agree.
      intros r' Hr'. apply list_elem_of_fmap in Hr' as ([key r''] & -> & Hin).
      apply Hother. by eapply Hfresh. }
    exists σ'. rewrite Htokens. simpl. rewrite Hclose.
    split; [exact Hrun|]. split; [exact Hempty|].
    split; [rewrite Hcount, Hsum; simpl; lia|].
    split; [by rewrite Horphan', Horphan|].
    split.
    + intros key r' [Heq | Hin]%elem_of_cons.
      * inversion Heq; subst. rewrite Hframe, Hheap; [done|].
        intros key' Hin. by eapply Hfresh.
      * by eapply Hdisposed.
    + intros r' Hnot. rewrite Hframe.
      * apply Hother. intros ->. apply (Hnot k). by left.
      * intros key Hin. apply (Hnot key). by right.
Qed.

(** X16. The loop of shutdown, on a session table as createSession builds
    it: every session is closed with its subscriptions deleted, none of the
    calls throws, the table is empty afterwards, every session is disposed,
    currentSessionCount is lower by the number of sessions and nothing has
    gone to the orphanage. *)
Theorem shutdown_closes_every_session σ :
  sessions_registered NodeId_toString σ ->
  exists σ',
    close_sessions NodeId_toString NodeIdType_value (session_tokens σ) σ = Some σ'
    /\ _sessions σ' = []
    /\ Summary.currentSessionCount (serverDiagnosticsSummary σ')
       = Summary.currentSessionCount (serverDiagnosticsSummary σ)
         - Z.of_nat (length (_sessions σ))
    /\ _orphanPublishEngine σ' = _orphanPublishEngine σ
    /\ forall key r, (key, r) ∈ _sessions σ ->
         ServerSession.status <$> heap σ' !! r = Some "disposed".
Proof.
  intros Hreg.
  destruct (close_sessions_all (_sessions σ) σ eq_refl Hreg)
    as (σ' & Hrun & Hempty & Hcount & Horphan & Hdisposed & _).
  by exists σ'.
Qed.

(** ** The lifetime of a durable subscription *)

(** The lifetime count that is requested is the ceiling of a quotient of
    doubles: for a publishing interval of 76.8 ms, whose double is a little
    less than 76.8, and one hour, it is 46875, where the ceiling of the
    exact quotient of 3600000 and this double is 46876; for a publishing
    interval of 0 it is infinite. *)
Example lifetimeCount_for_76_8 :
  Number.of_Q (768 # 10) = S754_finite false 5404319552844595 (-46)
  /\ lifetimeCount_for 1 MoreSample.subscription_76_8 = Number.of_Z 46875
  /\ Qceiling (3600000 / (5404319552844595 # (2 ^ 46))) = 46876
  /\ Number.ltb (currentLifeTimeInHours MoreSample.subscription_76_8) (Number.of_Z 1)
     = true
  /\ lifetimeCount_for 1
       (Subscription.mk 7 60 10 0 0 true 0 (SessionPublishEngine 0) (Some 0%nat) 0
          [] (Diag.mk 0 0 0))
     = S754_infinity false.
Proof. by vm_compute. Qed.

(** X17. SetSubscriptionDurable on a subscription of the caller that has no
    monitored item answers Good and changes nothing but this subscription:
    the other sessions, the session tables, the orphans, the counters and
    the other subscriptions of the caller are what they were. The
    subscription itself is left as it is when its lifetime in hours, as the
    doubles compute it, is not below the revised one; otherwise it is
    replaced by what Subscription.modify returns for its own keep-alive
    count, publishing interval, notifications per publish and priority, and
    for the lifetime count
    Math.ceil((revised * (1000 * 60 * 60)) / publishingInterval) as the
    doubles compute it. *)
Theorem setSubscriptionDurable_changes_one_subscription
    inputArguments subscriptionId lifetimeInHours caller session sub σ :
  inputArguments !! 0%nat = Some {| value := subscriptionId |} ->
  inputArguments !! 1%nat = Some {| value := lifetimeInHours |} ->
  heap σ !! caller = Some session ->
  ServerSession_getSubscription session subscriptionId = Some sub ->
  Subscription.id sub = subscriptionId ->
  Subscription.monitoredItemCount sub <= 0 ->
  exists σ',
    setSubscriptionDurable Subscription_modify inputArguments
      {| context_session := Some caller |} σ
    = Some ({| statusCode := Good;
               outputArguments := [Scalar (revisedLifetimeInHours lifetimeInHours)] |},
            σ')
    /\ (forall r, r <> caller -> heap σ' !! r = heap σ !! r)
    /\ _sessions σ' = _sessions σ
    /\ _closedSessions σ' = _closedSessions σ
    /\ _orphanPublishEngine σ' = _orphanPublishEngine σ
    /\ next_subscriptionId σ' = next_subscriptionId σ
    /\ serverDiagnosticsSummary σ' = serverDiagnosticsSummary σ
    /\ (Number.ltb (currentLifeTimeInHours sub)
          (Number.of_Z (revisedLifetimeInHours lifetimeInHours)) = true ->
        exists options session',
             heap σ' !! caller = Some session'
             /\ session'
                = ServerSession.set_publishEngine (ServerSession.publishEngine session')
                    session
             /\ ServerSession_getSubscription session' subscriptionId
                = Some (Subscription_modify options sub)
             /\ (forall other, other <> subscriptionId ->
                   ServerSession_getSubscription session' other
                   = ServerSession_getSubscription session other)
             /\ requestedMaxKeepAliveCount options = Subscription.maxKeepAliveCount sub
             /\ requestedPublishingInterval options = Subscription.publishingInterval sub
             /\ modify_maxNotificationsPerPublish options
                = Subscription.maxNotificationsPerPublish sub
             /\ modify_priority options = Subscription.priority sub
             /\ requestedLifetimeCount options
                = lifetimeCount_for (revisedLifetimeInHours lifetimeInHours) sub)
    /\ (Number.ltb (currentLifeTimeInHours sub)
          (Number.of_Z (revisedLifetimeInHours lifetimeInHours)) = false ->
        σ' = σ).
Proof.
  intros H0 H1 Hcaller Hsub Hid Hcount.
  unfold setSubscriptionDurable.
  rewrite (_getSubscription_own _ _ _ _ _ _ H0 Hcaller Hsub), H1. simpl.
  destruct (Z.gtb_spec (Subscription.monitoredItemCount sub) 0) as [|_]; [lia|].
  destruct (Number.ltb (currentLifeTimeInHours sub)
              (Number.of_Z (revisedLifetimeInHours lifetimeInHours))).
  - eexists. split; [reflexivity|]. unfold store_subscription. simpl.
    split; [intros r Hr; by rewrite update_session_lookup_ne|].
    destruct (update_session_frame caller
                (fun s => ServerSession.set_publishEngine
                   (PublishEngine.mk
                      (<[Subscription.id sub :=
                           Subscription_modify
                             {| requestedMaxKeepAliveCount := Subscription.maxKeepAliveCount sub;
                                requestedPublishingInterval := Subscription.publishingInterval sub;
                                modify_maxNotificationsPerPublish :=
                                  Subscription.maxNotificationsPerPublish sub;
                                modify_priority := Subscription.priority sub;
                                requestedLifetimeCount :=
                                  lifetimeCount_for (revisedLifetimeInHours lifetimeInHours) sub |}
                             sub]> (PublishEngine.subscriptions (ServerSession.publishEngine s)))) s)
                σ) as (Hnext & Hsummary & _ & Hsessions & Hclosed & Horphan).
    split; [exact Hsessions|]. split; [exact Hclosed|]. split; [exact Horphan|].
    split; [exact Hnext|]. split; [exact Hsummary|]. split; [|done].
    intros _. eexists _, _. split.
    { by erewrite update_session_lookup. }
    split; [reflexivity|]. split.
    { unfold ServerSession_getSubscription, getSubscriptionById. simpl.
      rewrite Hid. apply lookup_insert_eq. }
    split; [|done].
    intros other Hother. unfold ServerSession_getSubscription, getSubscriptionById.
    simpl. rewrite Hid. by apply lookup_insert_ne.
  - exists σ. split; [reflexivity|]. do 6 (split; [done|]). split; done.
Qed.

(** ** The number of subscriptions of the server *)

Lemma fold_left_count_from {A} (f : A -> Z) (l : list A) (a : Z) :
  fold_left (fun counter p => counter + f p) l a
  = a + fold_left (fun counter p => counter + f p) l 0.
Proof.
  revert a. induction l as [|p l IH]; intros a; simpl; [lia|].
  rewrite (IH (a + f p)), (IH (0 + f p)). lia.
Qed.

(** The count over the sessions, once the entry [key] of the table is
    deleted and the session [r] that it designated is changed. *)
Lemma count_without_session (f : nat * ServerSession.t -> Z) key r s
    (h h' : list ServerSession.t) (l : list (string * nat)) :
  NoDup (map fst l) ->
  (key, r) ∈ l ->
  (forall key', (key', r) ∈ l -> key' = key) ->
  h !! r = Some s ->
  (forall r', r' <> r -> h' !! r' = h !! r') ->
  fold_left (fun counter p => counter + f p)
    (omap (fun r => (fun s => (r, s)) <$> h' !! r) (dict_values (dict_delete key l))) 0
  = fold_left (fun counter p => counter + f p)
      (omap (fun r => (fun s => (r, s)) <$> h !! r) (dict_values l)) 0
    - f (r, s).
Proof.
  intros Hnodup Hin Honly Hs Hother.
  induction l as [|[k0 r0] l IH]; [by apply elem_of_nil in Hin|].
  simpl in Hnodup. apply NoDup_cons in Hnodup as [Hk0 Hnodup].
  unfold dict_values, omap in *. simpl.
  destruct (String.eqb k0 key) eqn:E.
  - apply String.eqb_eq in E. subst k0.
    assert (r0 = r) as ->.
    { apply elem_of_cons in Hin as [[= ->] | Hin]; [done|].
      destruct Hk0. apply list_elem_of_fmap. by exists (key, r). }
    rewrite dict_delete_absent by done. rewrite Hs. simpl.
    rewrite (fold_left_count_from f _ (0 + f (r, s))).
    pose proof (omap_lookup_agree h h' (map snd l)) as Hagree.
    unfold omap in Hagree. rewrite Hagree; [lia|].
    intros r' Hr'. apply list_elem_of_fmap in Hr' as ([k' r''] & -> & Hin').
    apply Hother. simpl. intros ->. destruct Hk0.
    rewrite <- (Honly k' ltac:(by right)).
    apply list_elem_of_fmap. by exists (k', r).
  - assert (Hne : r0 <> r).
    { intros ->. rewrite (Honly k0 ltac:(by left)) in E.
      by rewrite String.eqb_refl in E. }
    simpl. rewrite (Hother r0 Hne).
    assert (Hin' : (key, r) ∈ l).
    { apply elem_of_cons in Hin as [[= -> ->] | Hin]; [|done].
      by rewrite String.eqb_refl in E. }
    specialize (IH Hnodup Hin' ltac:(intros k' ?; apply Honly; by right)).
    destruct (h !! r0) as [s0|]; simpl; [|exact IH].
    rewrite (fold_left_count_from f _ (0 + f (r0, s0))), IH.
    rewrite (fold_left_count_from f _ (0 + f (r0, s0))). lia.
Qed.

(** X18. The count of the subscriptions of the server (those of the
    registered sessions and the orphans) when a registered session is
    closed: with deleteSubscriptions it goes down by the number of
    subscriptions of the session; without, it does not change, as long as
    no subscription of the session has the id of an orphan. *)
Theorem closeSession_subscription_count
    token deleteSubscriptions reason σ σ' r session :
  sessions_registered NodeId_toString σ ->
  (NodeId_toString token, r) ∈ _sessions σ ->
  getSession NodeId_toString NodeIdType_value (Some token) false σ = Some r ->
  heap σ !! r = Some session ->
  closeSession NodeId_toString NodeIdType_value token deleteSubscriptions reason σ
  = Some σ' ->
  (forall subscriptionId,
     is_Some (ServerSession_getSubscription session subscriptionId) ->
     findOrphanSubscription subscriptionId σ = None) ->
  currentSubscriptionCount σ'
  = if deleteSubscriptions
    then currentSubscriptionCount σ - ServerSession_currentSubscriptionCount session
    else currentSubscriptionCount σ.
Proof.
  intros [Hnodup Hreg] Hin Hget Hr Hclose Hdisjoint.
  destruct (closeSession_Some token deleteSubscriptions reason σ r session Hget Hr)
    as (σ'' & Hclose' & _ & Hother & _ & _ & Hsessions & _ & _ & _ & Horphan).
  rewrite Hclose in Hclose'. inversion Hclose'; subst σ''.
  assert (Honly : forall key', (key', r) ∈ _sessions σ -> key' = NodeId_toString token).
  { intros key' Hin'.
    destruct (Hreg _ _ Hin) as (s1 & Hs1 & Hk1 & _).
    destruct (Hreg _ _ Hin') as (s2 & Hs2 & Hk2 & _).
    rewrite Hs1 in Hs2. inversion Hs2; subst s2. by rewrite <- Hk1, <- Hk2. }
  unfold currentSubscriptionCount, session_values. rewrite Hsessions.
  rewrite (count_without_session
             (fun p => ServerSession_currentSubscriptionCount p.2)
             (NodeId_toString token) r session (heap σ) (heap σ') (_sessions σ)
             Hnodup Hin Honly Hr Hother).
  rewrite Horphan. simpl. destruct deleteSubscriptions; [lia|].
  unfold ServerSession_currentSubscriptionCount. simpl.
  rewrite map_size_disj_union, map_size_fmap.
  - destruct (_orphanPublishEngine σ); simpl; [lia|].
    rewrite map_size_empty. lia.
  - apply map_disjoint_spec. intros subscriptionId a b Ha Hb.
    apply lookup_fmap_Some in Ha as (sub & _ & Hsub).
    specialize (Hdisjoint subscriptionId ltac:(by eexists)).
    unfold findOrphanSubscription in Hdisjoint.
    destruct (_orphanPublishEngine σ) as [orphan|]; simpl in Hb;
      [| by rewrite lookup_empty in Hb].
    unfold getSubscriptionById in Hdisjoint. by rewrite Hb in Hdisjoint.
Qed.

End MoreEngineProperties.

(** * Data type dictionaries *)

Module TypeDictionaryProperties.
Import TypeDictionary.

Lemma ends_with_quote_snoc s q :
  ends_with_quote (s ++ String q EmptyString) = is_quote q.
Proof.
  induction s as [|c s IH]; simpl; [done|].
  destruct (s ++ String q EmptyString)%string eqn:E; [|done].
  by destruct s.
Qed.

Lemma without_last_snoc s q : without_last (s ++ String q EmptyString) = s.
Proof.
  induction s as [|c s IH]; simpl; [done|].
  destruct (s ++ String q EmptyString)%string eqn:E.
  - by destruct s.
  - by rewrite IH.
Qed.

(** X19. unquote takes one quote off each end of a string: a string that is
    put between two quotes, single or double, alike or not, comes back as
    it was, even when it has quotes of its own at its ends; and a string
    that neither starts nor ends with a quote is left as it is. *)
Theorem unquote_quoted q q' s :
  is_quote q = true ->
  is_quote q' = true ->
  unquote (String q (s ++ String q' EmptyString)) = s
  /\ (starts_with_quote s = false -> ends_with_quote s = false -> unquote s = s).
Proof.
  intros Hq Hq'. unfold unquote. split.
  - simpl. rewrite Hq, ends_with_quote_snoc, Hq'. apply without_last_snoc.
  - by intros -> ->.
Qed.


(** X26. _isOldDataTypeDictionary does not depend on the schema: a length
    is never negative, so a dictionary is old exactly when it is not
    deprecated. *)
Theorem isOldDataTypeDictionary_ignores_rawSchema d :
  _isOldDataTypeDictionary d = negb (isDictionaryDeprecated d).
Proof.
  unfold _isOldDataTypeDictionary.
  replace (Z.of_nat (String.length (rawSchema d)) >=? 0) with true.
  - apply andb_true_r.
  - symmetry. apply Z.geb_le. lia.
Qed.

(** ** The order in which the dictionaries are processed *)

Lemma extractIndependantTypeInfo_spec alreadyProcessed toProcess :
  let out := extractIndependantTypeInfo alreadyProcessed toProcess in
  out.1 ++ out.2 ≡ₚ toProcess
  /\ Forall (fun d => allDependenciesAlreadyProcessed alreadyProcessed d = true) out.1
  /\ Forall (fun d => allDependenciesAlreadyProcessed alreadyProcessed d = false) out.2
  /\ (length out.1 + length out.2 = length toProcess)%nat.
Proof.
  induction toProcess as [|d l IH]; simpl; [by repeat constructor|].
  destruct (extractIndependantTypeInfo alreadyProcessed l) as [result queue].
  simpl in IH. destruct IH as (Hperm & Hready & Hnot & Hlen).
  destruct (allDependenciesAlreadyProcessed alreadyProcessed d) eqn:E; simpl.
  - split; [by constructor|]. split; [by constructor|]. split; [done | lia].
  - split.
    { rewrite <- Hperm. symmetry. apply Permutation_middle. }
    split; [done|]. split; [by constructor|]. lia.
Qed.

Lemma elem_of_mark_processed namespace batch alreadyProcessed :
  namespace ∈ mark_processed alreadyProcessed batch <->
  namespace ∈ alreadyProcessed
  \/ exists d, d ∈ batch /\ unquote (targetNamespace d) = namespace.
Proof.
  unfold mark_processed. revert alreadyProcessed.
  induction batch as [|d batch IH]; intros alreadyProcessed; simpl.
  - split; [by left|]. intros [? | (? & ?%elem_of_nil & _)]; done.
  - rewrite IH. rewrite elem_of_union, elem_of_singleton. split.
    + intros [[-> | ?] | (d' & Hin & Hd')].
      * right. exists d. split; [by left | done].
      * by left.
      * right. exists d'. split; [by right | done].
    + intros [? | (d' & Hin & Hd')]; [by left; right|].
      apply elem_of_cons in Hin as [-> | Hin]; [by left; left|].
      right. by exists d'.
Qed.

Lemma process_queue_nil fuel alreadyProcessed :
  process_queue fuel alreadyProcessed [] = ([], [], alreadyProcessed).
Proof. by destruct fuel. Qed.

Lemma process_queue_cons fuel alreadyProcessed d queue :
  process_queue (S fuel) alreadyProcessed (d :: queue) =
  let out := extractIndependantTypeInfo alreadyProcessed (d :: queue) in
  match out.1 with
  | [] => ([], out.2, alreadyProcessed)
  | _ =>
      let next := process_queue fuel (mark_processed alreadyProcessed out.1) out.2 in
      (out.1 :: next.1.1, next.1.2, next.2)
  end.
Proof.
  cbn [process_queue].
  destruct (extractIndependantTypeInfo alreadyProcessed (d :: queue))
    as [[|r ready] queue']; [done|].
  cbn [fst snd]. by destruct (process_queue fuel _ queue') as [[? ?] ?].
Qed.

Ltac process_queue_turn fuel alreadyProcessed d queue H :=
  rewrite (process_queue_cons fuel alreadyProcessed d queue);
  pose proof (extractIndependantTypeInfo_spec alreadyProcessed (d :: queue)) as H;
  destruct (extractIndependantTypeInfo alreadyProcessed (d :: queue))
    as [[|?r ?ready] ?queue'];
  cbn [fst snd] in H |- *.

Lemma process_queue_partition fuel : forall alreadyProcessed queue,
  concat (process_queue fuel alreadyProcessed queue).1.1
    ++ (process_queue fuel alreadyProcessed queue).1.2 ≡ₚ queue
  /\ Forall (fun batch => batch <> []) (process_queue fuel alreadyProcessed queue).1.1.
Proof.
  induction fuel as [|fuel IH]; intros alreadyProcessed [|d queue];
    [done | done | done |].
  process_queue_turn fuel alreadyProcessed d queue H;
    destruct H as (Hperm & _); [done|].
  destruct (IH (mark_processed alreadyProcessed (r :: ready)) queue') as [IH1 IH2].
  split; [|by constructor].
  rewrite <- Hperm. cbn [concat]. rewrite <- !app_assoc.
  apply Permutation_app_head. exact IH1.
Qed.

(** X20. Nothing of the queue is lost and nothing of it is processed twice:
    the batches that are processed and the queue that is left when the loop
    ends are, taken together, the list the loop started from, which is the
    ordered list that putInCorrectOrder returned, each entry as often as it
    is in this list; and no batch is empty. *)
Theorem processing_order_partition dictionaries :
  concat (processing_order dictionaries).1.1
    ++ (processing_order dictionaries).1.2 ≡ₚ dictionaries
  /\ Forall (fun batch => batch <> []) (processing_order dictionaries).1.1.
Proof. apply process_queue_partition. Qed.

Lemma process_queue_processed fuel : forall alreadyProcessed queue namespace,
  namespace ∈ (process_queue fuel alreadyProcessed queue).2 <->
  namespace ∈ alreadyProcessed
  \/ exists batch d,
       batch ∈ (process_queue fuel alreadyProcessed queue).1.1
       /\ d ∈ batch /\ unquote (targetNamespace d) = namespace.
Proof.
  assert (Hnone : forall (P : Prop) (Q : list TypeDictionaryInfo -> TypeDictionaryInfo -> Prop),
             P <-> P \/ exists batch d, batch ∈ @nil (list TypeDictionaryInfo) /\ Q batch d).
  { intros P Q. split; [by left|]. by intros [? | (? & ? & ?%elem_of_nil & _)]. }
  induction fuel as [|fuel IH]; intros alreadyProcessed [|d0 queue] namespace;
    [apply Hnone | apply Hnone | apply Hnone |].
  process_queue_turn fuel alreadyProcessed d0 queue H; clear H; [apply Hnone|].
  rewrite IH, elem_of_mark_processed. split.
  - intros [[? | (d & Hd & Heq)] | (batch & d & Hb & Hd & Heq)].
    + by left.
    + right. exists (r :: ready), d. split; [by left | done].
    + right. exists batch, d. split; [by right | done].
  - intros [? | (batch & d & Hb & Hd & Heq)]; [by left; left|].
    apply elem_of_cons in Hb as [-> | Hb].
    + left. right. by exists d.
    + right. by exists batch, d.
Qed.

Lemma process_queue_dependencies_first fuel :
  forall alreadyProcessed queue i batch d xmlns namespace,
  (process_queue fuel alreadyProcessed queue).1.1 !! i = Some batch ->
  d ∈ batch ->
  (xmlns, namespace) ∈ dependencies d ->
  unquote namespace <> targetNamespace d ->
  unquote namespace ∈ alreadyProcessed
  \/ exists j earlier d',
       (j < i)%nat
       /\ (process_queue fuel alreadyProcessed queue).1.1 !! j = Some earlier
       /\ d' ∈ earlier
       /\ unquote (targetNamespace d') = unquote namespace.
Proof.
  induction fuel as [|fuel IH];
    intros alreadyProcessed [|d0 queue] i batch d xmlns namespace;
    [done | done | done |].
  process_queue_turn fuel alreadyProcessed d0 queue H;
    destruct H as (_ & Hready & _); [done|].
  intros Hi Hd Hdep Hne. destruct i as [|i]; cbn [lookup list_lookup] in Hi.
  - inversion Hi; subst batch. left.
    rewrite Forall_forall in Hready. specialize (Hready d Hd).
    unfold allDependenciesAlreadyProcessed in Hready.
    rewrite forallb_forall in Hready.
    specialize (Hready (xmlns, namespace)).
    rewrite <- list_elem_of_In in Hready. specialize (Hready Hdep).
    simpl in Hready. apply orb_true_iff in Hready as [Heq | Hin].
    + apply String.eqb_eq in Heq. by destruct Hne.
    + by apply bool_decide_eq_true in Hin.
  - destruct (IH _ _ i batch d xmlns namespace Hi Hd Hdep Hne)
      as [Hin | (j & earlier & d' & Hj & Hearlier & Hd' & Heq)].
    + apply elem_of_mark_processed in Hin as [Hin | (d' & Hd' & Heq)].
      * by left.
      * right. exists 0%nat, (r :: ready), d'. split; [lia|]. by repeat split.

    + right. exists (S j), earlier, d'. split; [lia|]. by repeat split.
Qed.

(** X21. Dependencies first: when a dictionary is processed, every
    namespace it depends on, its own target namespace apart, is one of the
    three standard namespaces or the target namespace of a dictionary of an
    earlier batch (the names are compared without their quotes). *)
Theorem processing_order_dependencies_first dictionaries i batch d xmlns namespace :
  (processing_order dictionaries).1.1 !! i = Some batch ->
  d ∈ batch ->
  (xmlns, namespace) ∈ dependencies d ->
  unquote namespace <> targetNamespace d ->
  unquote namespace ∈ standard_namespaces
  \/ exists j earlier d',
       (j < i)%nat
       /\ (processing_order dictionaries).1.1 !! j = Some earlier
       /\ d' ∈ earlier
       /\ unquote (targetNamespace d') = unquote namespace.
Proof.
  apply (process_queue_dependencies_first (length dictionaries)
           standard_namespaces dictionaries).
Qed.

Lemma process_queue_stuck fuel : forall alreadyProcessed queue,
  (length queue <= fuel)%nat ->
  Forall (fun d => allDependenciesAlreadyProcessed
                     (process_queue fuel alreadyProcessed queue).2 d = false)
         (process_queue fuel alreadyProcessed queue).1.2.
Proof.
  induction fuel as [|fuel IH]; intros alreadyProcessed [|d0 queue] Hlen;
    [done | simpl in Hlen; lia | done |].
  process_queue_turn fuel alreadyProcessed d0 queue H;
    destruct H as (_ & _ & Hnot & Hlen'); [done|].
  apply IH. simpl in Hlen, Hlen'. lia.
Qed.

Lemma not_allDependenciesAlreadyProcessed alreadyProcessed d :
  allDependenciesAlreadyProcessed alreadyProcessed d = false ->
  exists xmlns namespace,
    (xmlns, namespace) ∈ dependencies d
    /\ unquote namespace <> targetNamespace d
    /\ unquote namespace ∉ alreadyProcessed.
Proof.
  unfold allDependenciesAlreadyProcessed.
  induction (dependencies d) as [|[xmlns namespace] l IH]; simpl; [done|].
  intros H. apply andb_false_iff in H as [H | H].
  - apply orb_false_iff in H as [Hne Hnot].
    exists xmlns, namespace. split; [by left|]. split.
    + intros Heq. apply String.eqb_neq in Hne. by destruct Hne.
    + by apply bool_decide_eq_false in Hnot.
  - destruct (IH H) as (x & n & Hin & ?). exists x, n. split; [by right | done].
Qed.

(** X22. The loop ends only when it is stuck: every dictionary that is
    left in the queue still has a dependency, other than its own target
    namespace, that is neither standard nor the target namespace of a
    dictionary that was processed. *)
Theorem processing_order_ends_stuck dictionaries d :
  d ∈ (processing_order dictionaries).1.2 ->
  exists xmlns namespace,
    (xmlns, namespace) ∈ dependencies d
    /\ unquote namespace <> targetNamespace d
    /\ (unquote namespace ∉ standard_namespaces)
    /\ forall batch d',
         batch ∈ (processing_order dictionaries).1.1 -> d' ∈ batch ->
         unquote (targetNamespace d') <> unquote namespace.
Proof.
  intros Hd.
  pose proof (process_queue_stuck (length dictionaries) standard_namespaces
                dictionaries ltac:(lia)) as Hstuck.
  rewrite Forall_forall in Hstuck. specialize (Hstuck d Hd).
  apply not_allDependenciesAlreadyProcessed in Hstuck
    as (xmlns & namespace & Hdep & Hne & Hnot).
  exists xmlns, namespace. split; [done|]. split; [done|].
  unfold processing_order in *.
  rewrite process_queue_processed in Hnot. split.
  - intros Hin. apply Hnot. by left.
  - intros batch d' Hb Hd' Heq. apply Hnot. right. by exists batch, d'.
Qed.

End TypeDictionaryProperties.

(** ** Sorting the structure definitions *)

Module StructureSortProperties.
Import StructureSort.

Section SortProperties.

Variable NodeId_toString : NodeId.t -> string.
Variable dataTypeDefinitions : list IDataTypeDefInfo.

Local Abbreviation hash := (hash_of NodeId_toString).
Local Abbreviation M := (make_map NodeId_toString dataTypeDefinitions).
Local Abbreviation V := _visited.
Local Abbreviation sorted := dataTypeDefinitionsSorted.
Local Abbreviation deps := (built_on NodeId_toString).
Local Abbreviation consistent :=
  (StructureSort.consistent NodeId_toString dataTypeDefinitions).
Local Abbreviation active := (StructureSort.active NodeId_toString).
Local Abbreviation ordered :=
  (StructureSort.ordered NodeId_toString dataTypeDefinitions).
Local Abbreviation acyclic :=
  (StructureSort.acyclic NodeId_toString dataTypeDefinitions).
Local Abbreviation visited_from :=
  (StructureSort.visited_from NodeId_toString dataTypeDefinitions).
Local Abbreviation visit_ok :=
  (StructureSort.visit_ok NodeId_toString dataTypeDefinitions).

Lemma make_map_fold ds : forall (m : gmap string IDataTypeDefInfo) k,
  (forall dd, fold_left (fun _map d => <[hash d := d]> _map) ds m !! k = Some dd ->
     (hash dd = k /\ dd ∈ ds) \/ m !! k = Some dd)
  /\ (is_Some (m !! k) \/ (exists d, d ∈ ds /\ hash d = k) ->
      is_Some (fold_left (fun _map d => <[hash d := d]> _map) ds m !! k))
  /\ (size (dom (fold_left (fun _map d => <[hash d := d]> _map) ds m))
      <= size (dom m) + length ds)%nat.
Proof.
  induction ds as [|d ds IH]; intros m k; simpl.
  - split; [by right|]. split; [|lia].
    by intros [? | (? & ?%elem_of_nil & _)].
  - destruct (IH (<[hash d := d]> m) k) as (IH1 & IH2 & IH3). split; [|split].
    + intros dd Hdd. destruct (IH1 dd Hdd) as [[? ?] | Hins].
      * left. split; [done | by right].
      * destruct (decide (hash d = k)) as [<- | Hne].
        -- rewrite lookup_insert_eq in Hins. inversion Hins; subst dd.
           left. split; [done | by left].
        -- rewrite lookup_insert_ne in Hins by done. by right.
    + intros Hk. apply IH2. destruct Hk as [Hm | (d' & Hd' & Hk)].
      * left. destruct (decide (hash d = k)) as [<- | Hne].
        -- rewrite lookup_insert_eq. by eexists.
        -- by rewrite lookup_insert_ne.
      * apply elem_of_cons in Hd' as [-> | Hd'].
        -- left. rewrite <- Hk, lookup_insert_eq. by eexists.
        -- right. by exists d'.
    + etrans; [exact IH3|]. rewrite dom_insert.
      rewrite size_union_alt, size_singleton.
      assert (size (dom m ∖ {[hash d]}) <= size (dom m))%nat; [|simpl; lia].
      apply subseteq_size. by intros x [? _]%elem_of_difference.
Qed.

Lemma make_map_lookup k dd :
  M !! k = Some dd -> hash dd = k /\ dd ∈ dataTypeDefinitions.
Proof.
  intros H. destruct (make_map_fold dataTypeDefinitions ∅ k) as (H1 & _).
  destruct (H1 dd H) as [? | Hempty]; [done|].
  by rewrite lookup_empty in Hempty.
Qed.

Lemma make_map_known d :
  d ∈ dataTypeDefinitions -> hash d ∈ dom M.
Proof.
  intros Hd. apply elem_of_dom.
  destruct (make_map_fold dataTypeDefinitions ∅ (hash d)) as (_ & H2 & _).
  apply H2. right. by exists d.
Qed.

Lemma make_map_size : (size (dom M) <= length dataTypeDefinitions)%nat.
Proof.
  destruct (make_map_fold dataTypeDefinitions ∅ EmptyString) as (_ & _ & H3).
  rewrite dom_empty_L, size_empty in H3. exact H3.
Qed.

Lemma visited_from_refl targets st :
  consistent st ->
  (forall k, k ∈ targets -> k ∈ dom M -> k ∈ dom (V st)) ->
  visited_from targets st st.
Proof.
  intros Hst Htargets. split; [done|]. split; [done|].
  split; [done|]. split; [done|]. by intros rank _ _ ?.
Qed.

Lemma visited_from_trans t1 t2 st st1 st2 :
  visited_from t1 st st1 -> visited_from t2 st1 st2 ->
  visited_from (t1 ++ t2) st st2.
Proof.
  intros (_ & Hdom1 & Hact1 & Ht1 & Hord1) (Hst2 & Hdom2 & Hact2 & Ht2 & Hord2).
  split; [done|]. split; [by etrans|]. split.
  { intros k. by rewrite Hact2, Hact1. }
  split.
  { intros k [Hk | Hk]%elem_of_app Hknown; [|by apply Ht2].
    apply Hdom2. by apply Ht1. }
  intros rank Hrank Habove Hordered.
  apply (Hord2 rank Hrank).
  - intros a k Ha Hk. apply Habove; [by apply Hact1|].
    apply elem_of_app. by right.
  - apply (Hord1 rank Hrank); [|done].
    intros a k Ha Hk. apply Habove; [done|]. apply elem_of_app. by left.
Qed.

Lemma unvisited_size st st' :
  dom (V st) ⊆ dom (V st') ->
  (size (dom M ∖ dom (V st')) <= size (dom M ∖ dom (V st)))%nat.
Proof.
  intros H. apply subseteq_size.
  intros k [? Hnot]%elem_of_difference. apply elem_of_difference.
  split; [done|]. intros Hk. by apply Hnot, H.
Qed.

Lemma visit_known_ok visit depth nodeId st :
  visit_ok visit depth ->
  consistent st ->
  (size (dom M ∖ dom (V st)) < depth)%nat ->
  exists st',
    visit_known NodeId_toString visit M nodeId st = Some st'
    /\ visited_from [NodeId_toString nodeId] st st'.
Proof.
  intros Hvisit Hst Hsize. unfold visit_known.
  destruct (M !! NodeId_toString nodeId) as [ddd|] eqn:E.
  - apply make_map_lookup in E as [Hhash Hin].
    destruct (Hvisit ddd st Hst Hin Hsize) as (st' & Hst' & Hfrom).
    exists st'. by rewrite <- Hhash.
  - exists st. split; [done|]. apply visited_from_refl; [done|].
    intros k ->%list_elem_of_singleton Hk.
    apply elem_of_dom in Hk as [? Hk]. congruence.
Qed.

Lemma visit_fields_ok visit depth fs : forall st,
  visit_ok visit depth ->
  consistent st ->
  (size (dom M ∖ dom (V st)) < depth)%nat ->
  exists st',
    visit_fields NodeId_toString visit M fs st = Some st'
    /\ visited_from (map (fun f => NodeId_toString (dataType f)) fs) st st'.
Proof.
  induction fs as [|f fs IH]; intros st Hvisit Hst Hsize; simpl.
  - exists st. split; [done|]. apply visited_from_refl; [done|].
    by intros k ?%elem_of_nil.
  - destruct (visit_known_ok visit depth (dataType f) st Hvisit Hst Hsize)
      as (st1 & -> & Hfrom1).
    destruct (IH st1 Hvisit) as (st2 & -> & Hfrom2).
    + apply Hfrom1.
    + pose proof (unvisited_size st st1 ltac:(apply Hfrom1)). lia.
    + exists st2. split; [done|].
      apply (visited_from_trans [_] _ _ _ _ Hfrom1 Hfrom2).
Qed.

Lemma active_marked st d :
  consistent st ->
  V st !! hash d = None ->
  forall k,
    active {| _visited := <[hash d := d]> (V st);
              dataTypeDefinitionsSorted := sorted st |} k
    <-> active st k \/ k = hash d.
Proof.
  intros (Hsorted & _) Hnew k. unfold StructureSort.active. simpl.
  rewrite dom_insert, elem_of_union, elem_of_singleton. split.
  - intros [[-> | ?] ?]; [by right | by left].
  - intros [[? ?] | ->]; [by split; [right|]|].
    split; [by left|]. intros Hin%Hsorted.
    apply elem_of_dom in Hin as [? Hin]. congruence.
Qed.

Lemma _visit_ok fuel :
  visit_ok (_visit NodeId_toString fuel M) fuel.
Proof.
  induction fuel as [|fuel IH]; intros d st Hst Hd Hsize; [lia|].
  simpl. destruct (V st !! hash d) as [?|] eqn:Hnew.
  { exists st. split; [done|]. apply visited_from_refl; [done|].
    intros k ->%list_elem_of_singleton _. apply elem_of_dom. by eexists. }
  pose proof (active_marked st d Hst Hnew) as Hmarked.
  set (st1 := {| _visited := <[hash d := d]> (V st);
                 dataTypeDefinitionsSorted := sorted st |}) in *.
  assert (Hunvisited : hash d ∉ dom (V st)).
  { intros [? Hin]%elem_of_dom. congruence. }
  assert (Hst1 : consistent st1).
  { destruct Hst as (Hsorted & Hknown & Hnodup & Hall).
    split; [|split; [|done]]; simpl.
    - intros k Hk. rewrite dom_insert, elem_of_union. right. by apply Hsorted.
    - rewrite dom_insert. intros k [->%elem_of_singleton | Hk]%elem_of_union.
      + by apply make_map_known.
      + by apply Hknown. }
  assert (Hsize1 : (size (dom M ∖ dom (V st1)) < fuel)%nat).
  { assert (size (dom M ∖ dom (V st1)) < size (dom M ∖ dom (V st)))%nat; [|lia].
    apply subset_size. split.
    - intros k [Hk Hnot]%elem_of_difference. apply elem_of_difference.
      split; [done|]. intros Hin. apply Hnot. simpl.
      rewrite dom_insert, elem_of_union. by right.
    - intros Hsub. specialize (Hsub (hash d)).
      rewrite !elem_of_difference in Hsub.
      destruct Hsub as [_ Hnot]; [by split; [apply make_map_known|]|].
      apply Hnot. simpl. rewrite dom_insert, elem_of_union, elem_of_singleton.
      by left. }
  destruct (visit_known_ok _ fuel (baseDataType (dataTypeDefinition d)) st1
              IH Hst1 Hsize1) as (st2 & -> & Hfrom2).
  destruct (visit_fields_ok _ fuel (default [] (fields (dataTypeDefinition d)))
              st2 IH) as (st3 & -> & Hfrom3).
  { apply Hfrom2. }
  { pose proof (unvisited_size st1 st2 ltac:(apply Hfrom2)). lia. }
  pose proof (visited_from_trans _ _ _ _ _ Hfrom2 Hfrom3) as Hfrom.
  change ([_] ++ _) with (deps d) in Hfrom. clear Hfrom2 Hfrom3.
  destruct Hfrom as (Hst3 & Hdom & Hact & Htargets & Hord).
  destruct Hst3 as (Hsorted3 & Hknown3 & Hnodup3 & Hall3).
  assert (Hactive : active st3 (hash d)).
  { apply Hact, Hmarked. by right. }
  eexists. split; [done|].
  split; [|split; [|split; [|split]]]; simpl.
  - split; [|split; [done|split]]; simpl.
    + intros k. rewrite fmap_app, elem_of_app.
      intros [Hk | ->%list_elem_of_singleton]; [by apply Hsorted3 | apply Hactive].
    + rewrite fmap_app. apply NoDup_app. split; [done|]. split.
      * intros k Hk ->%list_elem_of_singleton. by apply Hactive.
      * apply NoDup_singleton.
    + apply Forall_app. split; [done|]. by constructor.
  - intros k Hk. apply Hdom. simpl. rewrite dom_insert, elem_of_union. by right.
  - intros k. unfold StructureSort.active at 1. simpl.
    rewrite fmap_app, not_elem_of_app. simpl.
    rewrite list_elem_of_singleton. split.
    + intros (Hk & Hnot & Hne).
      destruct (proj1 (Hmarked k) (proj1 (Hact k) (conj Hk Hnot))); done.
    + intros Hk. destruct (proj2 (Hact k) (proj2 (Hmarked k) (or_introl Hk)))
        as [? ?].
      split; [done|]. split; [done|]. intros ->. by destruct Hk.
  - intros k ->%list_elem_of_singleton _. apply Hactive.
  - intros rank Hrank Habove Hordered.
    assert (Hbelow : forall a k, active st1 a -> k ∈ deps d -> k ∈ dom M ->
                       (rank k < rank a)%nat).
    { intros a k [Ha | ->]%Hmarked Hk Hknown; [|by apply Hrank].
      etrans; [by apply (Hrank d k)|].
      apply Habove; [done | by apply list_elem_of_singleton |].
      by apply make_map_known. }
    specialize (Hord rank Hrank Hbelow Hordered).
    intros i x k Hi Hk Hknown.
    destruct (decide (i < length (sorted st3))%nat) as [Hlt | Hge].
    + rewrite lookup_app_l in Hi by done.
      rewrite take_app_le by lia. by apply (Hord i x).
    + rewrite lookup_app_r in Hi by lia.
      apply list_lookup_singleton_Some in Hi as [Hi ->].
      replace i with (length (sorted st3)) by lia.
      rewrite take_app_length.
      destruct (decide (k ∈ hash <$> sorted st3)) as [|Hnot]; [done|].
      assert (Hk3 : active st3 k) by (split; [by apply Htargets | done]).
      apply Hact in Hk3. specialize (Hbelow k k Hk3 Hk Hknown). lia.
Qed.

Lemma visit_each_ok fuel ds : forall st,
  Forall (fun d => d ∈ dataTypeDefinitions) ds ->
  consistent st ->
  (size (dom M ∖ dom (V st)) < fuel)%nat ->
  exists st',
    visit_each NodeId_toString fuel M ds st = Some st'
    /\ visited_from (hash <$> ds) st st'.
Proof.
  induction ds as [|d ds IH]; intros st Hds Hst Hsize; simpl.
  - exists st. split; [done|]. apply visited_from_refl; [done|].
    by intros k ?%elem_of_nil.
  - apply Forall_cons in Hds as [Hd Hds].
    destruct (_visit_ok fuel d st Hst Hd Hsize) as (st1 & -> & Hfrom1).
    destruct (IH st1 Hds) as (st2 & -> & Hfrom2).
    + apply Hfrom1.
    + pose proof (unvisited_size st st1 ltac:(apply Hfrom1)). lia.
    + exists st2. split; [done|].
      apply (visited_from_trans [_] _ _ _ _ Hfrom1 Hfrom2).
Qed.

Lemma sortStructure_spec :
  exists l,
    sortStructure NodeId_toString dataTypeDefinitions = Some l
    /\ NoDup (hash <$> l)
    /\ (forall k, k ∈ hash <$> l <-> k ∈ hash <$> dataTypeDefinitions)
    /\ Forall (fun d => d ∈ dataTypeDefinitions) l
    /\ forall rank, acyclic rank -> ordered l.
Proof.
  unfold sortStructure.
  destruct (visit_each_ok (S (length dataTypeDefinitions)) dataTypeDefinitions
              {| _visited := ∅; dataTypeDefinitionsSorted := [] |})
    as (st & -> & Hst & _ & Hact & Htargets & Hord).
  { by apply Forall_forall. }
  { split; [by intros k ?%elem_of_nil|]. split; [|split; constructor].
    simpl. rewrite dom_empty. by intros k ?%elem_of_empty. }
  { pose proof make_map_size.
    assert (size (dom M ∖ dom (V {| _visited := ∅;
                                   dataTypeDefinitionsSorted := [] |}))
            <= size (dom M))%nat; [|lia].
    apply subseteq_size. by intros k [? _]%elem_of_difference. }
  assert (Hnone : forall k, ~ active {| _visited := ∅;
                                     dataTypeDefinitionsSorted := [] |} k).
  { intros k [Hk _]. simpl in Hk. by rewrite dom_empty in Hk. }
  destruct Hst as (Hsorted & Hknown & Hnodup & Hall).
  exists (sorted st). split; [done|]. split; [done|]. split; [|split; [done|]].
  - intros k. split.
    + intros Hk%Hsorted%Hknown. apply elem_of_dom in Hk as [dd Hdd].
      apply make_map_lookup in Hdd as [<- Hdd].
      apply list_elem_of_fmap. by exists dd.
    + intros Hk.
      destruct (decide (k ∈ hash <$> sorted st)) as [|Hnot]; [done|].
      destruct (Hnone k). apply Hact. split; [|done].
      apply Htargets; [done|].
      apply list_elem_of_fmap in Hk as (d & -> & Hd). by apply make_map_known.
  - intros rank Hrank. apply (Hord rank Hrank).
    + intros a k Ha. by destruct (Hnone a).
    + by intros [|?] ? ?.
Qed.

Lemma ranked_acyclic rank :
  ranked NodeId_toString rank dataTypeDefinitions = true -> acyclic rank.
Proof.
  unfold ranked. rewrite forallb_forall. intros Hranked d k Hd Hk Hknown.
  apply list_elem_of_In in Hd. specialize (Hranked d Hd).
  rewrite forallb_forall in Hranked.
  apply list_elem_of_In in Hk. specialize (Hranked k Hk).
  apply elem_of_dom in Hknown as [dd Hdd]. rewrite Hdd in Hranked.
  by apply Nat.ltb_lt.
Qed.

(** X23. [sortStructure] ends, whatever the definitions are built on (a
    definition may be built on itself): it returns every node id of its
    input exactly once, and nothing but definitions of its input. *)
Theorem sortStructure_returns_each_once :
  exists l,
    sortStructure NodeId_toString dataTypeDefinitions = Some l
    /\ NoDup (hash <$> l)
    /\ (forall k, k ∈ hash <$> l <-> k ∈ hash <$> dataTypeDefinitions)
    /\ Forall (fun d => d ∈ dataTypeDefinitions) l.
Proof.
  destruct sortStructure_spec as (l & Hl & Hnodup & Hkeys & Hall & _).
  by exists l.
Qed.

(** X24. When no definition is built on itself, [sortStructure] puts
    every definition after the definitions to sort it is built on: its
    base data type and the data types of its fields. *)
Theorem sortStructure_dependencies_first rank l i d k :
  ranked NodeId_toString rank dataTypeDefinitions = true ->
  sortStructure NodeId_toString dataTypeDefinitions = Some l ->
  l !! i = Some d ->
  k ∈ deps d ->
  k ∈ hash <$> dataTypeDefinitions ->
  exists j dd, (j < i)%nat /\ l !! j = Some dd /\ hash dd = k.
Proof.
  intros Hranked Hl Hi Hk Hknown.
  destruct sortStructure_spec as (l' & Hl' & _ & _ & _ & Hordered).
  rewrite Hl in Hl'. inversion Hl'; subst l'.
  specialize (Hordered rank (ranked_acyclic rank Hranked) i d k Hi Hk).
  apply list_elem_of_fmap in Hknown as (d' & -> & Hd').
  specialize (Hordered (make_map_known d' Hd')).
  apply list_elem_of_fmap in Hordered as (dd & Hdd & Hin).
  apply list_elem_of_lookup in Hin as [j Hj].
  pose proof (lookup_lt_Some _ _ _ Hj) as Hlt.
  pose proof (lookup_lt_Some _ _ _ Hi) as Hlt'.
  rewrite lookup_take_lt in Hj by (rewrite length_take in Hlt; lia).
  rewrite length_take in Hlt. exists j, dd. split; [lia | done].
Qed.

(** X25. When the node ids of the input are pairwise distinct,
    [sortStructure] returns a permutation of its input. *)
Theorem sortStructure_permutation l :
  NoDup (hash <$> dataTypeDefinitions) ->
  sortStructure NodeId_toString dataTypeDefinitions = Some l ->
  l ≡ₚ dataTypeDefinitions.
Proof.
  intros Hdistinct Hl.
  destruct sortStructure_spec as (l' & Hl' & Hnodup & Hkeys & Hall & _).
  rewrite Hl in Hl'. inversion Hl'; subst l'.
  apply NoDup_Permutation.
  - by apply NoDup_fmap_1 in Hnodup.
  - by apply NoDup_fmap_1 in Hdistinct.
  - intros d. rewrite Forall_forall in Hall. split; [apply Hall|].
    intros Hd.
    assert (Hk : hash d ∈ hash <$> l).
    { apply Hkeys, list_elem_of_fmap. by exists d. }
    apply list_elem_of_fmap in Hk as (d' & Heq & Hd').
    assert (d = d'); [|by subst].
    apply list_elem_of_lookup in Hd as [i Hi].
    apply Hall, list_elem_of_lookup in Hd' as Hd''. destruct Hd'' as [j Hj].
    assert (i = j); [|subst; congruence].
    apply (NoDup_lookup _ i j (hash d) Hdistinct);
      rewrite list_lookup_fmap; [by rewrite Hi | by rewrite Hj, Heq].
Qed.

End SortProperties.

End StructureSortProperties.

(** ** The properties above on the sample data *)

Lemma closeSession_twice_throws_witness :
  closeSession Sample.toString Sample.NodeIdType_value Sample.tokenA false
    CloseSession Sample.server = Some (MoreSample.server_after_close false)
  /\ dict_get (Sample.toString Sample.tokenA) (_closedSessions Sample.server) = None
  /\ closeSession Sample.toString Sample.NodeIdType_value Sample.tokenA true
       Terminated (MoreSample.server_after_close false) = None.
Proof.
  assert (H0 : closeSession Sample.toString Sample.NodeIdType_value Sample.tokenA
                 false CloseSession Sample.server
               = Some (MoreSample.server_after_close false))
    by (vm_compute; reflexivity).
  assert (H1 : dict_get (Sample.toString Sample.tokenA)
                 (_closedSessions Sample.server) = None) by reflexivity.
  split; [exact H0|]. split; [exact H1|].
  exact (closeSession_twice_throws Sample.toString Sample.NodeIdType_value
           Sample.tokenA false CloseSession true Terminated Sample.server
           (MoreSample.server_after_close false) H0 H1).
Defined.

Lemma sample_server_other_sessions subscriptionId r' s' :
  r' <> 0%nat ->
  (r', s') ∈ session_values Sample.server ->
  getSubscriptionById (ServerSession.publishEngine s') subscriptionId = None.
Proof.
  intros Hne Hin.
  change (session_values Sample.server)
    with [(0%nat, Sample.sessionA); (1%nat, Sample.sessionB)] in Hin.
  apply elem_of_cons in Hin as [Heq | Hin]; [by inversion Heq|].
  apply list_elem_of_singleton in Hin. by inversion Hin.
Qed.

Lemma sample_server_registered :
  sessions_registered Sample.toString Sample.server.
Proof.
  split.
  - change (map fst (_sessions Sample.server)) with ["tokenA"; "tokenB"].
    apply NoDup_cons. split; [|apply NoDup_singleton].
    intros H%list_elem_of_singleton. discriminate H.
  - intros key r Hin.
    change (_sessions Sample.server)
      with [("tokenA", 0%nat); ("tokenB", 1%nat)] in Hin.
    apply elem_of_cons in Hin as [Heq | Hin].
    + inversion Heq. by exists Sample.sessionA.
    + apply list_elem_of_singleton in Hin. inversion Hin.
      by exists Sample.sessionB.
Qed.

Lemma orphans_are_denied_to_other_sessions_witness :
  getSession Sample.toString Sample.NodeIdType_value (Some Sample.tokenA) false
    Sample.server = Some 0%nat
  /\ heap Sample.server !! 0%nat = Some Sample.sessionA
  /\ closeSession Sample.toString Sample.NodeIdType_value Sample.tokenA false
       CloseSession Sample.server = Some (MoreSample.server_after_close false)
  /\ ServerSession_getSubscription Sample.sessionA 7 = Some Sample.subscription7
  /\ Sample.monitored_arguments !! 0%nat = Some {| value := 7 |}
  /\ 1%nat <> 0%nat
  /\ heap Sample.server !! 1%nat = Some Sample.sessionB
  /\ ServerSession_getSubscription Sample.sessionB 7 = None
  /\ findOrphanSubscription 7 (MoreSample.server_after_close false)
     = Some (OrphanPublishEngine, orphaned Sample.subscription7)
  /\ call_method Sample.modify Sample.getMonitoredItems Sample.resendInitialValues
       GetMonitoredItems Sample.monitored_arguments
       {| context_session := Some 1%nat |} (MoreSample.server_after_close false)
     = Some ({| statusCode := BadUserAccessDenied; outputArguments := [] |},
             MoreSample.server_after_close false).
Proof.
  assert (H0 : getSession Sample.toString Sample.NodeIdType_value
                 (Some Sample.tokenA) false Sample.server = Some 0%nat)
    by (vm_compute; reflexivity).
  assert (H1 : heap Sample.server !! 0%nat = Some Sample.sessionA) by reflexivity.
  assert (H2 : closeSession Sample.toString Sample.NodeIdType_value Sample.tokenA
                 false CloseSession Sample.server
               = Some (MoreSample.server_after_close false))
    by (vm_compute; reflexivity).
  assert (H3 : ServerSession_getSubscription Sample.sessionA 7
               = Some Sample.subscription7) by (vm_compute; reflexivity).
  assert (H4 : Sample.monitored_arguments !! 0%nat = Some {| value := 7 |})
    by reflexivity.
  assert (H5 : 1%nat <> 0%nat) by lia.
  assert (H6 : heap Sample.server !! 1%nat = Some Sample.sessionB) by reflexivity.
  assert (H7 : ServerSession_getSubscription Sample.sessionB 7 = None)
    by (vm_compute; reflexivity).
  split; [exact H0|]. split; [exact H1|]. split; [exact H2|].
  split; [exact H3|]. split; [exact H4|]. split; [exact H5|].
  split; [exact H6|]. split; [exact H7|].
  exact (orphans_are_denied_to_other_sessions Sample.toString
           Sample.NodeIdType_value Sample.modify Sample.getMonitoredItems
           Sample.resendInitialValues GetMonitoredItems Sample.tokenA CloseSession
           Sample.server (MoreSample.server_after_close false) 0%nat Sample.sessionA
           Sample.monitored_arguments {| value := 7 |} Sample.subscription7 1%nat
           Sample.sessionB H0 H1 H2 H3 H4 H5 H6 H7).
Defined.

Lemma deleted_subscriptions_are_unknown_witness :
  getSession Sample.toString Sample.NodeIdType_value (Some Sample.tokenA) false
    Sample.server = Some 0%nat
  /\ heap Sample.server !! 0%nat = Some Sample.sessionA
  /\ closeSession Sample.toString Sample.NodeIdType_value Sample.tokenA true
       CloseSession Sample.server = Some (MoreSample.server_after_close true)
  /\ (forall r' s', r' <> 0%nat -> (r', s') ∈ session_values Sample.server ->
        getSubscriptionById (ServerSession.publishEngine s') 7 = None)
  /\ findOrphanSubscription 7 Sample.server = None
  /\ findSubscription 7 (MoreSample.server_after_close true) = None
  /\ transferSubscription Sample.sessionsCompatibleForTransfer 1%nat 7 false
       (MoreSample.server_after_close true)
     = Some ({| transfer_statusCode := BadSubscriptionIdInvalid;
                availableSequenceNumbers := [] |},
             MoreSample.server_after_close true).
Proof.
  assert (H0 : getSession Sample.toString Sample.NodeIdType_value
                 (Some Sample.tokenA) false Sample.server = Some 0%nat)
    by (vm_compute; reflexivity).
  assert (H1 : heap Sample.server !! 0%nat = Some Sample.sessionA) by reflexivity.
  assert (H2 : closeSession Sample.toString Sample.NodeIdType_value Sample.tokenA
                 true CloseSession Sample.server
               = Some (MoreSample.server_after_close true))
    by (vm_compute; reflexivity).
  assert (H3 : forall r' s', r' <> 0%nat ->
                 (r', s') ∈ session_values Sample.server ->
                 getSubscriptionById (ServerSession.publishEngine s') 7 = None)
    by exact (sample_server_other_sessions 7).
  assert (H4 : findOrphanSubscription 7 Sample.server = None) by reflexivity.
  split; [exact H0|]. split; [exact H1|]. split; [exact H2|].
  split; [exact H3|]. split; [exact H4|].
  exact (deleted_subscriptions_are_unknown Sample.toString Sample.NodeIdType_value
           Sample.sessionsCompatibleForTransfer Sample.tokenA CloseSession
           Sample.server (MoreSample.server_after_close true) 0%nat Sample.sessionA
           7 1%nat false H0 H1 H2 H3 H4).
Defined.

Lemma refused_transfer_changes_nothing_witness :
  -3 <= 0
  /\ transferSubscription Sample.sessionsCompatibleForTransfer 1%nat (-3) false
       Sample.server
     = Some ({| transfer_statusCode := BadSubscriptionIdInvalid;
                availableSequenceNumbers := [] |}, Sample.server).
Proof.
  assert (H0 : -3 <= 0) by lia.
  split; [exact H0|].
  exact (proj1 (refused_transfer_changes_nothing Sample.sessionsCompatibleForTransfer
                  1%nat (-3) false Sample.server) H0).
Defined.

Lemma transferred_subscription_changes_hands_witness :
  0 < 7
  /\ findSubscription 7 Sample.server
     = Some (SessionPublishEngine 0, Sample.subscription7)
  /\ heap Sample.server !! 1%nat = Some Sample.sessionB
  /\ Sample.sessionsCompatibleForTransfer
       (Subscription.session Sample.subscription7
          ≫= fun r : nat => heap Sample.server !! r) Sample.sessionB = true
  /\ Subscription.id Sample.subscription7 = 7
  /\ Subscription.publishEngine Sample.subscription7 = SessionPublishEngine 0
  /\ SessionPublishEngine 0 <> SessionPublishEngine 1
  /\ Some 1%nat <> Subscription.session Sample.subscription7
  /\ exists result σ' targetSession' moved,
       transferSubscription Sample.sessionsCompatibleForTransfer 1%nat 7 false
         Sample.server = Some (result, σ')
       /\ transfer_statusCode result = Good
       /\ heap σ' !! 1%nat = Some targetSession'
       /\ ServerSession_getSubscription targetSession' 7 = Some moved
       /\ Subscription.session moved = Some 1%nat.
Proof.
  assert (H0 : 0 < 7) by lia.
  assert (H1 : findSubscription 7 Sample.server
               = Some (SessionPublishEngine 0, Sample.subscription7))
    by (vm_compute; reflexivity).
  assert (H2 : heap Sample.server !! 1%nat = Some Sample.sessionB) by reflexivity.
  assert (H3 : Sample.sessionsCompatibleForTransfer
                 (Subscription.session Sample.subscription7
                    ≫= fun r : nat => heap Sample.server !! r) Sample.sessionB
               = true) by (vm_compute; reflexivity).
  assert (H4 : Subscription.id Sample.subscription7 = 7) by reflexivity.
  assert (H5 : Subscription.publishEngine Sample.subscription7
               = SessionPublishEngine 0) by reflexivity.
  assert (H6 : SessionPublishEngine 0 <> SessionPublishEngine 1)
    by (intros H; discriminate H).
  assert (H7 : Some 1%nat <> Subscription.session Sample.subscription7)
    by (intros H; discriminate H).
  split; [exact H0|]. split; [exact H1|]. split; [exact H2|].
  split; [exact H3|]. split; [exact H4|]. split; [exact H5|].
  split; [exact H6|]. split; [exact H7|].
  destruct (transferred_subscription_changes_hands
              Sample.sessionsCompatibleForTransfer 1%nat 7 false Sample.server
              (SessionPublishEngine 0) Sample.subscription7 Sample.sessionB
              H0 H1 H2 H3 H4 H5 H6 H7)
    as (result & σ' & moved & targetSession' & source & Hout & Hgood & Hheap
        & Hmoved & Hsession & _).
  exists result, σ', targetSession', moved.
  split; [exact Hout|]. split; [exact Hgood|]. split; [exact Hheap|].
  split; [exact Hmoved | exact Hsession].
Defined.

Lemma transfer_to_owner_is_counted_witness :
  0 < 7
  /\ findSubscription 7 Sample.server
     = Some (SessionPublishEngine 0, Sample.subscription7)
  /\ heap Sample.server !! 0%nat = Some Sample.sessionA
  /\ Sample.sessionsCompatibleForTransfer
       (Subscription.session Sample.subscription7
          ≫= fun r : nat => heap Sample.server !! r) Sample.sessionA = true
  /\ (SessionPublishEngine 0 = Subscription.publishEngine Sample.subscription7
      \/ Some 0%nat = Subscription.session Sample.subscription7)
  /\ exists σ',
       transferSubscription Sample.sessionsCompatibleForTransfer 0%nat 7 false
         Sample.server
       = Some ({| transfer_statusCode := BadNothingToDo;
                  availableSequenceNumbers := [] |}, σ').
Proof.
  assert (H0 : 0 < 7) by lia.
  assert (H1 : findSubscription 7 Sample.server
               = Some (SessionPublishEngine 0, Sample.subscription7))
    by (vm_compute; reflexivity).
  assert (H2 : heap Sample.server !! 0%nat = Some Sample.sessionA) by reflexivity.
  assert (H3 : Sample.sessionsCompatibleForTransfer
                 (Subscription.session Sample.subscription7
                    ≫= fun r : nat => heap Sample.server !! r) Sample.sessionA
               = true) by (vm_compute; reflexivity).
  assert (H4 : SessionPublishEngine 0
               = Subscription.publishEngine Sample.subscription7
               \/ Some 0%nat = Subscription.session Sample.subscription7)
    by (left; reflexivity).
  split; [exact H0|]. split; [exact H1|]. split; [exact H2|].
  split; [exact H3|]. split; [exact H4|].
  destruct (transfer_to_owner_is_counted Sample.sessionsCompatibleForTransfer
              0%nat 7 false Sample.server (SessionPublishEngine 0)
              Sample.subscription7 Sample.sessionA H0 H1 H2 H3 H4)
    as (σ' & pe & Hout & _).
  exists σ'. exact Hout.
Defined.

Lemma orphan_is_transferred_to_another_session_witness :
  getSession Sample.toString Sample.NodeIdType_value (Some Sample.tokenA) false
    Sample.server = Some 0%nat
  /\ heap Sample.server !! 0%nat = Some Sample.sessionA
  /\ closeSession Sample.toString Sample.NodeIdType_value Sample.tokenA false
       CloseSession Sample.server = Some (MoreSample.server_after_close false)
  /\ 0 < 7
  /\ ServerSession_getSubscription Sample.sessionA 7 = Some Sample.subscription7
  /\ Subscription.id Sample.subscription7 = 7
  /\ (forall r' s', r' <> 0%nat -> (r', s') ∈ session_values Sample.server ->
        getSubscriptionById (ServerSession.publishEngine s') 7 = None)
  /\ 1%nat <> 0%nat
  /\ heap Sample.server !! 1%nat = Some Sample.sessionB
  /\ Sample.sessionsCompatibleForTransfer None Sample.sessionB = true
  /\ exists σ'' targetSession' moved,
       transferSubscription Sample.sessionsCompatibleForTransfer 1%nat 7 false
         (MoreSample.server_after_close false)
       = Some ({| transfer_statusCode := Good;
                  availableSequenceNumbers := getAvailableSequenceNumbers moved |},
               σ'')
       /\ heap σ'' !! 1%nat = Some targetSession'
       /\ ServerSession_getSubscription targetSession' 7 = Some moved
       /\ Subscription.session moved = Some 1%nat.
Proof.
  assert (H0 : getSession Sample.toString Sample.NodeIdType_value
                 (Some Sample.tokenA) false Sample.server = Some 0%nat)
    by (vm_compute; reflexivity).
  assert (H1 : heap Sample.server !! 0%nat = Some Sample.sessionA) by reflexivity.
  assert (H2 : closeSession Sample.toString Sample.NodeIdType_value Sample.tokenA
                 false CloseSession Sample.server
               = Some (MoreSample.server_after_close false))
    by (vm_compute; reflexivity).
  assert (H3 : 0 < 7) by lia.
  assert (H4 : ServerSession_getSubscription Sample.sessionA 7
               = Some Sample.subscription7) by (vm_compute; reflexivity).
  assert (H5 : Subscription.id Sample.subscription7 = 7) by reflexivity.
  assert (H6 : forall r' s', r' <> 0%nat ->
                 (r', s') ∈ session_values Sample.server ->
                 getSubscriptionById (ServerSession.publishEngine s') 7 = None)
    by exact (sample_server_other_sessions 7).
  assert (H7 : 1%nat <> 0%nat) by lia.
  assert (H8 : heap Sample.server !! 1%nat = Some Sample.sessionB) by reflexivity.
  assert (H9 : Sample.sessionsCompatibleForTransfer None Sample.sessionB = true)
    by reflexivity.
  split; [exact H0|]. split; [exact H1|]. split; [exact H2|].
  split; [exact H3|]. split; [exact H4|]. split; [exact H5|].
  split; [exact H6|]. split; [exact H7|]. split; [exact H8|].
  split; [exact H9|].
  destruct (orphan_is_transferred_to_another_session Sample.toString
              Sample.NodeIdType_value Sample.sessionsCompatibleForTransfer
              Sample.tokenA CloseSession Sample.server
              (MoreSample.server_after_close false) 0%nat Sample.sessionA 7
              Sample.subscription7 1%nat Sample.sessionB false
              H0 H1 H2 H3 H4 H5 H6 H7 H8 H9)
    as (σ'' & targetSession' & moved & _ & Hout & Ht & Hmoved & Hsession & _).
  exists σ'', targetSession', moved.
  split; [exact Hout|]. split; [exact Ht|]. split; [exact Hmoved|]. exact Hsession.
Defined.

Lemma session_timeout_closes_and_counts_witness :
  heap Sample.server !! 0%nat = Some Sample.sessionA
  /\ getSession Sample.toString Sample.NodeIdType_value
       (Some (ServerSession.authenticationToken Sample.sessionA)) false
       Sample.server = Some 0%nat
  /\ exists σ',
       on_session_timeout Sample.toString Sample.NodeIdType_value true 0%nat
         Sample.server = Some σ'
       /\ Summary.sessionTimeoutCount (serverDiagnosticsSummary σ') = 2
       /\ Summary.currentSessionCount (serverDiagnosticsSummary σ') = 1.
Proof.
  assert (H0 : heap Sample.server !! 0%nat = Some Sample.sessionA) by reflexivity.
  assert (H1 : getSession Sample.toString Sample.NodeIdType_value
                 (Some (ServerSession.authenticationToken Sample.sessionA)) false
                 Sample.server = Some 0%nat) by (vm_compute; reflexivity).
  split; [exact H0|]. split; [exact H1|].
  destruct (session_timeout_closes_and_counts Sample.toString
              Sample.NodeIdType_value true 0%nat Sample.sessionA Sample.server
              H0 H1)
    as (σ' & Hout & Htimeouts & Hcurrent & _).
  exists σ'. split; [exact Hout|]. split; [exact Htimeouts | exact Hcurrent].
Defined.

Lemma rejection_counters_stay_consistent_witness :
  rejections_consistent MoreSample.no_rejection
  /\ rejections_consistent
       (count_rejections MoreSample.calls MoreSample.no_rejection).
Proof.
  assert (H0 : rejections_consistent MoreSample.no_rejection)
    by (split; simpl; lia).
  split; [exact H0|].
  exact (proj1 (rejection_counters_stay_consistent MoreSample.calls
                  MoreSample.no_rejection H0)).
Defined.

Lemma ids_after_setNextSubscriptionId_witness :
  Forall (fun p : nat * CreateSubscriptionRequestLike =>
            (p.1 < length (heap Sample.server))%nat) Sample.requests
  /\ exists subscriptions σ',
       create_subscriptions Sample.requests
         (setNextSubscriptionId 100 Sample.server) = Some (subscriptions, σ')
       /\ forall i a, subscriptions !! i = Some a ->
            0 < Subscription.id a
            /\ (100 + Z.of_nat i <= 2 ^ 53 -> Subscription.id a = 100 + Z.of_nat i).
Proof.
  assert (H0 : Forall (fun p : nat * CreateSubscriptionRequestLike =>
                         (p.1 < length (heap Sample.server))%nat)
                      Sample.requests)
    by (repeat constructor).
  split; [exact H0|].
  destruct (ids_after_setNextSubscriptionId 100 Sample.requests Sample.server H0)
    as (subscriptions & σ' & Hout & Hids).
  exists subscriptions, σ'. split; [exact Hout|].
  intros i a Hi. exact (Hids i a Hi).
Defined.

Lemma created_subscription_is_found_witness :
  heap Sample.server !! 0%nat = Some Sample.sessionA
  /\ exists subscription σ' sessionObject',
       _createSubscriptionOnSession 0%nat Sample.request Sample.server
       = Some (subscription, σ')
       /\ Subscription.id subscription = 9
       /\ heap σ' !! 0%nat = Some sessionObject'
       /\ ServerSession_getSubscription sessionObject' (Subscription.id subscription)
          = Some subscription.
Proof.
  assert (H0 : heap Sample.server !! 0%nat = Some Sample.sessionA) by reflexivity.
  split; [exact H0|].
  destruct (created_subscription_is_found 0%nat Sample.request Sample.server
              Sample.sessionA H0)
    as (subscription & σ' & sessionObject' & Hout & Hid & Hheap & Hfound & _).
  exists subscription, σ', sessionObject'.
  split; [exact Hout|]. split; [exact Hid|]. split; [exact Hheap | exact Hfound].
Defined.

Lemma shutdown_closes_every_session_witness :
  sessions_registered Sample.toString Sample.server
  /\ exists σ',
       close_sessions Sample.toString Sample.NodeIdType_value
         (session_tokens Sample.server) Sample.server = Some σ'
       /\ _sessions σ' = []
       /\ Summary.currentSessionCount (serverDiagnosticsSummary σ') = 0.
Proof.
  assert (H0 : sessions_registered Sample.toString Sample.server)
    by exact sample_server_registered.
  split; [exact H0|].
  destruct (shutdown_closes_every_session Sample.toString Sample.NodeIdType_value
              Sample.server H0)
    as (σ' & Hout & Hsessions & Hcurrent & _).
  exists σ'. split; [exact Hout|]. split; [exact Hsessions | exact Hcurrent].
Defined.

Lemma setSubscriptionDurable_changes_one_subscription_witness :
  Sample.durable_arguments !! 0%nat = Some {| value := 7 |}
  /\ Sample.durable_arguments !! 1%nat = Some {| value := 0 |}
  /\ heap Sample.server !! 0%nat = Some Sample.sessionA
  /\ ServerSession_getSubscription Sample.sessionA 7 = Some Sample.subscription7
  /\ Subscription.id Sample.subscription7 = 7
  /\ Subscription.monitoredItemCount Sample.subscription7 <= 0
  /\ exists σ',
       setSubscriptionDurable Sample.modify Sample.durable_arguments
         {| context_session := Some 0%nat |} Sample.server
       = Some ({| statusCode := Good; outputArguments := [Scalar 2400] |}, σ')
       /\ (forall r, r <> 0%nat -> heap σ' !! r = heap Sample.server !! r)
       /\ next_subscriptionId σ' = next_subscriptionId Sample.server.
Proof.
  assert (H0 : Sample.durable_arguments !! 0%nat = Some {| value := 7 |})
    by reflexivity.
  assert (H1 : Sample.durable_arguments !! 1%nat = Some {| value := 0 |})
    by reflexivity.
  assert (H2 : heap Sample.server !! 0%nat = Some Sample.sessionA) by reflexivity.
  assert (H3 : ServerSession_getSubscription Sample.sessionA 7
               = Some Sample.subscription7) by (vm_compute; reflexivity).
  assert (H4 : Subscription.id Sample.subscription7 = 7) by reflexivity.
  assert (H5 : Subscription.monitoredItemCount Sample.subscription7 <= 0)
    by (simpl; lia).
  split; [exact H0|]. split; [exact H1|]. split; [exact H2|].
  split; [exact H3|]. split; [exact H4|]. split; [exact H5|].
  destruct (setSubscriptionDurable_changes_one_subscription Sample.modify
              Sample.durable_arguments 7 0 0%nat Sample.sessionA
              Sample.subscription7 Sample.server H0 H1 H2 H3 H4 H5)
    as (σ' & Hout & Hheap & _ & _ & _ & Hnext & _).
  exists σ'. split; [exact Hout|]. split; [exact Hheap | exact Hnext].
Defined.

Lemma closeSession_subscription_count_witness :
  sessions_registered Sample.toString Sample.server
  /\ (Sample.toString Sample.tokenA, 0%nat) ∈ _sessions Sample.server
  /\ getSession Sample.toString Sample.NodeIdType_value (Some Sample.tokenA) false
       Sample.server = Some 0%nat
  /\ heap Sample.server !! 0%nat = Some Sample.sessionA
  /\ closeSession Sample.toString Sample.NodeIdType_value Sample.tokenA true
       CloseSession Sample.server = Some (MoreSample.server_after_close true)
  /\ (forall subscriptionId,
        is_Some (ServerSession_getSubscription Sample.sessionA subscriptionId) ->
        findOrphanSubscription subscriptionId Sample.server = None)
  /\ currentSubscriptionCount (MoreSample.server_after_close true)
     = currentSubscriptionCount Sample.server
       - ServerSession_currentSubscriptionCount Sample.sessionA.
Proof.
  assert (H0 : sessions_registered Sample.toString Sample.server)
    by exact sample_server_registered.
  assert (H1 : (Sample.toString Sample.tokenA, 0%nat) ∈ _sessions Sample.server)
    by (left).
  assert (H2 : getSession Sample.toString Sample.NodeIdType_value
                 (Some Sample.tokenA) false Sample.server = Some 0%nat)
    by (vm_compute; reflexivity).
  assert (H3 : heap Sample.server !! 0%nat = Some Sample.sessionA) by reflexivity.
  assert (H4 : closeSession Sample.toString Sample.NodeIdType_value Sample.tokenA
                 true CloseSession Sample.server
               = Some (MoreSample.server_after_close true))
    by (vm_compute; reflexivity).
  assert (H5 : forall subscriptionId,
                 is_Some (ServerSession_getSubscription Sample.sessionA
                            subscriptionId) ->
                 findOrphanSubscription subscriptionId Sample.server = None)
    by (intros subscriptionId _; reflexivity).
  split; [exact H0|]. split; [exact H1|]. split; [exact H2|].
  split; [exact H3|]. split; [exact H4|]. split; [exact H5|].
  exact (closeSession_subscription_count Sample.toString Sample.NodeIdType_value
           Sample.tokenA true CloseSession Sample.server
           (MoreSample.server_after_close true) 0%nat Sample.sessionA
           H0 H1 H2 H3 H4 H5).
Defined.

Lemma unquote_quoted_witness :
  TypeDictionary.is_quote "'" = true
  /\ TypeDictionary.is_quote "034" = true
  /\ TypeDictionary.unquote (String "'" ("urn:a" ++ String "034" EmptyString))
     = "urn:a".
Proof.
  assert (H0 : TypeDictionary.is_quote "'" = true) by reflexivity.
  assert (H1 : TypeDictionary.is_quote "034" = true) by reflexivity.
  split; [exact H0|]. split; [exact H1|].
  exact (proj1 (TypeDictionaryProperties.unquote_quoted "'" "034" "urn:a" H0 H1)).
Defined.

Lemma processing_order_dependencies_first_witness :
  (TypeDictionary.processing_order MoreSample.dictionaries).1.1 !! 1%nat
  = Some [MoreSample.dictionaryB]
  /\ MoreSample.dictionaryB ∈ [MoreSample.dictionaryB]
  /\ ("a", "'urn:a'") ∈ TypeDictionary.dependencies MoreSample.dictionaryB
  /\ TypeDictionary.unquote "'urn:a'"
     <> TypeDictionary.targetNamespace MoreSample.dictionaryB
  /\ (TypeDictionary.unquote "'urn:a'" ∈ TypeDictionary.standard_namespaces
      \/ exists j earlier d',
           (j < 1)%nat
           /\ (TypeDictionary.processing_order MoreSample.dictionaries).1.1 !! j
              = Some earlier
           /\ d' ∈ earlier
           /\ TypeDictionary.unquote (TypeDictionary.targetNamespace d')
              = TypeDictionary.unquote "'urn:a'").
Proof.
  assert (H0 : (TypeDictionary.processing_order MoreSample.dictionaries).1.1
                 !! 1%nat = Some [MoreSample.dictionaryB])
    by (vm_compute; reflexivity).
  assert (H1 : MoreSample.dictionaryB ∈ [MoreSample.dictionaryB]) by (left).
  assert (H2 : ("a", "'urn:a'")
               ∈ TypeDictionary.dependencies MoreSample.dictionaryB)
    by (right; left).
  assert (H3 : TypeDictionary.unquote "'urn:a'"
               <> TypeDictionary.targetNamespace MoreSample.dictionaryB)
    by (intros H; vm_compute in H; discriminate H).
  split; [exact H0|]. split; [exact H1|]. split; [exact H2|].
  split; [exact H3|].
  exact (TypeDictionaryProperties.processing_order_dependencies_first
           MoreSample.dictionaries 1%nat [MoreSample.dictionaryB]
           MoreSample.dictionaryB "a" "'urn:a'" H0 H1 H2 H3).
Defined.

Lemma processing_order_ends_stuck_witness :
  MoreSample.dictionaryC
  ∈ (TypeDictionary.processing_order MoreSample.dictionaries).1.2
  /\ exists xmlns namespace,
       (xmlns, namespace) ∈ TypeDictionary.dependencies MoreSample.dictionaryC
       /\ TypeDictionary.unquote namespace
          <> TypeDictionary.targetNamespace MoreSample.dictionaryC
       /\ (TypeDictionary.unquote namespace ∉ TypeDictionary.standard_namespaces)
       /\ forall batch d',
            batch ∈ (TypeDictionary.processing_order MoreSample.dictionaries).1.1 ->
            d' ∈ batch ->
            TypeDictionary.unquote (TypeDictionary.targetNamespace d')
            <> TypeDictionary.unquote namespace.
Proof.
  assert (H0 : MoreSample.dictionaryC
               ∈ (TypeDictionary.processing_order MoreSample.dictionaries).1.2)
    by (change (TypeDictionary.processing_order MoreSample.dictionaries).1.2
          with [MoreSample.dictionaryC]; left).
  split; [exact H0|].
  exact (TypeDictionaryProperties.processing_order_ends_stuck
           MoreSample.dictionaries MoreSample.dictionaryC H0).
Defined.

Lemma sortStructure_dependencies_first_witness :
  StructureSort.ranked Sample.toString MoreSample.rank MoreSample.definitions = true
  /\ StructureSort.sortStructure Sample.toString MoreSample.definitions
     = Some [MoreSample.definitionA; MoreSample.definitionB]
  /\ [MoreSample.definitionA; MoreSample.definitionB] !! 1%nat
     = Some MoreSample.definitionB
  /\ "A" ∈ StructureSort.built_on Sample.toString MoreSample.definitionB
  /\ "A" ∈ StructureSort.hash_of Sample.toString <$> MoreSample.definitions
  /\ exists j dd,
       (j < 1)%nat
       /\ [MoreSample.definitionA; MoreSample.definitionB] !! j = Some dd
       /\ StructureSort.hash_of Sample.toString dd = "A".
Proof.
  assert (H0 : StructureSort.ranked Sample.toString MoreSample.rank
                 MoreSample.definitions = true) by (vm_compute; reflexivity).
  assert (H1 : StructureSort.sortStructure Sample.toString MoreSample.definitions
               = Some [MoreSample.definitionA; MoreSample.definitionB])
    by (vm_compute; reflexivity).
  assert (H2 : [MoreSample.definitionA; MoreSample.definitionB] !! 1%nat
               = Some MoreSample.definitionB) by reflexivity.
  assert (H3 : "A" ∈ StructureSort.built_on Sample.toString MoreSample.definitionB)
    by (right; left).
  assert (H4 : "A" ∈ StructureSort.hash_of Sample.toString
                       <$> MoreSample.definitions)
    by (right; left).
  split; [exact H0|]. split; [exact H1|]. split; [exact H2|].
  split; [exact H3|]. split; [exact H4|].
  exact (StructureSortProperties.sortStructure_dependencies_first Sample.toString
           MoreSample.definitions MoreSample.rank
           [MoreSample.definitionA; MoreSample.definitionB] 1%nat
           MoreSample.definitionB "A" H0 H1 H2 H3 H4).
Defined.

Lemma sortStructure_permutation_witness :
  NoDup (StructureSort.hash_of Sample.toString <$> MoreSample.definitions)
  /\ StructureSort.sortStructure Sample.toString MoreSample.definitions
     = Some [MoreSample.definitionA; MoreSample.definitionB]
  /\ [MoreSample.definitionA; MoreSample.definitionB] ≡ₚ MoreSample.definitions.
Proof.
  assert (H0 : NoDup (StructureSort.hash_of Sample.toString
                        <$> MoreSample.definitions))
    by (apply NoDup_cons; split; [|apply NoDup_singleton];
        intros H%list_elem_of_singleton; discriminate H).
  assert (H1 : StructureSort.sortStructure Sample.toString MoreSample.definitions
               = Some [MoreSample.definitionA; MoreSample.definitionB])
    by (vm_compute; reflexivity).
  split; [exact H0|]. split; [exact H1|].
  exact (StructureSortProperties.sortStructure_permutation Sample.toString
           MoreSample.definitions
           [MoreSample.definitionA; MoreSample.definitionB] H0 H1).
Defined.
